(** * Reranking of n-best parser hypotheses: a shallow embedding of
      [components/reranker.py]

    The Python module mutates the hypothesis lists it is given
    ([decode_results]) and raises exceptions; both are kept here: a
    computation is a function from the store (the lists of hypotheses) to an
    outcome together with the store it leaves behind, also when it raises.

    Scores, feature values and weights are Python floats in the source. They
    are modelled by exact rationals ([Q]): every property below is about
    order, equality and sums of these numbers, not about rounding, and NaN is
    outside the model. *)

From Stdlib Require Import String Ascii List Bool Arith PeanoNat ZArith QArith Lia Lqa.
From Stdlib Require Import Permutation Sorted.
Import ListNotations.

Open Scope string_scope.
Open Scope list_scope.
Open Scope Q_scope.

Set Implicit Arguments.

(** ** Exceptions and outcomes *)

Inductive exn : Type :=
| IndexError
| NameError (name : string)
| AttributeError (name : string)
| KeyError (key : string)
| ValueError
| TypeError
| ZeroDivisionError
| NotImplementedError
| ExternalError (what : string)   (* raised by a collaborator: tokenizer, scorer, booster *)
| NonTermination.                 (* not an exception: marks a loop that never ends *)

Inductive result (A : Type) : Type :=
| Ok (a : A)
| Raise (e : exn).

Arguments Ok {A} a.
Arguments Raise {A} e.

Definition rbind {A B} (r : result A) (k : A -> result B) : result B :=
  match r with
  | Ok a => k a
  | Raise e => Raise e
  end.

Notation "x <- r ;; k" := (rbind r (fun x => k))
  (at level 61, r at next level, right associativity).

Fixpoint mapM {A B} (f : A -> result B) (l : list A) : result (list B) :=
  match l with
  | [] => Ok []
  | a :: t => b <- f a ;; bs <- mapM f t ;; Ok (b :: bs)
  end.

(** [l[i]] on a Python list, for a non-negative index. *)
Definition index {A} (l : list A) (i : nat) : result A :=
  match nth_error l i with
  | Some a => Ok a
  | None => Raise IndexError
  end.

(** ** Ordered dictionaries

    [collections.OrderedDict] with string keys: assignment to an existing key
    replaces the value where it stands, assignment to a new key appends. *)

Section OrderedDict.
Variable V : Type.

Definition OrderedDict := list (string * V).

Fixpoint od_get (k : string) (d : OrderedDict) : option V :=
  match d with
  | [] => None
  | (k', v) :: t => if String.eqb k k' then Some v else od_get k t
  end.

Fixpoint od_set (k : string) (v : V) (d : OrderedDict) : OrderedDict :=
  match d with
  | [] => [(k, v)]
  | (k', v') :: t =>
      if String.eqb k k' then (k', v) :: t else (k', v') :: od_set k v t
  end.

Definition od_keys (d : OrderedDict) : list string := map fst d.
Definition od_values (d : OrderedDict) : list V := map snd d.

(** [d[k]] *)
Definition od_item (k : string) (d : OrderedDict) : result V :=
  match od_get k d with
  | Some v => Ok v
  | None => Raise (KeyError k)
  end.
End OrderedDict.

(** The key order that a sequence of assignments to fresh or existing keys
    produces: each key once, at its first assignment. *)
Fixpoint key_add (k : string) (ks : list string) : list string :=
  match ks with
  | [] => [k]
  | k' :: t => if String.eqb k k' then k' :: t else k' :: key_add k t
  end.

(** ** Numbers *)

Definition Qltb (a b : Q) : bool := negb (Qle_bool b a).

(** ** The data model *)

(** A decoded hypothesis. [code_token_count] and [rerank_feature_values] are
    attributes that the reranker adds; [None] is an attribute that does not
    exist yet. *)
Record Hyp : Type := mkHyp {
  code : string;
  score : Q;
  is_correct : bool;
  code_token_count : option nat;
  rerank_feature_values : option (OrderedDict Q)
}.

Record Example : Type := mkExample {
  src_sent : list string
}.

(** The pseudo example that [initialize_rerank_features] builds for each
    hypothesis; [attrs] holds what [setattr] puts on it. *)
Record HypExample : Type := mkHypExample {
  hx_src_sent : list string;
  tgt_code : string;
  attrs : OrderedDict Q
}.

Record TransitionSystem : Type := mkTransitionSystem {
  tokenize_code : string -> result (list string)
}.

(** [evaluate_dataset(examples, decode_results, fast_mode)] of the external
    evaluator. *)
Record Evaluator : Type := mkEvaluator {
  evaluate_dataset : list Example -> list (list Hyp) -> bool -> Q
}.

(** [RerankingFeature]: [get_feat_value(example, hyp, hyp_id=, all_hyps=)]
    for a feature that is not batched, [score(batch)] for a batched one. *)
Record RerankingFeature : Type := mkFeature {
  feature_name : string;
  is_batched : bool;
  get_feat_value : Example -> Hyp -> nat -> list Hyp -> result Q;
  score_batch : list HypExample -> result (list Q)
}.

Definition no_score_batch (_ : list HypExample) : result (list Q) :=
  Raise (AttributeError "score").

Definition get_code_token_count (hyp : Hyp) : result nat :=
  match code_token_count hyp with
  | Some n => Ok n
  | None => Raise (AttributeError "code_token_count")
  end.

Definition get_rerank_feature_values (hyp : Hyp) : result (OrderedDict Q) :=
  match rerank_feature_values hyp with
  | Some d => Ok d
  | None => Raise (AttributeError "rerank_feature_values")
  end.

Definition Q_of_nat (n : nat) : Q := inject_Z (Z.of_nat n).

Definition NormalizedParserScore : RerankingFeature :=
  {| feature_name := "normalized_parser_score";
     is_batched := false;
     get_feat_value := fun _ hyp _ _ =>
       n <- get_code_token_count hyp ;;
       match n with
       | O => Raise ZeroDivisionError
       | S _ => Ok (score hyp / Q_of_nat n)
       end;
     score_batch := no_score_batch |}.

Definition HypCodeTokensCount : RerankingFeature :=
  {| feature_name := "code_token_count";
     is_batched := false;
     get_feat_value := fun _ hyp _ _ =>
       n <- get_code_token_count hyp ;; Ok (Q_of_nat n);
     score_batch := no_score_batch |}.

Definition IsSecondHypAndScoreMargin : RerankingFeature :=
  {| feature_name := "is_2nd_hyp_and_margin_with_top_hyp";
     is_batched := false;
     get_feat_value := fun _ hyp hyp_id all_hyps =>
       if Nat.eqb hyp_id 1 then
         top <- index all_hyps 0 ;; Ok (score top - score hyp)
       else Ok 0;
     score_batch := no_score_batch |}.

Definition IsSecondHypAndParaphraseScoreMargin : RerankingFeature :=
  {| feature_name := "is_2nd_hyp_and_paraphrase_score_margin_with_top_hyp";
     is_batched := false;
     get_feat_value := fun _ hyp hyp_id all_hyps =>
       if Nat.eqb hyp_id 1 then
         d <- get_rerank_feature_values hyp ;;
         a <- od_item "paraphrase_score" d ;;
         top <- index all_hyps 0 ;;
         d0 <- get_rerank_feature_values top ;;
         b <- od_item "paraphrase_score" d0 ;;
         Ok (a - b)
       else Ok 0;
     score_batch := no_score_batch |}.

(** The trained booster of [XGBoostReranker]: only [predict] is used by the
    code modelled here. *)
Record XGBRanker : Type := mkXGBRanker {
  predict : list (list Q) -> result (list Q)
}.

(** The class of a reranker object decides which [get_rerank_score] runs. *)
Inductive RerankerClass : Type :=
| BaseReranker
| GridSearchReranker
| XGBoostReranker (ranker : XGBRanker).

Record Reranker : Type := mkReranker {
  cls : RerankerClass;
  features : list RerankingFeature;
  transition_system : TransitionSystem;
  feat_map : OrderedDict RerankingFeature;
  batched_features : OrderedDict RerankingFeature;
  parameter : list Q
}.

Definition feature_num (self : Reranker) : nat := length (features self).

(** [np.zeros(n)] *)
Definition np_zeros (n : nat) : list Q := repeat 0 n.

Definition _add_feature (self : Reranker) (feature : RerankingFeature) : Reranker :=
  {| cls := cls self;
     features := features self ++ [feature];
     transition_system := transition_system self;
     feat_map := od_set (feature_name feature) feature (feat_map self);
     batched_features :=
       if is_batched feature
       then od_set (feature_name feature) feature (batched_features self)
       else batched_features self;
     parameter := parameter self |}.

Definition set_parameter (self : Reranker) (p : list Q) : Reranker :=
  {| cls := cls self;
     features := features self;
     transition_system := transition_system self;
     feat_map := feat_map self;
     batched_features := batched_features self;
     parameter := p |}.

(** [Reranker.__init__(features, parameter, transition_system)] *)
Definition new_reranker (c : RerankerClass) (feats : list RerankingFeature)
    (param : option (list Q)) (ts : TransitionSystem) : Reranker :=
  let self := fold_left _add_feature feats
                {| cls := c; features := []; transition_system := ts;
                   feat_map := []; batched_features := []; parameter := [] |} in
  match param with
  | Some p => set_parameter self p
  | None => set_parameter self (np_zeros (feature_num self))
  end.

(** ** Computations on the store *)

(** [decode_results]: one list of hypotheses per example. The methods below
    replace these lists and add attributes to the hypotheses in place. Every
    hypothesis object is taken to occur once in [decode_results]. *)
Definition Store := list (list Hyp).

Definition M (A : Type) : Type := Store -> result A * Store.

Definition mret {A} (a : A) : M A := fun dr => (Ok a, dr).
Definition mraise {A} (e : exn) : M A := fun dr => (Raise e, dr).
Definition mbind {A B} (m : M A) (k : A -> M B) : M B :=
  fun dr =>
    match m dr with
    | (Ok a, dr') => k a dr'
    | (Raise e, dr') => (Raise e, dr')
    end.
Definition mlift {A} (r : result A) : M A := fun dr => (r, dr).

Notation "x <~ m ;; k" := (mbind m (fun x => k))
  (at level 61, m at next level, right associativity).

Section Loops.
Variable St : Type.

(** [for hyp_id, hyp in enumerate(hyps): body]. The body may update [hyp]
    and reads the list as it stands at that moment: the hypotheses before
    [hyp] as the loop left them, [hyp] itself, and those still to come.
    When the body raises, what it had already changed stays changed. *)
Fixpoint for_hyps (body : St -> list Hyp -> Hyp -> list Hyp -> result St * Hyp)
    (acc : St) (before todo : list Hyp) : result St * list Hyp :=
  match todo with
  | [] => (Ok acc, before)
  | hyp :: after =>
      match body acc before hyp after with
      | (Ok acc', hyp') => for_hyps body acc' (before ++ [hyp']) after
      | (Raise e, hyp') => (Raise e, before ++ hyp' :: after)
      end
  end.

(** [for example, hyps in zip(examples, decode_results): body]; [zip] stops
    at the shorter of the two, and the lists beyond stay untouched. *)
Fixpoint for_examples (body : St -> Example -> list Hyp -> result St * list Hyp)
    (acc : St) (examples : list Example) (dr : Store) : result St * Store :=
  match examples, dr with
  | example :: es, hyps :: rest =>
      match body acc example hyps with
      | (Ok acc', hyps') =>
          let (r, rest') := for_examples body acc' es rest in (r, hyps' :: rest')
      | (Raise e, hyps') => (Raise e, hyps' :: rest)
      end
  | _, _ => (Ok acc, dr)
  end.
End Loops.

(** ** Reranker: feature initialization *)

Definition set_code_token_count (n : nat) (hyp : Hyp) : Hyp :=
  {| code := code hyp; score := score hyp; is_correct := is_correct hyp;
     code_token_count := Some n;
     rerank_feature_values := rerank_feature_values hyp |}.

Definition set_rerank_feature_values (d : OrderedDict Q) (hyp : Hyp) : Hyp :=
  {| code := code hyp; score := score hyp; is_correct := is_correct hyp;
     code_token_count := code_token_count hyp;
     rerank_feature_values := Some d |}.

(** [hyp.rerank_feature_values[feat_name] = v] *)
Definition set_rerank_feature (feat_name : string) (v : Q) (hyp : Hyp) : result unit * Hyp :=
  match rerank_feature_values hyp with
  | None => (Raise (AttributeError "rerank_feature_values"), hyp)
  | Some d => (Ok tt, set_rerank_feature_values (od_set feat_name v d) hyp)
  end.

(** First loop of [initialize_rerank_features]: the pseudo example, the token
    count and an empty cache for every hypothesis. *)
Definition init_hyp (self : Reranker) (example : Example)
    (hyp_examples : list HypExample) (_ : list Hyp) (hyp : Hyp) (_ : list Hyp)
    : result (list HypExample) * Hyp :=
  let hyp_example := {| hx_src_sent := src_sent example; tgt_code := code hyp; attrs := [] |} in
  match tokenize_code (transition_system self) (code hyp) with
  | Raise e => (Raise e, hyp)
  | Ok tokens =>
      (Ok (hyp_examples ++ [hyp_example]),
       set_rerank_feature_values [] (set_code_token_count (length tokens) hyp))
  end.

Definition init_hyps (self : Reranker) (hyp_examples : list HypExample)
    (example : Example) (hyps : list Hyp) : result (list HypExample) * list Hyp :=
  for_hyps (init_hyp self example) hyp_examples [] hyps.

(** Modelled from the spec: [utils.batch_iter(examples, batch_size)] of
    [model/utils.py], which is not among the sources. The spec has the
    hypotheses of all examples grouped, in order, into batches of a fixed
    size, the last one possibly shorter. *)
Fixpoint batch_iter_from {A} (batch_num batch_size : nat) (l : list A) : list (list A) :=
  match batch_num with
  | O => []
  | S k => firstn batch_size l :: batch_iter_from k batch_size (skipn batch_size l)
  end.

Definition batch_iter {A} (l : list A) (batch_size : nat) : list (list A) :=
  batch_iter_from ((length l + batch_size - 1) / batch_size)%nat batch_size l.

(** [for i, e in enumerate(batch_examples): setattr(e, feat_name, scores[i])] *)
Fixpoint setattr_scores (feat_name : string) (scores : list Q) (i : nat)
    (batch_examples : list HypExample) : result (list HypExample) :=
  match batch_examples with
  | [] => Ok []
  | e :: t =>
      v <- index scores i ;;
      t' <- setattr_scores feat_name scores (S i) t ;;
      Ok ({| hx_src_sent := hx_src_sent e; tgt_code := tgt_code e;
             attrs := od_set feat_name v (attrs e) |} :: t')
  end.

Fixpoint score_batch_examples (batched : OrderedDict RerankingFeature)
    (batch_examples : list HypExample) : result (list HypExample) :=
  match batched with
  | [] => Ok batch_examples
  | (feat_name, feat) :: fs =>
      batch_example_scores <- score_batch feat batch_examples ;;
      batch_examples' <- setattr_scores feat_name batch_example_scores 0 batch_examples ;;
      score_batch_examples fs batch_examples'
  end.

(** [getattr(e, feat_name)] *)
Definition getattr_score (e : HypExample) (feat_name : string) : result Q :=
  match od_get feat_name (attrs e) with
  | Some v => Ok v
  | None => Raise (AttributeError feat_name)
  end.

(** Third loop: copy the batched scores into the caches, by position. *)
Fixpoint copy_batched (batched : OrderedDict RerankingFeature)
    (hyp_examples : list HypExample) (e_ptr : nat) (hyp : Hyp) : result unit * Hyp :=
  match batched with
  | [] => (Ok tt, hyp)
  | (feat_name, _) :: fs =>
      match (e <- index hyp_examples e_ptr ;; getattr_score e feat_name) with
      | Raise x => (Raise x, hyp)
      | Ok v =>
          match set_rerank_feature feat_name v hyp with
          | (Ok _, hyp') => copy_batched fs hyp_examples e_ptr hyp'
          | (Raise x, hyp') => (Raise x, hyp')
          end
      end
  end.

Definition copy_batched_hyp (self : Reranker) (hyp_examples : list HypExample)
    (e_ptr : nat) (_ : list Hyp) (hyp : Hyp) (_ : list Hyp) : result nat * Hyp :=
  match copy_batched (batched_features self) hyp_examples e_ptr hyp with
  | (Ok _, hyp') => (Ok (S e_ptr), hyp')
  | (Raise x, hyp') => (Raise x, hyp')
  end.

Definition copy_batched_hyps (self : Reranker) (hyp_examples : list HypExample)
    (e_ptr : nat) (_ : Example) (hyps : list Hyp) : result nat * list Hyp :=
  for_hyps (copy_batched_hyp self hyp_examples) e_ptr [] hyps.

(** Fourth loop: the features that are not batched, each computed with
    [hyp_id] and with [all_hyps], the list of the example as it stands. *)
Fixpoint scalar_features (feats : OrderedDict RerankingFeature) (example : Example)
    (before : list Hyp) (hyp : Hyp) (after : list Hyp) : result unit * Hyp :=
  match feats with
  | [] => (Ok tt, hyp)
  | (feat_name, feat) :: fs =>
      if is_batched feat then scalar_features fs example before hyp after
      else
        match get_feat_value feat example hyp (length before) (before ++ hyp :: after) with
        | Raise x => (Raise x, hyp)
        | Ok feat_val =>
            match set_rerank_feature feat_name feat_val hyp with
            | (Ok _, hyp') => scalar_features fs example before hyp' after
            | (Raise x, hyp') => (Raise x, hyp')
            end
        end
  end.

Definition scalar_features_hyp (self : Reranker) (example : Example)
    (_ : unit) (before : list Hyp) (hyp : Hyp) (after : list Hyp) : result unit * Hyp :=
  scalar_features (feat_map self) example before hyp after.

Definition scalar_features_hyps (self : Reranker) (_ : unit)
    (example : Example) (hyps : list Hyp) : result unit * list Hyp :=
  for_hyps (scalar_features_hyp self example) tt [] hyps.

Definition initialize_rerank_features (self : Reranker) (examples : list Example) : M unit :=
  hyp_examples <~ for_examples (init_hyps self) [] examples ;;
  batches <~ mlift (mapM (score_batch_examples (batched_features self))
                         (batch_iter hyp_examples 128)) ;;
  _ <~ for_examples (copy_batched_hyps self (concat batches)) 0%nat examples ;;
  for_examples (scalar_features_hyps self) tt examples.

(** ** Reranker: filtering *)

(** The local function [is_valid_hyp]: the bare [except] turns every error of
    the tokenizer into [False]. *)
Definition is_valid_hyp (self : Reranker) (hyp : Hyp) : bool :=
  match tokenize_code (transition_system self) (code hyp) with
  | Raise _ => false
  | Ok _ => negb (String.eqb (code hyp) "")
  end.

Definition _filter_hyps (is_valid : Hyp -> bool) (decode_results : Store) : Store :=
  map (filter is_valid) decode_results.

Definition hasattr_rerank_feature_values (hyp : Hyp) : bool :=
  match rerank_feature_values hyp with
  | Some _ => true
  | None => false
  end.

Definition filter_hyps_and_initialize_features (self : Reranker)
    (examples : list Example) : M unit :=
  fun decode_results =>
    match decode_results with
    | [] => (Raise IndexError, decode_results)
    | [] :: _ => (Raise IndexError, decode_results)
    | (hyp0 :: _) :: _ =>
        if hasattr_rerank_feature_values hyp0 then (Ok tt, decode_results)
        else initialize_rerank_features self examples
               (_filter_hyps (is_valid_hyp self) decode_results)
    end.

(** ** The NumPy and itertools functions the module calls *)

(** [np.argmax(v)]: the running maximum is replaced only by a strictly
    greater entry, so the index returned is that of the first maximum. *)
Fixpoint argmax_from (v : list Q) (i : nat) (best_idx : nat) (best : Q) : nat :=
  match v with
  | [] => best_idx
  | x :: t => if Qltb best x then argmax_from t (S i) i x
              else argmax_from t (S i) best_idx best
  end.

Definition np_argmax (v : list Q) : result nat :=
  match v with
  | [] => Raise ValueError
  | x :: t => Ok (argmax_from t 1 0 x)
  end.

(** [np.argsort(v)]: indices that sort [v] in ascending order. NumPy's
    default kind sorts a short array by insertion: each index in turn moves
    left past the indices of strictly greater entries. [shift_left] is that
    inner loop, on the sorted prefix read from its right end. NumPy promises
    no particular order among equal entries of longer arrays. *)
Fixpoint shift_left (v : list Q) (vi : nat) (prefix_from_right : list nat) : list nat :=
  match prefix_from_right with
  | [] => [vi]
  | k :: t => if Qltb (nth vi v 0) (nth k v 0) then k :: shift_left v vi t
              else vi :: k :: t
  end.

Definition np_argsort (v : list Q) : list nat :=
  rev (fold_left (fun tosort vi => shift_left v vi tosort) (seq 0 (length v)) []).

(** [np.dot(a, b)] on two vectors. *)
Definition np_dot (a b : list Q) : result Q :=
  if Nat.eqb (length a) (length b)
  then Ok (fold_left (fun acc ab => acc + fst ab * snd ab) (combine a b) 0)
  else Raise ValueError.

(** [np.arange(0, n/100, 0.01)]: the [n] multiples of a hundredth from 0 on. *)
Definition np_arange_hundredths (n : nat) : list Q :=
  map (fun i => Z.of_nat i # 100) (seq 0 n).

(** [itertools.combinations(l, r)]: the subsequences of length [r], in the
    lexicographic order of their positions. *)
Fixpoint combinations {A} (l : list A) (r : nat) : list (list A) :=
  match r, l with
  | O, _ => [[]]
  | S _, [] => []
  | S r', a :: t => map (cons a) (combinations t r') ++ combinations t r
  end.

(** [np.stack(x)] of a list of vectors. *)
Definition np_stack (x : list (list Q)) : result (list (list Q)) :=
  match x with
  | [] => Raise ValueError
  | row :: t =>
      if forallb (fun row' => Nat.eqb (length row') (length row)) t
      then Ok x else Raise ValueError
  end.

(** ** GridSearchReranker and XGBoostReranker: scoring *)

Definition GridSearchReranker_get_rerank_score (hyp : Hyp) (param : list Q) : result Q :=
  d <- get_rerank_feature_values hyp ;;
  let feat_vals := od_values d in
  dot <- np_dot param feat_vals ;;
  Ok (score hyp + dot).

Fixpoint feature_rows (hyps : list Hyp) (x : list (list Q)) (y : list Z)
    : result (list (list Q) * list Z) :=
  match hyps with
  | [] => Ok (x, y)
  | hyp :: t =>
      let label := if is_correct hyp then 1%Z else 0%Z in
      d <- get_rerank_feature_values hyp ;;
      let feat_vec := score hyp :: od_values d in
      feature_rows t (x ++ [feat_vec]) (y ++ [label])
  end.

Fixpoint feature_groups (decode_results : list (list Hyp))
    (x : list (list Q)) (y : list Z) (group : list nat)
    : result (list (list Q) * list Z * list nat) :=
  match decode_results with
  | [] => Ok (x, y, group)
  | hyps :: rest =>
      match hyps with
      | [] => feature_groups rest x y group
      | _ :: _ =>
          xy <- feature_rows hyps x y ;;
          feature_groups rest (fst xy) (snd xy) (group ++ [length hyps])
      end
  end.

Definition get_feature_matrix (decode_results : list (list Hyp))
    : result (list (list Q) * list Z * list nat) :=
  xyg <- feature_groups decode_results [] [] [] ;;
  x <- np_stack (fst (fst xyg)) ;;
  Ok (x, snd (fst xyg), snd xyg).

(** The [param] argument is not read. *)
Definition XGBoostReranker_get_rerank_score (ranker : XGBRanker)
    (hyp : Hyp) (param : list Q) : result Q :=
  xyg <- get_feature_matrix [[hyp]] ;;
  y <- predict ranker (fst (fst xyg)) ;;
  index y 0.

Definition get_rerank_score (self : Reranker) (hyp : Hyp) (param : list Q) : result Q :=
  match cls self with
  | BaseReranker => Raise NotImplementedError
  | GridSearchReranker => GridSearchReranker_get_rerank_score hyp param
  | XGBoostReranker ranker => XGBoostReranker_get_rerank_score ranker hyp param
  end.

(** ** Reranker.compute_rerank_performance *)

(** The body of the loop over the examples: what is appended to
    [sorted_decode_results] for one example. *)
Definition rerank_hyps (self : Reranker) (param : list Q) (fast_mode : bool)
    (hyps : list Hyp) : result (list Hyp) :=
  match hyps with
  | [] => Ok []
  | _ :: _ =>
      new_hyp_scores <- mapM (fun hyp => get_rerank_score self hyp param) hyps ;;
      best_hyp_idx <- np_argmax new_hyp_scores ;;
      best_hyp <- index hyps best_hyp_idx ;;
      if fast_mode then Ok [best_hyp]
      else mapM (index hyps) (rev (np_argsort new_hyp_scores))
  end.

Fixpoint rerank_examples (self : Reranker) (param : list Q) (fast_mode : bool)
    (examples : list Example) (decode_results : list (list Hyp))
    : result (list (list Hyp)) :=
  match examples, decode_results with
  | _ :: es, hyps :: rest =>
      r <- rerank_hyps self param fast_mode hyps ;;
      rs <- rerank_examples self param fast_mode es rest ;;
      Ok (r :: rs)
  | _, _ => Ok []
  end.

(** [verbose] only prints and is left out. *)
Definition compute_rerank_performance (self : Reranker) (examples : list Example)
    (evaluator : Evaluator) (param : option (list Q)) (fast_mode : bool) : M Q :=
  _ <~ filter_hyps_and_initialize_features self examples ;;
  let param := match param with
               | None => parameter self
               | Some p => p
               end in
  fun decode_results =>
    match rerank_examples self param fast_mode examples decode_results with
    | Raise e => (Raise e, decode_results)
    | Ok sorted_decode_results =>
        (Ok (evaluate_dataset evaluator examples sorted_decode_results fast_mode),
         decode_results)
    end.

(** ** GridSearchReranker.train *)

(** The names bound where the comprehension of [train] is evaluated: the
    comprehension's own variable, the locals of [train], and the names bound
    at module level. No builtin is called [x]. *)
Definition names_in_train_scope : list string :=
  ["e"; "self"; "examples"; "decode_results"; "evaluator"; "initial_performance";
   "best_score"; "best_param"; "param_space";
   "print_function"; "multiprocessing"; "math"; "itertools"; "sys"; "os"; "torch";
   "nn"; "OrderedDict"; "np"; "CachedExactMatchEvaluator"; "Registrable"; "Savable";
   "tokenize_for_bleu_eval"; "conala_evaluator"; "utils"; "Example"; "xgb";
   "preprocessing"; "tqdm"; "_examples"; "_decode_results"; "_evaluator"; "_ranker";
   "_rank_worker"; "_rank_segment_worker"; "RerankingFeature"; "NormalizedParserScore";
   "HypCodeTokensCount"; "IsSecondHypAndScoreMargin";
   "IsSecondHypAndParaphraseScoreMargin"; "Reranker"; "GridSearchReranker";
   "XGBoostReranker"].

Definition lookup_name (scope : list string) (name : string) : result unit :=
  if existsb (String.eqb name) scope then Ok tt else Raise (NameError name).

(** [len([x for e in param_space])], with [param_space] a generator: each
    element is drawn from the generator and the name [x] is evaluated for it.
    The outcome comes with what is left in the generator. *)
Fixpoint len_x_for_e_in {A} (scope : list string) (param_space : list A) (n : nat)
    : result nat * list A :=
  match param_space with
  | [] => (Ok n, [])
  | e :: rest =>
      match lookup_name scope "x" with
      | Ok _ => len_x_for_e_in scope rest (S n)
      | Raise err => (Raise err, rest)
      end
  end.

(** [for param in param_space: ...] of [train]. *)
Fixpoint grid_search (self : Reranker) (examples : list Example) (evaluator : Evaluator)
    (param_space : list (list Q)) (best_param : list Q) (best_score : Q)
    : M (list Q * Q) :=
  match param_space with
  | [] => mret (best_param, best_score)
  | param :: rest =>
      score <~ compute_rerank_performance self examples evaluator (Some param) true ;;
      if Qltb best_score score
      then grid_search self examples evaluator rest param score
      else grid_search self examples evaluator rest best_param best_score
  end.

(** [train], with the scope of names and the grid of values as arguments.
    The result is the value assigned to [self.parameter]. *)
Definition train_on (scope : list string) (values : list Q) (self : Reranker)
    (examples : list Example) (evaluator : Evaluator) (initial_performance : Q)
    : M (list Q) :=
  let best_score := initial_performance in
  let best_param := np_zeros (feature_num self) in
  let param_space := combinations values (feature_num self) in
  match len_x_for_e_in scope param_space 0 with
  | (Raise err, _) => mraise err
  | (Ok _, param_space) =>
      best <~ grid_search self examples evaluator param_space best_param best_score ;;
      mret (fst best)
  end.

Definition train : Reranker -> list Example -> Evaluator -> Q -> M (list Q) :=
  train_on names_in_train_scope (np_arange_hundredths 301).

(** ** GridSearchReranker.train_multiprocess *)

(** The loop of [_rank_segment_worker]. *)
Fixpoint segment_search (self : Reranker) (examples : list Example) (evaluator : Evaluator)
    (param_space : list (list Q)) (best_param : option (list Q)) (best_score : Q)
    : M (option (list Q) * Q) :=
  match param_space with
  | [] => mret (best_param, best_score)
  | param :: rest =>
      score <~ compute_rerank_performance self examples evaluator (Some param) true ;;
      if Qltb best_score score
      then segment_search self examples evaluator rest (Some param) score
      else segment_search self examples evaluator rest best_param best_score
  end.

(** [_rank_segment_worker(param_space)], run in a child process on its own
    copy of the globals: [decode_results] is the snapshot taken when the pool
    was created, and what the child does to its copy is not seen by the
    parent. *)
Definition _rank_segment_worker (self : Reranker) (examples : list Example)
    (evaluator : Evaluator) (decode_results : Store) (param_space : list (list Q))
    : result (option (list Q) * Q) :=
  match param_space with
  | [] => Raise IndexError          (* param_space[0] in the message printed *)
  | _ :: _ =>
      fst (segment_search self examples evaluator param_space None 0 decode_results)
  end.

(** The local function [_norm]. *)
Definition _norm (_param : option (list Q)) : result Q :=
  match _param with
  | None => Raise TypeError         (* sum over None *)
  | Some p => Ok (fold_left (fun acc x => acc + x ^ 2) p 0)
  end.

(** The test of the coordinator's loop,
    [score > best_score or score == best_score and _norm(param) < _norm(best_param)],
    evaluated left to right. *)
Definition improves (param : option (list Q)) (score : Q)
    (best_param : option (list Q)) (best_score : Q) : result bool :=
  if Qltb best_score score then Ok true
  else if Qeq_bool score best_score then
    n <- _norm param ;; nb <- _norm best_param ;; Ok (Qltb n nb)
  else Ok false.

(** [for param, score in results: ...]: the results are taken as the workers
    deliver them; a worker that raised makes the iteration raise. *)
Fixpoint merge_results (results : list (result (option (list Q) * Q)))
    (best_param : option (list Q)) (best_score : Q) : result (option (list Q) * Q) :=
  match results with
  | [] => Ok (best_param, best_score)
  | r :: rest =>
      ps <- r ;;
      b <- improves (fst ps) (snd ps) best_param best_score ;;
      if (b : bool) then merge_results rest (fst ps) (snd ps)
      else merge_results rest best_param best_score
  end.

(** The [while] loop that cuts the parameter list into segments; with a
    segment size of 0 and a parameter to place, [ptr] never advances. *)
Definition param_space_segments {A} (param_space : list A) (segment_size : nat)
    : result (list (list A)) :=
  match segment_size, param_space with
  | O, [] => Ok []
  | O, _ :: _ => Raise NonTermination
  | S _, _ =>
      Ok (batch_iter_from ((length param_space + segment_size - 1) / segment_size)%nat
            segment_size param_space)
  end.

(** [train_multiprocess]. [arrival] is the order in which
    [imap_unordered] delivers the segments' results, as segment numbers. The
    result is the value assigned to [self.parameter]. *)
Definition train_multiprocess (self : Reranker) (examples : list Example)
    (evaluator : Evaluator) (initial_performance : Q) (num_workers : nat)
    (arrival : list nat) : M (option (list Q)) :=
  let best_score := initial_performance in
  let best_param := Some (np_zeros (feature_num self)) in
  _ <~ initialize_rerank_features self examples ;;
  let param_space := combinations (np_arange_hundredths 100) (feature_num self) in
  fun decode_results =>
    match num_workers with
    | O => (Raise ValueError, decode_results)     (* Pool(processes=0) *)
    | S _ =>
        let segment_size := (length param_space / (num_workers * 5))%nat in
        match param_space_segments param_space segment_size with
        | Raise e => (Raise e, decode_results)
        | Ok segments =>
            let results :=
              map (fun i => _rank_segment_worker self examples evaluator decode_results
                              (nth i segments [])) arrival in
            match merge_results results best_param best_score with
            | Raise e => (Raise e, decode_results)
            | Ok best => (Ok (fst best), decode_results)
            end
        end
    end.

(** ** Reranker.__getattr__ and Reranker.load *)

(** [__getattr__(item)]: the feature registered under the name [item]. *)
Definition Reranker___getattr__ (self : Reranker) (item : string) : result RerankingFeature :=
  match od_get item (feat_map self) with
  | Some feat => Ok feat
  | None => Raise ValueError
  end.

(** The bundle that [save] hands to [torch.save] and [load] gets back from
    [torch.load]. *)
Record SavedParams : Type := mkSavedParams {
  saved_parameter : option (list Q);
  saved_feature_names : list string;
  saved_transition_system : TransitionSystem
}.

(** A class of [Registrable.registered_components], as [load] uses it: a
    subclass of [Savable] is asked to [load] itself from a path and is put
    in evaluation mode, any other class is called without arguments. *)
Inductive FeatureClass : Type :=
| PlainFeatureClass (new : result RerankingFeature)
| SavableFeatureClass (load_from : string -> bool -> result RerankingFeature).

(** [for feat_name in feature_names: ...] of [load]. *)
Fixpoint load_features (registry : OrderedDict FeatureClass) (model_path : string)
    (cuda : bool) (feature_names : list string) (features : list RerankingFeature)
    : result (list RerankingFeature) :=
  match feature_names with
  | [] => Ok features
  | feat_name :: rest =>
      feat_cls <- od_item feat_name registry ;;
      feat_inst <- match feat_cls with
                   | SavableFeatureClass load_from =>
                       load_from (model_path ++ "." ++ feat_name)%string cuda
                   | PlainFeatureClass new => new
                   end ;;
      load_features registry model_path cuda rest (features ++ [feat_inst])
  end.

(** The class method [load], called on the class [c]. [torch_load] stands for
    [torch.load] on the files that exist. The last step calls the class with
    three positional arguments, which [XGBoostReranker.__init__(self,
    features, transition_system=None)] does not take. *)
Definition load (c : RerankerClass) (torch_load : string -> result SavedParams)
    (registry : OrderedDict FeatureClass) (model_path : string) (cuda : bool)
    : result Reranker :=
  params <- torch_load model_path ;;
  let feature_names := saved_feature_names params in
  features <- load_features registry model_path cuda feature_names [] ;;
  match c with
  | XGBoostReranker _ => Raise TypeError
  | _ => Ok (new_reranker c features (saved_parameter params)
               (saved_transition_system params))
  end.

(** The four feature classes that this module registers, under the names
    given to [Registrable.register]. *)
Definition module_feature_classes : OrderedDict FeatureClass :=
  [("normalized_parser_score", PlainFeatureClass (Ok NormalizedParserScore));
   ("code_token_count", PlainFeatureClass (Ok HypCodeTokensCount));
   ("is_2nd_hyp_and_margin_with_top_hyp", PlainFeatureClass (Ok IsSecondHypAndScoreMargin));
   ("is_2nd_hyp_and_paraphrase_score_margin_with_top_hyp",
    PlainFeatureClass (Ok IsSecondHypAndParaphraseScoreMargin))].

(** ** XGBoostReranker.train *)

Definition set_cls (self : Reranker) (c : RerankerClass) : Reranker :=
  {| cls := c;
     features := features self;
     transition_system := transition_system self;
     feat_map := feat_map self;
     batched_features := batched_features self;
     parameter := parameter self |}.

(** [self.ranker] *)
Definition get_ranker (self : Reranker) : result XGBRanker :=
  match cls self with
  | XGBoostReranker ranker => Ok ranker
  | _ => Raise (AttributeError "ranker")
  end.

(** [XGBoostReranker.train]. [fit] stands for [XGBRanker.fit], which leaves
    the booster trained on the rows, labels and groups it is given. The
    result is the reranker with its trained booster. *)
Definition XGBoostReranker_train
    (fit : XGBRanker -> list (list Q) -> list Z -> list nat -> result XGBRanker)
    (self : Reranker) (examples : list Example) (evaluator : Evaluator) : M Reranker :=
  _ <~ initialize_rerank_features self examples ;;
  fun decode_results =>
    match (xyg <- get_feature_matrix decode_results ;;
           ranker <- get_ranker self ;;
           fit ranker (fst (fst xyg)) (snd (fst xyg)) (snd xyg)) with
    | Raise e => (Raise e, decode_results)
    | Ok ranker' =>
        let self' := set_cls self (XGBoostReranker ranker') in
        match compute_rerank_performance self' examples evaluator None true
                decode_results with
        | (Raise e, decode_results') => (Raise e, decode_results')
        | (Ok train_acc, decode_results') => (Ok self', decode_results')
        end
    end.

(** ** Sample collaborators and data

    Concrete stand-ins for the external collaborators, used where a property
    is evaluated on an input. *)

Fixpoint paren_depth (s : string) (depth : nat) : option nat :=
  match s with
  | EmptyString => Some depth
  | String c t =>
      if Ascii.eqb c "("%char then paren_depth t (S depth)
      else if Ascii.eqb c ")"%char then
        match depth with
        | O => None
        | S d => paren_depth t d
        end
      else paren_depth t depth
  end.

(** A tokenizer that gives one token per character and refuses code whose
    parentheses do not balance. *)
Definition sample_transition_system : TransitionSystem :=
  {| tokenize_code := fun s =>
       match paren_depth s 0 with
       | Some O => Ok (map (fun c => String c EmptyString) (list_ascii_of_string s))
       | _ => Raise (ExternalError "tokenize_code")
       end |}.

Definition top_is_correct (hyps : list Hyp) : bool :=
  match hyps with
  | hyp :: _ => is_correct hyp
  | [] => false
  end.

(** Accuracy of the first hypothesis of each reranked list. *)
Definition sample_evaluator : Evaluator :=
  {| evaluate_dataset := fun examples results _ =>
       match examples with
       | [] => 0
       | _ :: _ => Q_of_nat (length (filter top_is_correct results))
                   / Q_of_nat (length examples)
       end |}.

(** A batched feature that scores every pseudo example 7. *)
Definition sample_paraphrase_score : RerankingFeature :=
  {| feature_name := "paraphrase_score";
     is_batched := true;
     get_feat_value := fun _ _ _ _ => Raise NotImplementedError;
     score_batch := fun batch => Ok (map (fun _ => 7) batch) |}.

Definition sample_example : Example := {| src_sent := ["assign"; "one"; "to"; "x"] |}.

Definition new_hyp (c : string) (s : Q) (correct : bool) : Hyp :=
  {| code := c; score := s; is_correct := correct;
     code_token_count := None; rerank_feature_values := None |}.

(** A grid search reranker with the token count as its only feature. *)
Definition sample_reranker : Reranker :=
  new_reranker GridSearchReranker [HypCodeTokensCount] None sample_transition_system.

(** A hypothesis as feature initialization leaves it. *)
Definition sample_cached_hyp : Hyp :=
  set_rerank_feature_values [("code_token_count", 3)]
    (set_code_token_count 3 (new_hyp "x=1" (-1 # 2) true)).

(** A booster that predicts the parser score of each row. *)
Definition sample_xgb_ranker : XGBRanker :=
  {| predict := fun x => Ok (map (fun row => nth 0 row 0) x) |}.

Definition sample_xgb_reranker : Reranker :=
  new_reranker (XGBoostReranker sample_xgb_ranker) [HypCodeTokensCount] None
    sample_transition_system.

(** The hypotheses of one example: two spellings of the assignment, an empty
    program and one that does not tokenize. *)
Definition sample_decode_results : Store :=
  [[new_hyp "x=1" (-1 # 2) false;
    new_hyp "" 0 false;
    new_hyp "not valid python((" (-1 # 4) false;
    new_hyp "x = 1" (-3 # 2) true]].

(** The two hypotheses of that example that survive filtering. *)
Definition sample_valid_results : Store :=
  [[new_hyp "x=1" (-1 # 2) false; new_hyp "x = 1" (-3 # 2) true]].

(** The same dataset after filtering and feature initialization. *)
Definition sample_initialized_results : Store :=
  [[set_rerank_feature_values [("code_token_count", 3)]
      (set_code_token_count 3 (new_hyp "x=1" (-1 # 2) false));
    set_rerank_feature_values [("code_token_count", 5)]
      (set_code_token_count 5 (new_hyp "x = 1" (-3 # 2) true))]].

(** A weight at which the two surviving hypotheses have the same score. *)
Definition sample_tie_param : list Q := [1 # 2].

(** The three hypotheses of the filtering example. *)
Definition sample_unfiltered_results : Store :=
  [[new_hyp "x=1" (-1 # 2) false;
    new_hyp "" 0 false;
    new_hyp "not valid python((" (-1 # 4) false]].

(** A grid search reranker whose batched feature is registered after a
    feature that is not batched. *)
Definition sample_mixed_reranker : Reranker :=
  new_reranker GridSearchReranker [HypCodeTokensCount; sample_paraphrase_score] None
    sample_transition_system.

(** A one-hypothesis dataset, before and after that reranker has initialized
    its features. *)
Definition sample_single_results : Store := [[new_hyp "x=1" (-1 # 2) false]].

Definition sample_mixed_initialized : Store :=
  [[set_rerank_feature_values [("paraphrase_score", 7); ("code_token_count", 3)]
      (set_code_token_count 3 (new_hyp "x=1" (-1 # 2) false))]].

(** A grid search reranker with the four features of this module and a
    batched paraphrase score. *)
Definition sample_features : list RerankingFeature :=
  [NormalizedParserScore; HypCodeTokensCount; IsSecondHypAndScoreMargin;
   sample_paraphrase_score; IsSecondHypAndParaphraseScoreMargin].

Definition sample_feature_reranker : Reranker :=
  new_reranker GridSearchReranker sample_features None sample_transition_system.

(** The two valid hypotheses as that reranker initializes them. *)
Definition sample_feature_initialized : Store :=
  Eval vm_compute in
    snd (initialize_rerank_features sample_feature_reranker [sample_example]
           sample_valid_results).

(** A reranker with the paraphrase margin and no paraphrase score. *)
Definition sample_margin_only_reranker : Reranker :=
  new_reranker GridSearchReranker [IsSecondHypAndParaphraseScoreMargin] None
    sample_transition_system.

(** A reranker given the token count twice. *)
Definition sample_duplicate_reranker : Reranker :=
  new_reranker GridSearchReranker [HypCodeTokensCount; HypCodeTokensCount] None
    sample_transition_system.

(** A [fit] that leaves the sample booster as it is. *)
Definition sample_fit (ranker : XGBRanker) (x : list (list Q)) (y : list Z)
    (group : list nat) : result XGBRanker := Ok ranker.

(** A bundle as [save] writes it for a reranker with two of the features of
    this module, and a [torch.load] that finds it at every path. *)
Definition sample_saved_params : SavedParams :=
  {| saved_parameter := Some [1 # 2; 1 # 4];
     saved_feature_names := ["code_token_count"; "normalized_parser_score"];
     saved_transition_system := sample_transition_system |}.

Definition sample_torch_load (path : string) : result SavedParams :=
  Ok sample_saved_params.

(** The accuracy that [compute_rerank_performance] reports for a parameter on
    the initialized sample dataset. *)
Definition sample_perf (param : list Q) : Q :=
  match fst (compute_rerank_performance sample_reranker [sample_example] sample_evaluator
               (Some param) true sample_initialized_results) with
  | Ok acc => acc
  | Raise _ => 0
  end.

Definition sample_segment : list (list Q) := [[1 # 2]; [51 # 100]; [52 # 100]].

(** ** Notions used to state the properties *)

(** The value of [_norm] on a vector. *)
Definition sq_norm (p : list Q) : Q := fold_left (fun acc x => acc + x ^ 2) p 0.

(** [(p, s)] is at least as good as [(q, t)]: a greater score, or the same
    score and no greater norm. *)
Definition dominates (ps qt : list Q * Q) : Prop :=
  snd qt < snd ps \/ (snd qt == snd ps /\ sq_norm (fst ps) <= sq_norm (fst qt)).

(** A worker's result that carries a parameter vector. *)
Definition vector_result (ps : list Q * Q) : result (option (list Q) * Q) :=
  Ok (Some (fst ps), snd ps).

(** The cached feature values of a hypothesis, in the order of its cache. *)
Definition cached_values (hyp : Hyp) : list Q :=
  match rerank_feature_values hyp with
  | Some d => od_values d
  | None => []
  end.

(** The row and the label of a hypothesis in the XGBoost feature matrix. *)
Definition feature_row (hyp : Hyp) : list Q := score hyp :: cached_values hyp.

Definition label_of (hyp : Hyp) : Z := if is_correct hyp then 1%Z else 0%Z.

(** The hypothesis has a cache of [n] feature values. *)
Definition has_features (n : nat) (hyp : Hyp) : Prop :=
  exists d, rerank_feature_values hyp = Some d /\ length d = n.

Definition nonempty {A} (l : list A) : bool :=
  match l with
  | [] => false
  | _ :: _ => true
  end.

(** [k] is the index of the first maximum of [v]. *)
Definition first_argmax (v : list Q) (k : nat) : Prop :=
  exists m, nth_error v k = Some m
            /\ (forall j x, nth_error v j = Some x -> x <= m)
            /\ (forall j x, (j < k)%nat -> nth_error v j = Some x -> x < m).

(** Index [i] may stand before index [j] in a descending arrangement of [v];
    [tie] says which of two indices with equal entries may come first. *)
Definition before_desc (tie : nat -> nat -> Prop) (v : list Q) (i j : nat) : Prop :=
  nth j v 0 < nth i v 0 \/ (nth j v 0 == nth i v 0 /\ tie i j).

(** [sorted] is [hyps] rearranged by descending [scores], ties arranged
    according to [tie]. *)
Definition sorted_desc (tie : nat -> nat -> Prop) (scores : list Q)
    (hyps sorted : list Hyp) : Prop :=
  exists order,
    Permutation order (seq 0 (length hyps))
    /\ map (nth_error hyps) order = map Some sorted
    /\ StronglySorted (before_desc tie scores) order.

(** Descending and stable: of two hypotheses with equal scores, the one that
    was first stays first. *)
Definition stable_descending : list Q -> list Hyp -> list Hyp -> Prop :=
  sorted_desc lt.

(** Descending, with equal scores in the reverse of their original order. *)
Definition descending_ties_reversed : list Q -> list Hyp -> list Hyp -> Prop :=
  sorted_desc gt.

(** The indices of [v] as the insertion loop of [np_argsort] arranges them,
    read from the right end. *)
Definition argsort_from_right (v : list Q) (n : nat) : list nat :=
  fold_left (fun tosort vi => shift_left v vi tosort) (seq 0 n) [].

(** The cache of the hypothesis has exactly the keys [ks], in that order. *)
Definition has_keys (ks : list string) (hyp : Hyp) : Prop :=
  exists d, rerank_feature_values hyp = Some d /\ od_keys d = ks.

(** The keys of the cache that [initialize_rerank_features] builds, in their
    order: the batched features as the third loop inserts them, then the
    other features as the fourth loop does. *)
Definition cache_keys (self : Reranker) : list string :=
  fold_left (fun ks kv => if is_batched (snd kv) then ks else key_add (fst kv) ks)
    (feat_map self)
    (fold_left (fun ks kv => key_add (fst kv) ks) (batched_features self) []).

(** What [is_valid_hyp] decides, as a test on the code alone. *)
Definition valid_code (self : Reranker) (c : string) : bool :=
  match tokenize_code (transition_system self) c with
  | Raise _ => false
  | Ok _ => negb (String.eqb c "")
  end.

(** The entry of a feature in [feat_map] and [batched_features]. *)
Definition feature_entry (feat : RerankingFeature) : string * RerankingFeature :=
  (feature_name feat, feat).

Definition is_scalar (feat : RerankingFeature) : bool := negb (is_batched feat).

(** The cached feature values of a hypothesis taken in registration order,
    the order of [self.features]. *)
Definition registration_order_values (self : Reranker) (hyp : Hyp) : list Q :=
  map (fun feat =>
         match rerank_feature_values hyp with
         | Some d => match od_get (feature_name feat) d with
                     | Some v => v
                     | None => 0
                     end
         | None => 0
         end) (features self).

(** The reranker object holds the features [feats] each under its own name. *)
Definition registered (feats : list RerankingFeature) (self : Reranker) : Prop :=
  features self = feats
  /\ feat_map self = map feature_entry feats
  /\ batched_features self = map feature_entry (filter is_batched feats).

(** What a hypothesis is apart from its cache. *)
Definition core (hyp : Hyp) : string * Q * bool * option nat :=
  (code hyp, score hyp, is_correct hyp, code_token_count hyp).

(** The cached value of the feature [k], if any. *)
Definition cached (k : string) (hyp : Hyp) : option Q :=
  match rerank_feature_values hyp with
  | Some d => od_get k d
  | None => None
  end.

(** What a feature can see of a hypothesis when, of the cache, it reads only
    the keys [K]. *)
Definition view (K : list string) (hyp : Hyp)
    : (string * Q * bool * option nat) * bool * list (option Q) :=
  (core hyp, hasattr_rerank_feature_values hyp, map (fun k => cached k hyp) K).

(** The value of the feature depends on the hypotheses through [view K]
    only. *)
Definition reads_only (K : list string) (feat : RerankingFeature) : Prop :=
  forall example hyp hyp' hyp_id all_hyps all_hyps',
    view K hyp = view K hyp' ->
    map (view K) all_hyps = map (view K) all_hyps' ->
    get_feat_value feat example hyp hyp_id all_hyps
    = get_feat_value feat example hyp' hyp_id all_hyps'.

(** The names under which the fourth loop of the initialization writes. *)
Definition scalar_keys (feats : OrderedDict RerankingFeature) : list string :=
  map fst (filter (fun kv => negb (is_batched (snd kv))) feats).

(** The token count is that of the code. *)
Definition token_counted (self : Reranker) (hyp : Hyp) : Prop :=
  exists tokens,
    tokenize_code (transition_system self) (code hyp) = Ok tokens
    /\ code_token_count hyp = Some (length tokens).

(** The class builds the feature [feat] when [load] asks it to, for a file
    at [path]. *)
Definition builds (feat_cls : FeatureClass) (path : string) (cuda : bool)
    (feat : RerankingFeature) : Prop :=
  match feat_cls with
  | PlainFeatureClass new => new = Ok feat
  | SavableFeatureClass load_from => load_from path cuda = Ok feat
  end.

(** Every class of the registry builds features that carry the name under
    which the class is registered. *)
Definition name_consistent (registry : OrderedDict FeatureClass) : Prop :=
  forall name feat_cls path cuda feat,
    od_get name registry = Some feat_cls ->
    builds feat_cls path cuda feat ->
    feature_name feat = name.

(** The list [param_space] that [train_multiprocess] builds. *)
Abbreviation param_space_of self :=
  (combinations (np_arange_hundredths 100) (feature_num self)).


(** * Properties *)

(** ** Order on scores *)

Lemma Qltb_lt (a b : Q) : Qltb a b = true <-> a < b.
Proof.
  unfold Qltb. rewrite negb_true_iff. split; intro H.
  - apply Qnot_le_lt. intro Hle. apply Qle_bool_iff in Hle. congruence.
  - destruct (Qle_bool b a) eqn:E; [|reflexivity].
    apply Qle_bool_iff in E. exfalso. exact (Qlt_not_le _ _ H E).
Qed.

Lemma Qltb_ge (a b : Q) : Qltb a b = false <-> b <= a.
Proof.
  unfold Qltb. rewrite negb_false_iff. apply Qle_bool_iff.
Qed.

(** ** GridSearchReranker.train *)

Lemma x_not_in_train_scope : lookup_name names_in_train_scope "x" = Raise (NameError "x").
Proof. reflexivity. Qed.

Lemma combinations_nonempty {A} (l : list A) (r : nat) :
  (r <= length l)%nat -> combinations l r <> [].
Proof.
  revert r. induction l as [|a l IH]; intros r Hr.
  - simpl in Hr. assert (r = 0%nat) by lia. subst. discriminate.
  - destruct r as [|r]; [discriminate|].
    simpl in *. intro H. apply app_eq_nil in H. destruct H as [H _].
    apply map_eq_nil in H. revert H. apply IH. lia.
Qed.

Lemma len_x_for_e_in_exhausts {A} (scope : list string) (param_space : list A) :
  forall n m rest, len_x_for_e_in scope param_space n = (Ok m, rest) -> rest = [].
Proof.
  induction param_space as [|e t IH]; simpl; intros n m rest H.
  - congruence.
  - destruct (lookup_name scope "x"); [eauto|discriminate].
Qed.

(** Whatever names are in scope, and whatever the grid: when [train] returns
    it has evaluated no parameter vector, the store is as it was, and
    [self.parameter] is the zero vector. *)
Lemma train_on_returns_zeros (scope : list string) (values : list Q) (self : Reranker)
    (examples : list Example) (evaluator : Evaluator) (initial_performance : Q)
    (decode_results decode_results' : Store) (p : list Q) :
  train_on scope values self examples evaluator initial_performance decode_results
    = (Ok p, decode_results') ->
  p = np_zeros (feature_num self) /\ decode_results' = decode_results.
Proof.
  unfold train_on.
  destruct (len_x_for_e_in scope (combinations values (feature_num self)) 0)
    as [[m|err] rest] eqn:E.
  - apply len_x_for_e_in_exhausts in E. subst rest.
    simpl. unfold mbind, mret. simpl. intro H. inversion H. auto.
  - unfold mraise. discriminate.
Qed.

(** With at least as many grid values as features, [train] raises NameError
    before it evaluates anything. *)
Lemma train_on_raises (values : list Q) (self : Reranker)
    (examples : list Example) (evaluator : Evaluator) (initial_performance : Q)
    (decode_results : Store) :
  (feature_num self <= length values)%nat ->
  train_on names_in_train_scope values self examples evaluator initial_performance
    decode_results = (Raise (NameError "x"), decode_results).
Proof.
  intro Hn. unfold train_on.
  pose proof (combinations_nonempty values Hn) as Hne.
  destruct (combinations values (feature_num self)) as [|p ps]; [congruence|].
  reflexivity.
Qed.

Lemma feature_num_new_reranker (c : RerankerClass) (feats : list RerankingFeature)
    (param : option (list Q)) (ts : TransitionSystem) :
  feature_num (new_reranker c feats param ts) = length feats.
Proof.
  unfold new_reranker, feature_num.
  set (self0 := {| cls := c; features := []; transition_system := ts;
                   feat_map := []; batched_features := []; parameter := [] |}).
  assert (G : forall fs self, features (fold_left _add_feature fs self) = features self ++ fs).
  { induction fs as [|f fs IH]; intro self; simpl.
    - now rewrite app_nil_r.
    - rewrite IH. simpl. now rewrite <- app_assoc. }
  destruct param; simpl; rewrite G; reflexivity.
Qed.

(** C1, on one feature: for every feature, dataset, evaluator and initial
    performance, [train] raises NameError at [len([x for e in param_space])],
    on the grid of the source as on the values 0, 1 and 2 of the small case.
    No parameter vector is evaluated and [self.parameter] is not assigned, so
    the result is not the parameter [1.0]. *)
Theorem train_small_case_raises_NameError :
  forall (feat : RerankingFeature) (ts : TransitionSystem) (examples : list Example)
         (evaluator : Evaluator) (initial_performance : Q) (decode_results : Store),
    train_on names_in_train_scope [0; 1; 2]
      (new_reranker GridSearchReranker [feat] None ts)
      examples evaluator initial_performance decode_results
    = (Raise (NameError "x"), decode_results)
    /\ train (new_reranker GridSearchReranker [feat] None ts)
         examples evaluator initial_performance decode_results
       = (Raise (NameError "x"), decode_results).
Proof.
  intros. split.
  - apply train_on_raises. rewrite feature_num_new_reranker. simpl. lia.
  - unfold train. apply train_on_raises. rewrite feature_num_new_reranker.
    unfold np_arange_hundredths. rewrite length_map, length_seq. simpl. lia.
Qed.

(** The same on the grid of the source, for up to 301 features. *)
Lemma train_raises_NameError (self : Reranker) (examples : list Example)
    (evaluator : Evaluator) (initial_performance : Q) (decode_results : Store) :
  (feature_num self <= 301)%nat ->
  train self examples evaluator initial_performance decode_results
    = (Raise (NameError "x"), decode_results).
Proof.
  intro H. unfold train. apply train_on_raises.
  unfold np_arange_hundredths. rewrite length_map, length_seq. exact H.
Qed.

(** ** GridSearchReranker.train_multiprocess: the coordinator's merge *)

(** C8, at a failing input. A worker whose segment never beats 0 returns
    [(None, 0.)]. When that result arrives while the best score is still 0,
    the coordinator evaluates [_norm(None)] and raises TypeError instead of
    keeping the best pair; when it arrives after a better result it is
    skipped. So the outcome depends on the arrival order. The last two parts
    run [train_multiprocess] on a dataset where the wrong hypothesis wins for
    every weight up to 0.5: with the results delivered in the order of the
    segments the first one, [(None, 0.)], ends the run; with the segment of
    0.52 delivered first the run returns the weight 0.51. *)
Theorem merge_raises_TypeError_on_None_result :
  merge_results [Ok (None, 0); Ok (Some [1 # 2], 4 # 5)] (Some (np_zeros 1)) 0
    = Raise TypeError
  /\ merge_results [Ok (Some [1 # 2], 4 # 5); Ok (None, 0)] (Some (np_zeros 1)) 0
    = Ok (Some [1 # 2], 4 # 5)
  /\ _rank_segment_worker sample_reranker [sample_example] sample_evaluator
       sample_initialized_results [[0]; [1 # 100]]
     = Ok (None, 0)
  /\ fst (train_multiprocess sample_reranker [sample_example] sample_evaluator 0 8
            (seq 0 50) sample_valid_results)
     = Raise TypeError
  /\ fst (train_multiprocess sample_reranker [sample_example] sample_evaluator 0 8
            (26%nat :: seq 0 26 ++ seq 27 23) sample_valid_results)
     = Ok (Some [51 # 100]).
Proof.
  repeat split; vm_compute; reflexivity.
Qed.

Lemma dominates_refl (ps : list Q * Q) : dominates ps ps.
Proof. right. split; [reflexivity | apply Qle_refl]. Qed.

Lemma dominates_trans (a b c : list Q * Q) :
  dominates a b -> dominates b c -> dominates a c.
Proof.
  unfold dominates. intros [H1|[H1 H1']] [H2|[H2 H2']].
  - left. lra.
  - left. lra.
  - left. lra.
  - right. split; lra.
Qed.

Lemma improves_vectors (q b : list Q) (t s : Q) :
  improves (Some q) t (Some b) s
  = Ok (Qltb s t || (Qeq_bool t s && Qltb (sq_norm q) (sq_norm b)))%bool.
Proof.
  unfold improves. destruct (Qltb s t); [reflexivity|].
  destruct (Qeq_bool t s); reflexivity.
Qed.

(** When every worker returns a parameter vector, the merge returns one of
    the pairs it was given (the initial one included) that is at least as
    good as all of them. *)
Lemma merge_results_vectors (results : list (list Q * Q)) :
  forall best : list Q * Q,
  exists ps,
    merge_results (map vector_result results) (Some (fst best)) (snd best)
      = Ok (Some (fst ps), snd ps)
    /\ In ps (best :: results)
    /\ Forall (dominates ps) (best :: results).
Proof.
  induction results as [|[q t] results IH]; intros best.
  - exists best. simpl. repeat split; auto.
    constructor; [apply dominates_refl | constructor].
  - assert (Hkeep : dominates best (q, t) ->
              exists ps, merge_results (map vector_result results) (Some (fst best)) (snd best)
                  = Ok (Some (fst ps), snd ps)
                /\ In ps (best :: (q, t) :: results)
                /\ Forall (dominates ps) (best :: (q, t) :: results)).
    { intro Hd. destruct (IH best) as (ps & E & Hin & Hall).
      exists ps. split; [exact E|]. split.
      - destruct Hin as [->|Hin]; [left; reflexivity | right; right; exact Hin].
      - inversion Hall as [|? ? Hb Hr]; subst.
        constructor; [exact Hb|]. constructor; [|exact Hr].
        eapply dominates_trans; eassumption. }
    assert (Htake : dominates (q, t) best ->
              exists ps, merge_results (map vector_result results) (Some q) t
                  = Ok (Some (fst ps), snd ps)
                /\ In ps (best :: (q, t) :: results)
                /\ Forall (dominates ps) (best :: (q, t) :: results)).
    { intro Hd. destruct (IH (q, t)) as (ps & E & Hin & Hall).
      exists ps. split; [exact E|]. split.
      - right. exact Hin.
      - inversion Hall as [|? ? Hb Hr]; subst.
        constructor; [|constructor; assumption].
        eapply dominates_trans; eassumption. }
    cbn [map merge_results vector_result rbind fst snd].
    rewrite improves_vectors. cbn [rbind].
    destruct (Qltb (snd best) t) eqn:E1; cbn [orb].
    + apply Htake. left. apply Qltb_lt in E1. exact E1.
    + apply Qltb_ge in E1.
      destruct (Qeq_bool t (snd best)) eqn:E2; cbn [andb].
      * apply Qeq_bool_iff in E2.
        destruct (Qltb (sq_norm q) (sq_norm (fst best))) eqn:E3.
        -- apply Htake. right. apply Qltb_lt in E3. cbn [fst snd].
           split; [symmetry; exact E2 | lra].
        -- apply Hkeep. right. apply Qltb_ge in E3. cbn [fst snd].
           split; [exact E2 | exact E3].
      * apply Hkeep. left. cbn [fst snd].
        destruct (Qlt_le_dec t (snd best)) as [Hlt|Hge]; [exact Hlt|].
        exfalso. assert (Heq : t == snd best) by lra.
        apply Qeq_bool_iff in Heq. congruence.
Qed.

(** The two results of the specification's example, in both arrival orders. *)
Lemma merge_results_tie_prefers_smaller_norm :
  merge_results [Ok (Some [1 # 2], 4 # 5); Ok (Some [1 # 5], 4 # 5)] (Some (np_zeros 1)) 0
    = Ok (Some [1 # 5], 4 # 5)
  /\ merge_results [Ok (Some [1 # 5], 4 # 5); Ok (Some [1 # 2], 4 # 5)] (Some (np_zeros 1)) 0
    = Ok (Some [1 # 5], 4 # 5).
Proof. split; reflexivity. Qed.

(** ** Reranker.compute_rerank_performance: empty hypothesis lists *)

(** C6, at a failing input: with an empty hypothesis list in first position,
    [decode_results[0][0]] raises IndexError before anything is filtered or
    reranked, whatever follows in the dataset. Such a list also arises from
    the method itself: the first call on a dataset whose first example has
    only an empty-code hypothesis returns, and leaves the list empty, so the
    second call raises. *)
Theorem compute_rerank_performance_raises_on_empty_first :
  (forall (self : Reranker) (examples : list Example) (evaluator : Evaluator)
          (param : option (list Q)) (fast_mode : bool) (rest : Store),
      compute_rerank_performance self examples evaluator param fast_mode ([] :: rest)
      = (Raise IndexError, [] :: rest))
  /\ (let first_call :=
        compute_rerank_performance sample_reranker [sample_example] sample_evaluator
          None true [[new_hyp "" 0 false]] in
      first_call = (Ok 0, [[]])
      /\ compute_rerank_performance sample_reranker [sample_example] sample_evaluator
           None true (snd first_call) = (Raise IndexError, [[]])).
Proof.
  split; [reflexivity|]. split; vm_compute; reflexivity.
Qed.

(** The loop over the examples reranks an empty list to an empty list. *)
Lemma rerank_hyps_empty (self : Reranker) (param : list Q) (fast_mode : bool) :
  rerank_hyps self param fast_mode [] = Ok [].
Proof. reflexivity. Qed.

(** ** XGBoostReranker.get_feature_matrix *)

Lemma feature_rows_ok (n : nat) (hyps : list Hyp) :
  Forall (has_features n) hyps ->
  forall x y,
    feature_rows hyps x y = Ok (x ++ map feature_row hyps, y ++ map label_of hyps).
Proof.
  induction 1 as [|hyp hyps (d & Hd & _) _ IH]; intros x y; simpl.
  - now rewrite !app_nil_r.
  - unfold get_rerank_feature_values. rewrite Hd. simpl. rewrite IH.
    unfold feature_row, cached_values, label_of. rewrite Hd.
    now rewrite <- !app_assoc.
Qed.

Lemma feature_groups_ok (n : nat) (decode_results : list (list Hyp)) :
  Forall (Forall (has_features n)) decode_results ->
  forall x y group,
    feature_groups decode_results x y group
    = Ok (x ++ map feature_row (concat decode_results),
          y ++ map label_of (concat decode_results),
          group ++ map (@length Hyp) (filter nonempty decode_results)).
Proof.
  induction 1 as [|hyps rest Hh _ IH]; intros x y group; simpl.
  - now rewrite !app_nil_r.
  - destruct hyps as [|hyp hyps].
    + simpl. apply IH.
    + rewrite (feature_rows_ok Hh). cbn [rbind fst snd]. rewrite IH.
      cbn [nonempty filter map]. rewrite !map_app, <- !app_assoc. reflexivity.
Qed.

Lemma feature_row_length (n : nat) (hyp : Hyp) :
  has_features n hyp -> length (feature_row hyp) = S n.
Proof.
  intros (d & Hd & Hn). unfold feature_row, cached_values, od_values.
  rewrite Hd. simpl. now rewrite length_map, Hn.
Qed.

Lemma np_stack_uniform (n : nat) (x : list (list Q)) :
  x <> [] -> Forall (fun row => length row = n) x -> np_stack x = Ok x.
Proof.
  intros Hne Hall. destruct x as [|row t]; [congruence|].
  unfold np_stack. inversion Hall as [|? ? Hrow Ht]; subst.
  replace (forallb _ t) with true; [reflexivity|].
  symmetry. apply forallb_forall. intros row' Hin.
  apply Nat.eqb_eq. rewrite Forall_forall in Ht. now apply Ht.
Qed.

(** C9: on hypotheses that all carry a cache of the same number of feature
    values, and with at least one nonempty list, [get_feature_matrix] returns
    one row [score :: cached values] and one 0/1 label per hypothesis, in
    order, and the sizes of the nonempty lists as groups. For lists of sizes
    3, 0 and 2 that is 5 rows and the groups [3; 2]. *)
Theorem get_feature_matrix_rows_labels_groups :
  forall (n : nat) (decode_results : list (list Hyp)),
    Forall (Forall (has_features n)) decode_results ->
    (exists hyps, In hyps decode_results /\ hyps <> []) ->
    get_feature_matrix decode_results
    = Ok (map feature_row (concat decode_results),
          map label_of (concat decode_results),
          map (@length Hyp) (filter nonempty decode_results))
    /\ (map (@length Hyp) decode_results = [3; 0; 2]%nat ->
        exists x y, get_feature_matrix decode_results = Ok (x, y, [3; 2]%nat)
                    /\ length x = 5%nat /\ length y = 5%nat).
Proof.
  intros n decode_results Hall (hyps & Hin & Hne).
  assert (E : get_feature_matrix decode_results
              = Ok (map feature_row (concat decode_results),
                    map label_of (concat decode_results),
                    map (@length Hyp) (filter nonempty decode_results))).
  { unfold get_feature_matrix. rewrite (feature_groups_ok Hall). cbn [rbind fst snd app].
    rewrite (@np_stack_uniform (S n)); [reflexivity| |].
    - intro H. apply map_eq_nil in H.
      destruct hyps as [|hyp hyps]; [congruence|].
      assert (Hc : In hyp (concat decode_results)).
      { apply in_concat. exists (hyp :: hyps). split; [exact Hin | now left]. }
      rewrite H in Hc. exact Hc.
    - apply Forall_map. apply Forall_concat.
      eapply Forall_impl; [|exact Hall]. intros l Hl.
      eapply Forall_impl; [|exact Hl]. intros h. apply feature_row_length. }
  split; [exact E|].
  intro Hlen. rewrite E. eexists _, _. split; [|split].
  - f_equal. f_equal.
    destruct decode_results as [|l1 [|l2 [|l3 [|? ?]]]]; try discriminate.
    destruct l1; [discriminate|]. destruct l2; [|discriminate].
    destruct l3; [discriminate|]. simpl in *. congruence.
  - rewrite length_map, length_concat, Hlen. reflexivity.
  - rewrite length_map, length_concat, Hlen. reflexivity.
Qed.

Lemma get_feature_matrix_rows_labels_groups_witness :
  get_feature_matrix
    [[sample_cached_hyp; sample_cached_hyp; sample_cached_hyp]; [];
     [sample_cached_hyp; sample_cached_hyp]]
  = Ok (map feature_row (repeat sample_cached_hyp 5), [1; 1; 1; 1; 1]%Z, [3; 2]%nat).
Proof.
  assert (Hh : has_features 1 sample_cached_hyp)
    by (exists [("code_token_count", 3)]; split; reflexivity).
  refine (proj1 (@get_feature_matrix_rows_labels_groups 1
                   [[sample_cached_hyp; sample_cached_hyp; sample_cached_hyp]; [];
                    [sample_cached_hyp; sample_cached_hyp]] _ _)).
  - repeat constructor; exact Hh.
  - exists [sample_cached_hyp; sample_cached_hyp]. split; [simpl; auto | discriminate].
Defined.

(** ** XGBoostReranker.get_rerank_score *)

Lemma rerank_examples_ext (self : Reranker) (p1 p2 : list Q) (fast_mode : bool) :
  (forall hyp, get_rerank_score self hyp p1 = get_rerank_score self hyp p2) ->
  forall examples decode_results,
    rerank_examples self p1 fast_mode examples decode_results
    = rerank_examples self p2 fast_mode examples decode_results.
Proof.
  intros Hs. induction examples as [|e es IH]; intros [|hyps rest]; simpl; try reflexivity.
  rewrite IH. f_equal.
  unfold rerank_hyps. destruct hyps as [|hyp hyps]; [reflexivity|].
  f_equal. clear -Hs. generalize (hyp :: hyps) as l.
  induction l as [|h l IHl]; simpl; [reflexivity|]. now rewrite Hs, IHl.
Qed.

(** C10: for an XGBoost reranker the score of a hypothesis does not depend on
    [param]; on a hypothesis with a cache it is the first entry of the
    booster's prediction for the one-row matrix [[score :: cached values]];
    and [compute_rerank_performance] gives the same outcome and leaves the
    same store for any two [param] arguments, [None] included. *)
Theorem xgboost_score_independent_of_param :
  forall (self : Reranker) (ranker : XGBRanker),
    cls self = XGBoostReranker ranker ->
    (forall hyp p1 p2, get_rerank_score self hyp p1 = get_rerank_score self hyp p2)
    /\ (forall hyp d p, rerank_feature_values hyp = Some d ->
          get_rerank_score self hyp p
          = (y <- predict ranker [score hyp :: od_values d] ;; index y 0))
    /\ (forall examples evaluator (param1 param2 : option (list Q)) fast_mode decode_results,
          compute_rerank_performance self examples evaluator param1 fast_mode decode_results
          = compute_rerank_performance self examples evaluator param2 fast_mode decode_results).
Proof.
  intros self ranker Hcls.
  assert (H1 : forall hyp p1 p2, get_rerank_score self hyp p1 = get_rerank_score self hyp p2).
  { intros. unfold get_rerank_score. rewrite Hcls. reflexivity. }
  split; [exact H1|]. split.
  - intros hyp d p Hd. unfold get_rerank_score. rewrite Hcls.
    unfold XGBoostReranker_get_rerank_score, get_feature_matrix. simpl.
    unfold get_rerank_feature_values. rewrite Hd. reflexivity.
  - intros. unfold compute_rerank_performance, mbind.
    destruct (filter_hyps_and_initialize_features self examples decode_results)
      as [[[]|e] dr]; [|reflexivity].
    rewrite (@rerank_examples_ext self _
               (match param2 with None => parameter self | Some p => p end));
      [reflexivity|]. intro hyp. apply H1.
Qed.

Lemma xgboost_score_independent_of_param_witness :
  cls sample_xgb_reranker = XGBoostReranker sample_xgb_ranker
  /\ get_rerank_score sample_xgb_reranker sample_cached_hyp []
     = get_rerank_score sample_xgb_reranker sample_cached_hyp [1; 2; 3].
Proof.
  split; [reflexivity|].
  exact (proj1 (@xgboost_score_independent_of_param sample_xgb_reranker sample_xgb_ranker
                  eq_refl) sample_cached_hyp [] [1; 2; 3]).
Defined.

(** ** np.argmax and np.argsort *)

Lemma argmax_from_first (v : list Q) :
  forall (seen : list Q) (best_idx : nat) (best : Q),
    nth_error seen best_idx = Some best ->
    (forall j x, nth_error seen j = Some x -> x <= best) ->
    (forall j x, (j < best_idx)%nat -> nth_error seen j = Some x -> x < best) ->
    first_argmax (seen ++ v) (argmax_from v (length seen) best_idx best).
Proof.
  induction v as [|x v IH]; intros seen best_idx best Hb Hmax Hfirst.
  - simpl. rewrite app_nil_r. exists best. auto.
  - simpl. replace (seen ++ x :: v) with ((seen ++ [x]) ++ v) by now rewrite <- app_assoc.
    replace (S (length seen)) with (length (seen ++ [x]))
      by (rewrite length_app; simpl; lia).
    destruct (Qltb best x) eqn:E.
    + apply Qltb_lt in E. apply IH.
      * rewrite nth_error_app2 by lia. now rewrite Nat.sub_diag.
      * intros j y Hj. destruct (Nat.lt_ge_cases j (length seen)) as [Hlt|Hge].
        -- rewrite nth_error_app1 in Hj by exact Hlt. apply Hmax in Hj. lra.
        -- rewrite nth_error_app2 in Hj by exact Hge.
           destruct (j - length seen)%nat as [|[|?]]; simpl in Hj; try discriminate.
           inversion Hj. apply Qle_refl.
      * intros j y Hlt Hj. rewrite nth_error_app1 in Hj by exact Hlt.
        apply Hmax in Hj. lra.
    + apply Qltb_ge in E.
      assert (Hlen : (best_idx < length seen)%nat).
      { apply nth_error_Some. congruence. }
      apply IH.
      * rewrite nth_error_app1 by exact Hlen. exact Hb.
      * intros j y Hj. destruct (Nat.lt_ge_cases j (length seen)) as [Hlt|Hge].
        -- rewrite nth_error_app1 in Hj by exact Hlt. eauto.
        -- rewrite nth_error_app2 in Hj by exact Hge.
           destruct (j - length seen)%nat as [|[|?]]; simpl in Hj; try discriminate.
           inversion Hj. subst. exact E.
      * intros j y Hlt Hj. rewrite nth_error_app1 in Hj by lia. eauto.
Qed.

Lemma np_argmax_first (v : list Q) :
  v <> [] -> exists k, np_argmax v = Ok k /\ first_argmax v k.
Proof.
  destruct v as [|x v]; [congruence|]. intros _.
  exists (argmax_from v 1 0 x). split; [reflexivity|].
  apply (@argmax_from_first v [x] 0%nat x).
  - reflexivity.
  - intros [|[|j]] y Hj; simpl in Hj; try discriminate. inversion Hj. apply Qle_refl.
  - intros j y Hj. lia.
Qed.

Lemma first_argmax_unique (v : list Q) (k k' : nat) :
  first_argmax v k -> first_argmax v k' -> k = k'.
Proof.
  intros (m & Hk & Hmax & Hfirst) (m' & Hk' & Hmax' & Hfirst').
  destruct (Nat.lt_trichotomy k k') as [Hlt|[Heq|Hgt]]; [|exact Heq|].
  - specialize (Hfirst' _ _ Hlt Hk). specialize (Hmax _ _ Hk'). lra.
  - specialize (Hfirst _ _ Hgt Hk'). specialize (Hmax' _ _ Hk). lra.
Qed.

Lemma shift_left_perm (v : list Q) (vi : nat) (l : list nat) :
  Permutation (shift_left v vi l) (vi :: l).
Proof.
  induction l as [|k t IH]; simpl; [reflexivity|].
  destruct (Qltb (nth vi v 0) (nth k v 0)); [|reflexivity].
  rewrite IH. apply perm_swap.
Qed.

Lemma shift_left_sorted (v : list Q) (vi : nat) (l : list nat) :
  Forall (fun k => (k < vi)%nat) l ->
  StronglySorted (before_desc gt v) l ->
  StronglySorted (before_desc gt v) (shift_left v vi l).
Proof.
  intros Hlt Hs. induction Hs as [|k t Hs IH Hk]; simpl.
  - repeat constructor.
  - inversion Hlt as [|? ? Hk_lt Ht_lt]; subst.
    destruct (Qltb (nth vi v 0) (nth k v 0)) eqn:E.
    + apply Qltb_lt in E. constructor; [now apply IH|].
      eapply Permutation_Forall; [symmetry; apply shift_left_perm|].
      constructor; [left; exact E | exact Hk].
    + apply Qltb_ge in E. constructor; [constructor; assumption|].
      constructor.
      * destruct (Qlt_le_dec (nth k v 0) (nth vi v 0)) as [H|H]; [left; exact H|].
        right. split; [lra | exact Hk_lt].
      * rewrite Forall_forall in *. intros x Hx.
        specialize (Hk _ Hx). specialize (Ht_lt _ Hx). cbv beta in Ht_lt.
        unfold before_desc in *.
        destruct (Qlt_le_dec (nth x v 0) (nth vi v 0)) as [H|H]; [left; exact H|].
        right. split; [|exact Ht_lt]. destruct Hk as [Hk|[Hk _]]; lra.
Qed.

Lemma argsort_from_right_spec (v : list Q) (n : nat) :
  Permutation (argsort_from_right v n) (seq 0 n)
  /\ StronglySorted (before_desc gt v) (argsort_from_right v n).
Proof.
  unfold argsort_from_right. induction n as [|n [IHp IHs]].
  - simpl. split; constructor.
  - rewrite seq_S, fold_left_app. simpl. split.
    + rewrite shift_left_perm, IHp. apply Permutation_cons_append.
    + apply shift_left_sorted; [|exact IHs].
      eapply Permutation_Forall; [symmetry; exact IHp|].
      apply Forall_forall. intros k Hk. apply in_seq in Hk. lia.
Qed.

Lemma rev_np_argsort (v : list Q) :
  rev (np_argsort v) = argsort_from_right v (length v).
Proof. unfold np_argsort. apply rev_involutive. Qed.

(** ** Reranker.compute_rerank_performance: one example *)

Lemma mapM_length {A B} (f : A -> result B) (l : list A) :
  forall l', mapM f l = Ok l' -> length l' = length l.
Proof.
  induction l as [|a l IH]; simpl; intros l' H.
  - inversion H. reflexivity.
  - destruct (f a); [|discriminate]. simpl in H.
    destruct (mapM f l); [|discriminate]. simpl in H. inversion H.
    simpl. f_equal. now apply IH.
Qed.

Lemma mapM_nth_error {A B} (f : A -> result B) (l : list A) :
  forall l' i a, mapM f l = Ok l' -> nth_error l i = Some a ->
                 exists b, f a = Ok b /\ nth_error l' i = Some b.
Proof.
  induction l as [|a0 l IH]; simpl; intros l' i a H Hi.
  - destruct i; discriminate.
  - destruct (f a0) as [b0|] eqn:E0; [|discriminate]. simpl in H.
    destruct (mapM f l) as [bs|] eqn:E; [|discriminate]. simpl in H. inversion H; subst.
    destruct i as [|i]; simpl in *.
    + inversion Hi; subst. eauto.
    + eapply IH; eauto.
Qed.

Lemma mapM_total {A B} (f : A -> result B) (l : list A) :
  (forall a, In a l -> exists b, f a = Ok b) -> exists l', mapM f l = Ok l'.
Proof.
  induction l as [|a l IH]; intro H; simpl.
  - eauto.
  - destruct (H a (or_introl eq_refl)) as [b Hb]. rewrite Hb.
    destruct IH as [bs Hbs]; [intros; apply H; now right|].
    rewrite Hbs. simpl. eauto.
Qed.

Lemma mapM_index {A} (l : list A) (order : list nat) :
  Forall (fun i => (i < length l)%nat) order ->
  exists l', mapM (index l) order = Ok l' /\ map (nth_error l) order = map Some l'.
Proof.
  induction 1 as [|i order Hi _ (l' & E & Hmap)]; simpl.
  - exists []. auto.
  - unfold index at 1. destruct (nth_error l i) as [a|] eqn:Ea.
    + simpl. rewrite E. simpl. exists (a :: l'). simpl. now rewrite Hmap.
    + apply nth_error_None in Ea. lia.
Qed.

Lemma rerank_hyps_fast (self : Reranker) (param : list Q) (hyps : list Hyp)
    (scores : list Q) :
  hyps <> [] ->
  mapM (fun hyp => get_rerank_score self hyp param) hyps = Ok scores ->
  exists k best,
    first_argmax scores k /\ nth_error hyps k = Some best
    /\ rerank_hyps self param true hyps = Ok [best].
Proof.
  intros Hne Hs. pose proof (mapM_length _ _ Hs) as Hlen.
  destruct (@np_argmax_first scores) as (k & Hk & Hfirst).
  { destruct scores; [destruct hyps; [congruence | discriminate] | discriminate]. }
  assert (Hlt : (k < length hyps)%nat).
  { destruct Hfirst as (m & Hm & _). rewrite <- Hlen. apply nth_error_Some. congruence. }
  destruct (nth_error hyps k) as [best|] eqn:Eb; [|apply nth_error_None in Eb; lia].
  exists k, best. split; [exact Hfirst|]. split; [exact Eb|].
  unfold rerank_hyps. destruct hyps as [|h hyps]; [congruence|].
  rewrite Hs. cbn [rbind]. rewrite Hk. cbn [rbind]. unfold index. rewrite Eb. reflexivity.
Qed.

Lemma rerank_hyps_full (self : Reranker) (param : list Q) (hyps : list Hyp)
    (scores : list Q) :
  hyps <> [] ->
  mapM (fun hyp => get_rerank_score self hyp param) hyps = Ok scores ->
  exists sorted,
    rerank_hyps self param false hyps = Ok sorted
    /\ descending_ties_reversed scores hyps sorted.
Proof.
  intros Hne Hs. pose proof (mapM_length _ _ Hs) as Hlen.
  destruct (argsort_from_right_spec scores (length scores)) as [Hperm Hsorted].
  destruct (@mapM_index _ hyps (argsort_from_right scores (length scores)))
    as (sorted & E & Hmap).
  { eapply Permutation_Forall; [symmetry; exact Hperm|].
    apply Forall_forall. intros i Hi. apply in_seq in Hi. lia. }
  exists sorted. split.
  - destruct (@rerank_hyps_fast self param hyps scores Hne Hs) as (k & best & _ & Hb & _).
    destruct (@np_argmax_first scores) as (k' & Hk' & Hfirst').
    { destruct scores; [destruct hyps; [congruence | discriminate] | discriminate]. }
    assert (Hlt : (k' < length hyps)%nat).
    { destruct Hfirst' as (m & Hm & _). rewrite <- Hlen. apply nth_error_Some. congruence. }
    unfold rerank_hyps. destruct hyps as [|h hyps]; [congruence|].
    rewrite Hs. cbn [rbind]. rewrite Hk'. cbn [rbind]. unfold index at 1.
    destruct (nth_error (h :: hyps) k') eqn:Eb; [|apply nth_error_None in Eb; lia].
    cbn [rbind]. rewrite rev_np_argsort. exact E.
  - exists (argsort_from_right scores (length scores)). rewrite <- Hlen. auto.
Qed.

(** What an arrangement by descending scores gives, whatever the order among
    equal scores: the same hypotheses, with scores that never increase. *)
Lemma sorted_desc_perm_descending (tie : nat -> nat -> Prop) (self : Reranker)
    (param : list Q) (hyps sorted : list Hyp) (scores : list Q) :
  mapM (fun hyp => get_rerank_score self hyp param) hyps = Ok scores ->
  sorted_desc tie scores hyps sorted ->
  Permutation sorted hyps
  /\ exists sorted_scores,
       mapM (fun hyp => get_rerank_score self hyp param) sorted = Ok sorted_scores
       /\ StronglySorted (fun a b => b <= a) sorted_scores.
Proof.
  intros Hs (order & Hperm & Hmap & Hsorted). split.
  - assert (P : Permutation (map Some sorted) (map Some hyps)).
    { rewrite <- Hmap. rewrite (Permutation_map (nth_error hyps) Hperm).
      clear. induction hyps as [|h hyps IH]; simpl; [reflexivity|].
      rewrite <- seq_shift, map_map. simpl. now rewrite IH. }
    apply Permutation_map_inv in P. destruct P as (l3 & E & P).
    assert (sorted = l3).
    { clear -E. revert l3 E. induction sorted as [|a t IH]; intros [|b l3] E;
        simpl in E; try discriminate; [reflexivity|].
      inversion E. f_equal. now apply IH. }
    subst l3. symmetry. exact P.
  - exists (map (fun i => nth i scores 0) order). split.
    + clear Hperm Hsorted. revert sorted Hmap.
      induction order as [|i order IH]; intros [|h sorted] Hmap; simpl in Hmap;
        try discriminate; [reflexivity|].
      inversion Hmap as [[Hi Ht]]. simpl.
      destruct (mapM_nth_error _ _ _ Hs Hi) as (b & Hb & Hnb).
      rewrite Hb. simpl. rewrite (IH _ Ht). simpl.
      now rewrite (nth_error_nth _ _ _ Hnb).
    + clear -Hsorted. induction Hsorted as [|i order _ IH Hall]; simpl; constructor.
      * exact IH.
      * apply Forall_map. eapply Forall_impl; [|exact Hall].
        intros j [H|[H _]]; lra.
Qed.

(** ** Reranker.compute_rerank_performance: the dataset *)

Lemma In_firstn {A} (a : A) (n : nat) (l : list A) : In a (firstn n l) -> In a l.
Proof.
  revert l. induction n as [|n IH]; intros [|b l] H; simpl in *; try contradiction.
  destruct H as [H|H]; [now left | right; now apply IH].
Qed.

Lemma Forall2_impl_In {A B} (P P' : A -> B -> Prop) (l : list A) (l' : list B) :
  Forall2 P l l' -> (forall a b, In a l -> P a b -> P' a b) -> Forall2 P' l l'.
Proof.
  induction 1 as [|a b l l' Hab _ IH]; intro H; constructor.
  - apply H; [now left | exact Hab].
  - apply IH. intros a' b' Hin. apply H. now right.
Qed.

Lemma rerank_hyps_total (self : Reranker) (param : list Q) (fast_mode : bool)
    (hyps : list Hyp) :
  (forall hyp, In hyp hyps -> exists s, get_rerank_score self hyp param = Ok s) ->
  exists r, rerank_hyps self param fast_mode hyps = Ok r.
Proof.
  intro Hs. destruct hyps as [|h hyps]; [exists []; reflexivity|].
  destruct (mapM_total _ _ Hs) as [scores E].
  destruct fast_mode.
  - destruct (@rerank_hyps_fast self param (h :: hyps) scores) as (k & best & _ & _ & R);
      [discriminate | exact E | eauto].
  - destruct (@rerank_hyps_full self param (h :: hyps) scores) as (sorted & R & _);
      [discriminate | exact E | eauto].
Qed.

Lemma rerank_examples_total (self : Reranker) (param : list Q) (fast_mode : bool) :
  forall examples decode_results,
    (forall hyps hyp, In hyps decode_results -> In hyp hyps ->
                      exists s, get_rerank_score self hyp param = Ok s) ->
    exists results,
      rerank_examples self param fast_mode examples decode_results = Ok results
      /\ Forall2 (fun hyps r => rerank_hyps self param fast_mode hyps = Ok r)
           (firstn (length examples) decode_results) results.
Proof.
  induction examples as [|e es IH]; intros decode_results Hs.
  - exists []. split; [reflexivity | constructor].
  - destruct decode_results as [|hyps rest].
    + exists []. split; [reflexivity | constructor].
    + destruct (@rerank_hyps_total self param fast_mode hyps) as [r Hr].
      { intros hyp Hin. apply (Hs hyps); [now left | exact Hin]. }
      destruct (IH rest) as (rs & Hrs & Hall).
      { intros hyps' hyp Hin1 Hin2. apply (Hs hyps'); [now right | exact Hin2]. }
      exists (r :: rs). simpl. rewrite Hr. cbn [rbind]. rewrite Hrs. cbn [rbind].
      split; [reflexivity | constructor; assumption].
Qed.

Lemma compute_rerank_performance_returns (self : Reranker) (examples : list Example)
    (evaluator : Evaluator) (param : list Q) (fast_mode : bool)
    (decode_results decode_results' : Store) :
  filter_hyps_and_initialize_features self examples decode_results
    = (Ok tt, decode_results') ->
  (forall hyps hyp, In hyps decode_results' -> In hyp hyps ->
                    exists s, get_rerank_score self hyp param = Ok s) ->
  exists results,
    compute_rerank_performance self examples evaluator (Some param) fast_mode decode_results
    = (Ok (evaluate_dataset evaluator examples results fast_mode), decode_results')
    /\ Forall2 (fun hyps r => rerank_hyps self param fast_mode hyps = Ok r)
         (firstn (length examples) decode_results') results.
Proof.
  intros Hinit Hs.
  destruct (@rerank_examples_total self param fast_mode examples decode_results' Hs)
    as (results & E & Hall).
  exists results. split; [|exact Hall].
  unfold compute_rerank_performance, mbind. rewrite Hinit, E. reflexivity.
Qed.

(** Wherever the guarded initialization lets the call through, an example
    without hypotheses contributes an empty list to what the evaluator gets. *)
Lemma empty_lists_contribute_empty (self : Reranker) (examples : list Example)
    (evaluator : Evaluator) (param : list Q) (fast_mode : bool)
    (decode_results decode_results' : Store) :
  filter_hyps_and_initialize_features self examples decode_results
    = (Ok tt, decode_results') ->
  (forall hyps hyp, In hyps decode_results' -> In hyp hyps ->
                    exists s, get_rerank_score self hyp param = Ok s) ->
  exists results,
    compute_rerank_performance self examples evaluator (Some param) fast_mode decode_results
    = (Ok (evaluate_dataset evaluator examples results fast_mode), decode_results')
    /\ Forall2 (fun hyps r => hyps = [] -> r = [])
         (firstn (length examples) decode_results') results.
Proof.
  intros Hinit Hs.
  destruct (@compute_rerank_performance_returns self examples evaluator param fast_mode
              decode_results decode_results' Hinit Hs) as (results & E & Hall).
  exists results. split; [exact E|].
  eapply Forall2_impl_In; [exact Hall|].
  intros hyps r _ Hr ->. simpl in Hr. congruence.
Qed.

(** C2: when filtering and initialization return and every surviving
    hypothesis can be scored with [param], [compute_rerank_performance] in
    fast mode returns the evaluator's metric on a list that holds, for each
    example with hypotheses, exactly one of them: the one at the first index
    of maximal score. That index is determined by the scores alone. *)
Theorem fast_mode_selects_first_argmax :
  forall (self : Reranker) (examples : list Example) (evaluator : Evaluator)
         (param : list Q) (decode_results decode_results' : Store),
    filter_hyps_and_initialize_features self examples decode_results
      = (Ok tt, decode_results') ->
    (forall hyps hyp, In hyps decode_results' -> In hyp hyps ->
                      exists s, get_rerank_score self hyp param = Ok s) ->
    exists selected,
      compute_rerank_performance self examples evaluator (Some param) true decode_results
      = (Ok (evaluate_dataset evaluator examples selected true), decode_results')
      /\ Forall2
           (fun hyps sel =>
              hyps <> [] ->
              exists scores k best,
                mapM (fun hyp => get_rerank_score self hyp param) hyps = Ok scores
                /\ first_argmax scores k
                /\ (forall k', first_argmax scores k' -> k' = k)
                /\ nth_error hyps k = Some best
                /\ sel = [best])
           (firstn (length examples) decode_results') selected.
Proof.
  intros self examples evaluator param decode_results decode_results' Hinit Hs.
  destruct (@compute_rerank_performance_returns self examples evaluator param true
              decode_results decode_results' Hinit Hs) as (selected & E & Hall).
  exists selected. split; [exact E|].
  eapply Forall2_impl_In; [exact Hall|]. clear Hall E.
  intros hyps sel Hin Hr Hne. apply In_firstn in Hin.
  destruct (@mapM_total _ _ (fun hyp => get_rerank_score self hyp param) hyps)
    as [scores Hscores].
  { intros hyp Hh. apply (Hs hyps); [exact Hin | exact Hh]. }
  destruct (@rerank_hyps_fast self param hyps scores Hne Hscores)
    as (k & best & Hfirst & Hb & R).
  exists scores, k, best.
  split; [exact Hscores|]. split; [exact Hfirst|]. split; [|split; [exact Hb | congruence]].
  intros k' Hk'. eapply first_argmax_unique; eassumption.
Qed.

Lemma sample_initialization :
  filter_hyps_and_initialize_features sample_reranker [sample_example] sample_decode_results
  = (Ok tt, sample_initialized_results).
Proof. vm_compute. reflexivity. Qed.

Lemma sample_scores_ok (param : Q) :
  forall hyps hyp, In hyps sample_initialized_results -> In hyp hyps ->
                   exists s, get_rerank_score sample_reranker hyp [param] = Ok s.
Proof.
  intros hyps hyp [<-|[]] [<-|[<-|[]]]; eexists; reflexivity.
Qed.

Lemma fast_mode_selects_first_argmax_witness :
  exists selected,
    compute_rerank_performance sample_reranker [sample_example] sample_evaluator
      (Some sample_tie_param) true sample_decode_results
    = (Ok (evaluate_dataset sample_evaluator [sample_example] selected true),
       sample_initialized_results)
    /\ Forall2
         (fun hyps sel =>
            hyps <> [] ->
            exists scores k best,
              mapM (fun hyp => get_rerank_score sample_reranker hyp sample_tie_param) hyps
              = Ok scores
              /\ first_argmax scores k
              /\ (forall k', first_argmax scores k' -> k' = k)
              /\ nth_error hyps k = Some best
              /\ sel = [best])
         (firstn (length [sample_example]) sample_initialized_results) selected.
Proof.
  exact (@fast_mode_selects_first_argmax sample_reranker [sample_example] sample_evaluator
           sample_tie_param sample_decode_results sample_initialized_results
           sample_initialization (sample_scores_ok (1 # 2))).
Defined.

(** On the sample dataset, at the weight where the two hypotheses tie, fast
    mode keeps the first of them. *)
Lemma fast_mode_sample_tie :
  rerank_hyps sample_reranker sample_tie_param true
    (nth 0 sample_initialized_results [])
  = Ok (firstn 1 (nth 0 sample_initialized_results [])).
Proof. vm_compute. reflexivity. Qed.

(** C3, as amended: when filtering and initialization return and every
    surviving hypothesis can be scored with [param],
    [compute_rerank_performance] outside fast mode returns the evaluator's
    metric on a list that holds, for each example, a rearrangement of all its
    hypotheses whose scores never increase along the list. *)
Theorem full_mode_sorts_descending :
  forall (self : Reranker) (examples : list Example) (evaluator : Evaluator)
         (param : list Q) (decode_results decode_results' : Store),
    filter_hyps_and_initialize_features self examples decode_results
      = (Ok tt, decode_results') ->
    (forall hyps hyp, In hyps decode_results' -> In hyp hyps ->
                      exists s, get_rerank_score self hyp param = Ok s) ->
    exists reranked,
      compute_rerank_performance self examples evaluator (Some param) false decode_results
      = (Ok (evaluate_dataset evaluator examples reranked false), decode_results')
      /\ Forall2
           (fun hyps sorted =>
              Permutation sorted hyps
              /\ exists sorted_scores,
                   mapM (fun hyp => get_rerank_score self hyp param) sorted
                   = Ok sorted_scores
                   /\ StronglySorted (fun a b => b <= a) sorted_scores)
           (firstn (length examples) decode_results') reranked.
Proof.
  intros self examples evaluator param decode_results decode_results' Hinit Hs.
  destruct (@compute_rerank_performance_returns self examples evaluator param false
              decode_results decode_results' Hinit Hs) as (reranked & E & Hall).
  exists reranked. split; [exact E|].
  eapply Forall2_impl_In; [exact Hall|]. clear Hall E.
  intros hyps sorted Hin Hr. apply In_firstn in Hin.
  destruct hyps as [|h hyps].
  - inversion Hr; subst. split; [constructor|]. exists []. split; [reflexivity|constructor].
  - destruct (@mapM_total _ _ (fun hyp => get_rerank_score self hyp param) (h :: hyps))
      as [scores Hscores].
    { intros hyp Hh. apply (Hs (h :: hyps)); [exact Hin | exact Hh]. }
    destruct (@rerank_hyps_full self param (h :: hyps) scores) as (sorted' & R & Hd);
      [discriminate | exact Hscores |].
    assert (sorted' = sorted) by congruence. subst sorted'.
    eapply sorted_desc_perm_descending; eassumption.
Qed.

Lemma full_mode_sorts_descending_witness :
  exists reranked,
    compute_rerank_performance sample_reranker [sample_example] sample_evaluator
      (Some sample_tie_param) false sample_decode_results
    = (Ok (evaluate_dataset sample_evaluator [sample_example] reranked false),
       sample_initialized_results)
    /\ Forall2
         (fun hyps sorted =>
            Permutation sorted hyps
            /\ exists sorted_scores,
                 mapM (fun hyp => get_rerank_score sample_reranker hyp sample_tie_param) sorted
                 = Ok sorted_scores
                 /\ StronglySorted (fun a b => b <= a) sorted_scores)
         (firstn (length [sample_example]) sample_initialized_results) reranked.
Proof.
  exact (@full_mode_sorts_descending sample_reranker [sample_example] sample_evaluator
           sample_tie_param sample_decode_results sample_initialized_results
           sample_initialization (sample_scores_ok (1 # 2))).
Defined.

(** C3, as stated, fails on the sample dataset: at the weight where the two
    surviving hypotheses have the same score, the list comes out with the
    second one first, which no stable descending arrangement allows. *)
Lemma full_mode_not_stable :
  exists hyps scores sorted,
    nth_error sample_initialized_results 0 = Some hyps
    /\ mapM (fun hyp => get_rerank_score sample_reranker hyp sample_tie_param) hyps
       = Ok scores
    /\ rerank_hyps sample_reranker sample_tie_param false hyps = Ok sorted
    /\ sorted = rev hyps
    /\ ~ stable_descending scores hyps sorted.
Proof.
  eexists _, _, _. split; [reflexivity|]. split; [reflexivity|].
  split; [vm_compute; reflexivity|]. split; [reflexivity|].
  intros (order & Hperm & Hmap & Hsorted).
  destruct order as [|i [|j [|? ?]]]; try discriminate Hmap.
  simpl in Hmap. injection Hmap as Hi Hj.
  destruct i as [|[|i]]; simpl in Hi; try discriminate Hi;
    [|destruct i; discriminate Hi].
  destruct j as [|[|j]]; simpl in Hj; try discriminate Hj;
    [|destruct j; discriminate Hj].
  inversion Hsorted as [|? ? _ Hall]; subst. inversion Hall as [|? ? H _]; subst.
  destruct H as [H|[_ H]]; [|lia].
  vm_compute in H. discriminate H.
Qed.

(** ** The loops over the store *)

Lemma for_hyps_codes {St} (body : St -> list Hyp -> Hyp -> list Hyp -> result St * Hyp) :
  (forall acc before hyp after, code (snd (body acc before hyp after)) = code hyp) ->
  forall todo acc before,
    map code (snd (for_hyps body acc before todo)) = map code (before ++ todo).
Proof.
  intros Hbody. induction todo as [|hyp after IH]; intros acc before; simpl.
  - now rewrite app_nil_r.
  - specialize (Hbody acc before hyp after).
    destruct (body acc before hyp after) as [[acc'|e] hyp']; simpl in *.
    + rewrite IH, <- app_assoc, !map_app. simpl. now rewrite Hbody.
    + rewrite !map_app. simpl. now rewrite Hbody.
Qed.

Lemma for_examples_codes {St}
    (body : St -> Example -> list Hyp -> result St * list Hyp) :
  (forall acc example hyps, map code (snd (body acc example hyps)) = map code hyps) ->
  forall examples acc decode_results,
    map (map code) (snd (for_examples body acc examples decode_results))
    = map (map code) decode_results.
Proof.
  intros Hbody. induction examples as [|example es IH]; intros acc [|hyps rest];
    simpl; try reflexivity.
  specialize (Hbody acc example hyps).
  destruct (body acc example hyps) as [[acc'|e] hyps']; simpl in *.
  - specialize (IH acc' rest).
    destruct (for_examples body acc' es rest) as [r rest']. simpl in *.
    now rewrite Hbody, IH.
  - now rewrite Hbody.
Qed.

Lemma for_hyps_post {St} (P P' : Hyp -> Prop)
    (body : St -> list Hyp -> Hyp -> list Hyp -> result St * Hyp) :
  (forall acc before hyp after acc' hyp',
      P hyp -> body acc before hyp after = (Ok acc', hyp') -> P' hyp') ->
  forall todo acc before acc' hyps',
    Forall P' before -> Forall P todo ->
    for_hyps body acc before todo = (Ok acc', hyps') -> Forall P' hyps'.
Proof.
  intros Hbody. induction todo as [|hyp after IH]; intros acc before acc' hyps' Hb Ht H;
    simpl in H.
  - inversion H; subst. exact Hb.
  - inversion Ht as [|? ? Hhyp Hafter]; subst.
    destruct (body acc before hyp after) as [[acc1|e] hyp1] eqn:E; [|discriminate].
    eapply IH; [| exact Hafter | exact H].
    apply Forall_app. split; [exact Hb|]. constructor; [|constructor].
    eapply Hbody; eassumption.
Qed.

Lemma for_examples_post {St} (P P' : Hyp -> Prop)
    (body : St -> Example -> list Hyp -> result St * list Hyp) :
  (forall acc example hyps acc' hyps',
      Forall P hyps -> body acc example hyps = (Ok acc', hyps') -> Forall P' hyps') ->
  forall examples acc decode_results acc' decode_results',
    Forall (Forall P) (firstn (length examples) decode_results) ->
    for_examples body acc examples decode_results = (Ok acc', decode_results') ->
    Forall (Forall P') (firstn (length examples) decode_results').
Proof.
  intros Hbody. induction examples as [|example es IH];
    intros acc decode_results acc' decode_results' Hpre H.
  - constructor.
  - destruct decode_results as [|hyps rest]; simpl in H.
    + inversion H; subst. constructor.
    + simpl in Hpre. inversion Hpre as [|? ? Hhyps Hrest]; subst.
      destruct (body acc example hyps) as [[acc1|e] hyps1] eqn:E; [|discriminate].
      destruct (for_examples body acc1 es rest) as [r rest1] eqn:E1.
      inversion H; subst. simpl. constructor.
      * eapply Hbody; eassumption.
      * eapply IH; eassumption.
Qed.

(** ** Feature initialization: what it leaves in the store *)

Lemma od_keys_set {V} (k : string) (v : V) (d : OrderedDict V) :
  od_keys (od_set k v d) = key_add k (od_keys d).
Proof.
  induction d as [|[k' v'] d IH]; simpl; [reflexivity|].
  destruct (String.eqb k k'); simpl; [reflexivity|]. now rewrite IH.
Qed.

Lemma set_rerank_feature_code (feat_name : string) (v : Q) (hyp : Hyp) :
  code (snd (set_rerank_feature feat_name v hyp)) = code hyp.
Proof.
  unfold set_rerank_feature. destruct (rerank_feature_values hyp); reflexivity.
Qed.

Lemma set_rerank_feature_keys (feat_name : string) (v : Q) (hyp hyp' : Hyp)
    (ks : list string) :
  has_keys ks hyp ->
  set_rerank_feature feat_name v hyp = (Ok tt, hyp') ->
  has_keys (key_add feat_name ks) hyp'.
Proof.
  intros (d & Hd & Hk) H. unfold set_rerank_feature in H. rewrite Hd in H.
  inversion H; subst. exists (od_set feat_name v d). split; [reflexivity|].
  apply od_keys_set.
Qed.

Lemma init_hyp_code (self : Reranker) (example : Example) acc before hyp after :
  code (snd (init_hyp self example acc before hyp after)) = code hyp.
Proof.
  unfold init_hyp. destruct (tokenize_code _ _); reflexivity.
Qed.

Lemma init_hyp_keys (self : Reranker) (example : Example) acc before hyp after acc' hyp' :
  init_hyp self example acc before hyp after = (Ok acc', hyp') -> has_keys [] hyp'.
Proof.
  unfold init_hyp. destruct (tokenize_code _ _); [|discriminate].
  intro H. inversion H; subst. exists []. split; reflexivity.
Qed.

Lemma copy_batched_code (batched : OrderedDict RerankingFeature)
    (hyp_examples : list HypExample) (e_ptr : nat) :
  forall hyp, code (snd (copy_batched batched hyp_examples e_ptr hyp)) = code hyp.
Proof.
  induction batched as [|[feat_name feat] fs IH]; intro hyp; simpl; [reflexivity|].
  destruct (e <- index hyp_examples e_ptr ;; getattr_score e feat_name) as [v|x];
    [|reflexivity].
  pose proof (set_rerank_feature_code feat_name v hyp) as Hc.
  destruct (set_rerank_feature feat_name v hyp) as [[[]|x] hyp']; simpl in *.
  - now rewrite IH.
  - exact Hc.
Qed.

Lemma copy_batched_keys (batched : OrderedDict RerankingFeature)
    (hyp_examples : list HypExample) (e_ptr : nat) :
  forall hyp hyp' ks,
    has_keys ks hyp ->
    copy_batched batched hyp_examples e_ptr hyp = (Ok tt, hyp') ->
    has_keys (fold_left (fun ks kv => key_add (fst kv) ks) batched ks) hyp'.
Proof.
  induction batched as [|[feat_name feat] fs IH]; intros hyp hyp' ks Hk H; simpl in *.
  - inversion H; subst. exact Hk.
  - destruct (e <- index hyp_examples e_ptr ;; getattr_score e feat_name) as [v|x];
      [|discriminate].
    destruct (set_rerank_feature feat_name v hyp) as [[[]|x] hyp1] eqn:E; [|discriminate].
    eapply IH; [|exact H]. eapply set_rerank_feature_keys; eassumption.
Qed.

Lemma scalar_features_code (feats : OrderedDict RerankingFeature) (example : Example)
    (before after : list Hyp) :
  forall hyp, code (snd (scalar_features feats example before hyp after)) = code hyp.
Proof.
  induction feats as [|[feat_name feat] fs IH]; intro hyp; simpl; [reflexivity|].
  destruct (is_batched feat); [apply IH|].
  destruct (get_feat_value feat example hyp (length before) (before ++ hyp :: after))
    as [v|x]; [|reflexivity].
  pose proof (set_rerank_feature_code feat_name v hyp) as Hc.
  destruct (set_rerank_feature feat_name v hyp) as [[[]|x] hyp']; simpl in *.
  - now rewrite IH.
  - exact Hc.
Qed.

Lemma scalar_features_keys (feats : OrderedDict RerankingFeature) (example : Example)
    (before after : list Hyp) :
  forall hyp hyp' ks,
    has_keys ks hyp ->
    scalar_features feats example before hyp after = (Ok tt, hyp') ->
    has_keys (fold_left (fun ks kv => if is_batched (snd kv) then ks
                                      else key_add (fst kv) ks) feats ks) hyp'.
Proof.
  induction feats as [|[feat_name feat] fs IH]; intros hyp hyp' ks Hk H; simpl in *.
  - inversion H; subst. exact Hk.
  - destruct (is_batched feat); [eapply IH; eassumption|].
    destruct (get_feat_value feat example hyp (length before) (before ++ hyp :: after))
      as [v|x]; [|discriminate].
    destruct (set_rerank_feature feat_name v hyp) as [[[]|x] hyp1] eqn:E; [|discriminate].
    eapply IH; [|exact H]. eapply set_rerank_feature_keys; eassumption.
Qed.

Lemma init_hyps_code (self : Reranker) acc example hyps :
  map code (snd (init_hyps self acc example hyps)) = map code hyps.
Proof.
  unfold init_hyps. rewrite for_hyps_codes; [reflexivity|].
  intros. apply init_hyp_code.
Qed.

Lemma copy_batched_hyps_code (self : Reranker) hyp_examples e_ptr example hyps :
  map code (snd (copy_batched_hyps self hyp_examples e_ptr example hyps)) = map code hyps.
Proof.
  unfold copy_batched_hyps. rewrite for_hyps_codes; [reflexivity|].
  intros acc before hyp after. unfold copy_batched_hyp.
  pose proof (copy_batched_code (batched_features self) hyp_examples acc hyp) as Hc.
  destruct (copy_batched (batched_features self) hyp_examples acc hyp) as [[[]|x] hyp'];
    exact Hc.
Qed.

Lemma scalar_features_hyps_code (self : Reranker) u example hyps :
  map code (snd (scalar_features_hyps self u example hyps)) = map code hyps.
Proof.
  unfold scalar_features_hyps. rewrite for_hyps_codes; [reflexivity|].
  intros. apply scalar_features_code.
Qed.

(** Feature initialization removes and reorders nothing: the codes in the
    store are the same afterwards, whether it returns or raises. *)
Lemma initialize_rerank_features_codes (self : Reranker) (examples : list Example)
    (decode_results : Store) :
  map (map code) (snd (initialize_rerank_features self examples decode_results))
  = map (map code) decode_results.
Proof.
  unfold initialize_rerank_features, mbind, mlift.
  pose proof (for_examples_codes (init_hyps self) (init_hyps_code self)
                examples [] decode_results) as H1.
  destruct (for_examples (init_hyps self) [] examples decode_results)
    as [[hyp_examples|e] dr1]; simpl in H1; [|exact H1].
  destruct (mapM (score_batch_examples (batched_features self))
              (batch_iter hyp_examples 128)) as [batches|e]; [|exact H1].
  cbv beta.
  pose proof (for_examples_codes (copy_batched_hyps self (concat batches))
                (copy_batched_hyps_code self (concat batches)) examples 0%nat dr1) as H2.
  destruct (for_examples (copy_batched_hyps self (concat batches)) 0%nat examples dr1)
    as [[e_ptr|e] dr2]; simpl in H2; [|simpl; congruence].
  rewrite (for_examples_codes (scalar_features_hyps self)
             (scalar_features_hyps_code self)). congruence.
Qed.

(** When feature initialization returns, every hypothesis of the lists that
    [zip] reaches has a cache, with the keys in the order [cache_keys]. *)
Lemma initialize_rerank_features_keys (self : Reranker) (examples : list Example)
    (decode_results decode_results' : Store) :
  initialize_rerank_features self examples decode_results = (Ok tt, decode_results') ->
  Forall (Forall (has_keys (cache_keys self)))
    (firstn (length examples) decode_results').
Proof.
  unfold initialize_rerank_features, mbind, mlift. intro H.
  destruct (for_examples (init_hyps self) [] examples decode_results)
    as [[hyp_examples|e] dr1] eqn:E1; [|discriminate].
  destruct (mapM (score_batch_examples (batched_features self))
              (batch_iter hyp_examples 128)) as [batches|e]; [|discriminate].
  destruct (for_examples (copy_batched_hyps self (concat batches)) 0%nat examples dr1)
    as [[e_ptr|e] dr2] eqn:E3; [|discriminate].
  assert (H1 : Forall (Forall (has_keys [])) (firstn (length examples) dr1)).
  { eapply (for_examples_post (P := fun _ => True) (P' := has_keys [])); [| |exact E1].
    - intros acc example hyps acc' hyps' _ Hb. unfold init_hyps in Hb.
      eapply (for_hyps_post (P := fun _ => True) (P' := has_keys [])); [| | |exact Hb].
      + intros. eapply init_hyp_keys; eassumption.
      + constructor.
      + apply Forall_forall. trivial.
    - apply Forall_forall. intros l _. apply Forall_forall. trivial. }
  assert (H3 : Forall (Forall (has_keys
                 (fold_left (fun ks kv => key_add (fst kv) ks) (batched_features self) [])))
                 (firstn (length examples) dr2)).
  { eapply for_examples_post; [|exact H1|exact E3].
    intros acc example hyps acc' hyps' Hpre Hb. unfold copy_batched_hyps in Hb.
    eapply for_hyps_post; [| |exact Hpre|exact Hb]; [|constructor].
    intros a before hyp after a' hyp' Hk Hc. unfold copy_batched_hyp in Hc.
    destruct (copy_batched (batched_features self) (concat batches) a hyp)
      as [[[]|x] hyp1] eqn:Ec; [|discriminate].
    inversion Hc; subst. eapply copy_batched_keys; eassumption. }
  eapply for_examples_post; [|exact H3|exact H].
  intros acc example hyps acc' hyps' Hpre Hb. unfold scalar_features_hyps in Hb.
  eapply for_hyps_post; [| |exact Hpre|exact Hb]; [|constructor].
  intros a before hyp after a' hyp' Hk Hc. unfold scalar_features_hyp in Hc.
  destruct a'. eapply scalar_features_keys; eassumption.
Qed.

(** ** Filtering *)

Lemma is_valid_hyp_code (self : Reranker) (hyp : Hyp) :
  is_valid_hyp self hyp = valid_code self (code hyp).
Proof. reflexivity. Qed.

Lemma valid_code_iff (self : Reranker) (c : string) :
  valid_code self c = true
  <-> c <> "" /\ exists tokens, tokenize_code (transition_system self) c = Ok tokens.
Proof.
  unfold valid_code. destruct (tokenize_code (transition_system self) c) as [tokens|e].
  - rewrite negb_true_iff, String.eqb_neq. split.
    + intro H. split; [exact H | eauto].
    + tauto.
  - split; [discriminate | intros [_ [tokens H]]; discriminate].
Qed.

Lemma filter_hyps_codes (self : Reranker) (decode_results : Store) :
  map (map code) (_filter_hyps (is_valid_hyp self) decode_results)
  = map (filter (valid_code self)) (map (map code) decode_results).
Proof.
  unfold _filter_hyps. rewrite !map_map. apply map_ext. intro hyps.
  induction hyps as [|hyp hyps IH]; simpl; [reflexivity|].
  rewrite is_valid_hyp_code. destruct (valid_code self (code hyp)); simpl; now rewrite IH.
Qed.

Lemma filter_hyps_idempotent (is_valid : Hyp -> bool) (decode_results : Store) :
  _filter_hyps is_valid (_filter_hyps is_valid decode_results)
  = _filter_hyps is_valid decode_results.
Proof.
  unfold _filter_hyps. rewrite map_map. apply map_ext. intro hyps.
  induction hyps as [|hyp hyps IH]; simpl; [reflexivity|].
  destruct (is_valid hyp) eqn:E; simpl; [rewrite E|]; now rewrite ?IH.
Qed.

Lemma for_hyps_total {St} (P : Hyp -> Prop)
    (body : St -> list Hyp -> Hyp -> list Hyp -> result St * Hyp) :
  (forall acc before hyp after,
      P hyp -> exists acc' hyp', body acc before hyp after = (Ok acc', hyp')) ->
  forall todo acc before,
    Forall P todo -> exists acc' hyps', for_hyps body acc before todo = (Ok acc', hyps').
Proof.
  intros Hbody. induction todo as [|hyp after IH]; intros acc before Ht; simpl.
  - eauto.
  - inversion Ht as [|? ? Hhyp Hafter]; subst.
    destruct (Hbody acc before hyp after Hhyp) as (acc1 & hyp1 & E). rewrite E.
    now apply IH.
Qed.

Lemma for_examples_total {St} (P : Hyp -> Prop)
    (body : St -> Example -> list Hyp -> result St * list Hyp) :
  (forall acc example hyps,
      Forall P hyps -> exists acc' hyps', body acc example hyps = (Ok acc', hyps')) ->
  forall examples acc decode_results,
    Forall (Forall P) decode_results ->
    exists acc' decode_results',
      for_examples body acc examples decode_results = (Ok acc', decode_results').
Proof.
  intros Hbody. induction examples as [|example es IH]; intros acc [|hyps rest] Hd;
    simpl; eauto.
  inversion Hd as [|? ? Hhyps Hrest]; subst.
  destruct (Hbody acc example hyps Hhyps) as (acc1 & hyps1 & E). rewrite E.
  destruct (IH acc1 rest Hrest) as (acc2 & rest2 & E2). rewrite E2. eauto.
Qed.

Lemma filter_hyps_valid (self : Reranker) (decode_results : Store) :
  Forall (Forall (fun hyp => is_valid_hyp self hyp = true))
    (_filter_hyps (is_valid_hyp self) decode_results).
Proof.
  unfold _filter_hyps. apply Forall_map. apply Forall_forall. intros hyps _.
  apply Forall_forall. intros hyp Hin. apply filter_In in Hin. tauto.
Qed.

(** The tokenizer is called again by the first loop of the initialization,
    outside any [try]; on a filtered store it cannot raise there. *)
Lemma init_hyps_returns_on_valid (self : Reranker) (examples : list Example)
    (decode_results : Store) :
  exists hyp_examples decode_results',
    for_examples (init_hyps self) [] examples
      (_filter_hyps (is_valid_hyp self) decode_results)
    = (Ok hyp_examples, decode_results').
Proof.
  apply (for_examples_total (P := fun hyp => is_valid_hyp self hyp = true));
    [|apply filter_hyps_valid].
  intros acc example hyps Hv. unfold init_hyps.
  apply (for_hyps_total (P := fun hyp => is_valid_hyp self hyp = true)); [|exact Hv].
  intros a before hyp after Hh. unfold init_hyp. unfold is_valid_hyp in Hh.
  destruct (tokenize_code (transition_system self) (code hyp)); [eauto|discriminate].
Qed.

(** C5: called on a store whose first hypothesis has no cache yet,
    [filter_hyps_and_initialize_features] leaves in every list exactly the
    hypotheses whose code passes [valid_code], in their order, whether the
    initialization that follows returns or raises; a code passes if and only
    if it is not empty and the tokenizer returns on it; the tokenizer's
    errors do not escape: the loop that tokenizes the survivors again
    returns. Of the hypotheses ["x=1"; ""; "not valid python(("] the empty one
    is dropped and each other one is kept exactly if it tokenizes. *)
Theorem filtering_keeps_tokenizable_nonempty :
  forall (self : Reranker) (examples : list Example) (hyp0 : Hyp) (hyps : list Hyp)
         (rest : Store),
    rerank_feature_values hyp0 = None ->
    map (map code)
      (snd (filter_hyps_and_initialize_features self examples ((hyp0 :: hyps) :: rest)))
    = map (filter (valid_code self)) (map (map code) ((hyp0 :: hyps) :: rest))
    /\ (forall c, valid_code self c = true
                  <-> c <> "" /\ exists tokens,
                        tokenize_code (transition_system self) c = Ok tokens)
    /\ (exists hyp_examples decode_results',
          for_examples (init_hyps self) [] examples
            (_filter_hyps (is_valid_hyp self) ((hyp0 :: hyps) :: rest))
          = (Ok hyp_examples, decode_results'))
    /\ (map code (hyp0 :: hyps) = ["x=1"; ""; "not valid python(("] -> rest = [] ->
        map (map code)
          (snd (filter_hyps_and_initialize_features self examples ((hyp0 :: hyps) :: rest)))
        = [filter (valid_code self) ["x=1"; "not valid python(("]]).
Proof.
  intros self examples hyp0 hyps rest H0.
  assert (E : map (map code)
                (snd (filter_hyps_and_initialize_features self examples
                        ((hyp0 :: hyps) :: rest)))
              = map (filter (valid_code self)) (map (map code) ((hyp0 :: hyps) :: rest))).
  { unfold filter_hyps_and_initialize_features, hasattr_rerank_feature_values.
    rewrite H0. rewrite initialize_rerank_features_codes. apply filter_hyps_codes. }
  split; [exact E|]. split; [apply valid_code_iff|].
  split; [apply init_hyps_returns_on_valid|].
  intros Hc ->. rewrite E.
  change (map (map code) [hyp0 :: hyps]) with [map code (hyp0 :: hyps)]. rewrite Hc.
  assert (Hempty : valid_code self "" = false).
  { unfold valid_code. destruct (tokenize_code (transition_system self) ""); reflexivity. }
  cbn [map filter]. rewrite Hempty. reflexivity.
Qed.

Lemma filtering_keeps_tokenizable_nonempty_witness :
  rerank_feature_values (new_hyp "x=1" (-1 # 2) false) = None
  /\ map (map code)
       (snd (filter_hyps_and_initialize_features sample_reranker [sample_example]
               sample_unfiltered_results))
     = [["x=1"]].
Proof.
  split; [reflexivity|].
  destruct (@filtering_keeps_tokenizable_nonempty sample_reranker [sample_example]
              (new_hyp "x=1" (-1 # 2) false)
              [new_hyp "" 0 false; new_hyp "not valid python((" (-1 # 4) false] []
              eq_refl) as (_ & _ & _ & H).
  exact (H eq_refl eq_refl).
Defined.

(** ** Idempotence of the guarded initialization *)

Lemma initialize_rerank_features_no_examples (self : Reranker) (decode_results : Store) :
  initialize_rerank_features self [] decode_results = (Ok tt, decode_results).
Proof. reflexivity. Qed.

Lemma has_keys_hasattr (ks : list string) (hyp : Hyp) :
  has_keys ks hyp -> hasattr_rerank_feature_values hyp = true.
Proof.
  intros (d & Hd & _). unfold hasattr_rerank_feature_values. now rewrite Hd.
Qed.

(** After a call that returned, with at least one example, the first
    hypothesis of the first list (when there is one) has a cache. *)
Lemma first_hyp_initialized (self : Reranker) (examples : list Example)
    (decode_results : Store) (hyp0 : Hyp) (hyps : list Hyp) (rest : Store) :
  examples <> [] ->
  filter_hyps_and_initialize_features self examples decode_results
    = (Ok tt, (hyp0 :: hyps) :: rest) ->
  hasattr_rerank_feature_values hyp0 = true.
Proof.
  intros Hne H. unfold filter_hyps_and_initialize_features in H.
  destruct decode_results as [|[|h t] r]; try discriminate.
  destruct (hasattr_rerank_feature_values h) eqn:Eh.
  - inversion H; subst. exact Eh.
  - apply initialize_rerank_features_keys in H.
    destruct examples as [|e es]; [congruence|]. simpl in H.
    inversion H as [|? ? Hl _]; subst. inversion Hl as [|? ? Hh _]; subst.
    eapply has_keys_hasattr. exact Hh.
Qed.

(** Without examples nothing is initialized: the store stays as it is or is
    filtered. *)
Lemma filter_no_examples_store (self : Reranker) (decode_results : Store) :
  snd (filter_hyps_and_initialize_features self [] decode_results) = decode_results
  \/ snd (filter_hyps_and_initialize_features self [] decode_results)
     = _filter_hyps (is_valid_hyp self) decode_results.
Proof.
  unfold filter_hyps_and_initialize_features.
  destruct decode_results as [|[|h t] r]; try (left; reflexivity).
  destruct (hasattr_rerank_feature_values h); [left; reflexivity|].
  right. now rewrite initialize_rerank_features_no_examples.
Qed.

(** C7: after a call of [filter_hyps_and_initialize_features] that returned,
    a second call on the same examples and store leaves the store, and so
    every cache in it, as it is. With at least one example and a first
    hypothesis in the first list, that hypothesis has a cache and the second
    call is skipped as a whole: it returns at once. *)
Theorem filter_hyps_and_initialize_features_idempotent :
  forall (self : Reranker) (examples : list Example) (decode_results decode_results1 : Store),
    filter_hyps_and_initialize_features self examples decode_results
      = (Ok tt, decode_results1) ->
    snd (filter_hyps_and_initialize_features self examples decode_results1)
      = decode_results1
    /\ (examples <> [] ->
        forall hyp0 hyps rest,
          decode_results1 = (hyp0 :: hyps) :: rest ->
          hasattr_rerank_feature_values hyp0 = true
          /\ filter_hyps_and_initialize_features self examples decode_results1
             = (Ok tt, decode_results1)).
Proof.
  intros self examples decode_results decode_results1 H.
  assert (Hskip : examples <> [] ->
            forall hyp0 hyps rest,
              decode_results1 = (hyp0 :: hyps) :: rest ->
              hasattr_rerank_feature_values hyp0 = true
              /\ filter_hyps_and_initialize_features self examples decode_results1
                 = (Ok tt, decode_results1)).
  { intros Hne hyp0 hyps rest ->.
    pose proof (first_hyp_initialized _ _ Hne H) as Hh.
    split; [exact Hh|]. unfold filter_hyps_and_initialize_features. now rewrite Hh. }
  split; [|exact Hskip].
  destruct examples as [|e es].
  - destruct (filter_no_examples_store self decode_results1) as [E|E];
      [exact E|].
    destruct (filter_no_examples_store self decode_results) as [E0|E0];
      rewrite H in E0; cbn [snd] in E0.
    + destruct decode_results1 as [|[|hyp0 hyps] rest]; try reflexivity.
      unfold filter_hyps_and_initialize_features in *.
      destruct (hasattr_rerank_feature_values hyp0) eqn:Eh; [reflexivity|].
      subst decode_results. rewrite Eh in H.
      rewrite initialize_rerank_features_no_examples in *.
      exact (f_equal snd H).
    + rewrite E, E0. apply filter_hyps_idempotent.
  - destruct decode_results1 as [|[|hyp0 hyps] rest]; try reflexivity.
    destruct (Hskip ltac:(discriminate) hyp0 hyps rest eq_refl) as [_ E].
    now rewrite E.
Qed.

Lemma filter_hyps_and_initialize_features_idempotent_witness :
  filter_hyps_and_initialize_features sample_reranker [sample_example]
    sample_decode_results = (Ok tt, sample_initialized_results)
  /\ snd (filter_hyps_and_initialize_features sample_reranker [sample_example]
            sample_initialized_results)
     = sample_initialized_results.
Proof.
  split; [exact sample_initialization|].
  exact (proj1 (@filter_hyps_and_initialize_features_idempotent sample_reranker
                  [sample_example] sample_decode_results sample_initialized_results
                  sample_initialization)).
Defined.

(** ** The constructor and the order of the cache *)

Lemma key_add_fresh (k : string) (ks : list string) :
  ~ In k ks -> key_add k ks = ks ++ [k].
Proof.
  induction ks as [|k' ks IH]; intro H; simpl; [reflexivity|].
  destruct (String.eqb_spec k k') as [->|Hne].
  - exfalso. apply H. now left.
  - rewrite IH; [reflexivity|]. intro Hin. apply H. now right.
Qed.

Lemma od_set_fresh {V} (k : string) (v : V) (d : OrderedDict V) :
  ~ In k (od_keys d) -> od_set k v d = d ++ [(k, v)].
Proof.
  induction d as [|[k' v'] d IH]; intro H; simpl; [reflexivity|].
  destruct (String.eqb_spec k k') as [->|Hne].
  - exfalso. apply H. now left.
  - rewrite IH; [reflexivity|]. intro Hin. apply H. now right.
Qed.

Lemma fold_key_add_fresh (names : list string) :
  forall ks, NoDup (ks ++ names) ->
             fold_left (fun ks k => key_add k ks) names ks = ks ++ names.
Proof.
  induction names as [|k names IH]; intros ks H; simpl.
  - now rewrite app_nil_r.
  - rewrite key_add_fresh.
    + rewrite IH; rewrite <- app_assoc; [reflexivity | exact H].
    + apply NoDup_remove_2 in H. intro Hin. apply H. apply in_or_app. now left.
Qed.

Lemma filter_split_perm {A} (p : A -> bool) (l : list A) :
  Permutation (filter p l ++ filter (fun a => negb (p a)) l) l.
Proof.
  induction l as [|a l IH]; simpl; [reflexivity|].
  destruct (p a); simpl.
  - now constructor.
  - rewrite <- Permutation_middle. now constructor.
Qed.

Lemma od_keys_entries (feats : list RerankingFeature) :
  od_keys (map feature_entry feats) = map feature_name feats.
Proof. unfold od_keys. rewrite map_map. reflexivity. Qed.

Lemma add_feature_registered (feats : list RerankingFeature) (self : Reranker)
    (feat : RerankingFeature) :
  registered feats self ->
  ~ In (feature_name feat) (map feature_name feats) ->
  registered (feats ++ [feat]) (_add_feature self feat).
Proof.
  intros (Hf & Hm & Hb) Hfresh. unfold registered, _add_feature. simpl.
  rewrite Hf, Hm, Hb. split; [reflexivity|]. split.
  - rewrite od_set_fresh; [now rewrite map_app|].
    now rewrite od_keys_entries.
  - rewrite filter_app. simpl. destruct (is_batched feat).
    + rewrite od_set_fresh; [now rewrite map_app|].
      rewrite od_keys_entries. intro Hin. apply Hfresh.
      apply in_map_iff in Hin. destruct Hin as (f & Hn & Hin).
      apply in_map_iff. exists f. split; [exact Hn|].
      apply filter_In in Hin. tauto.
    + now rewrite app_nil_r.
Qed.

Lemma fold_add_feature_registered (fs : list RerankingFeature) :
  forall feats self,
    registered feats self ->
    NoDup (map feature_name (feats ++ fs)) ->
    registered (feats ++ fs) (fold_left _add_feature fs self)
    /\ cls (fold_left _add_feature fs self) = cls self.
Proof.
  induction fs as [|f fs IH]; intros feats self Hr Hnd; simpl.
  - rewrite app_nil_r. auto.
  - replace (feats ++ f :: fs) with ((feats ++ [f]) ++ fs) in * by now rewrite <- app_assoc.
    destruct (IH (feats ++ [f]) (_add_feature self f)) as [Hr' Hc].
    + apply add_feature_registered; [exact Hr|].
      rewrite !map_app in Hnd. simpl in Hnd. rewrite <- app_assoc in Hnd. simpl in Hnd.
      apply NoDup_remove_2 in Hnd. intro Hin. apply Hnd. apply in_or_app. now left.
    + exact Hnd.
    + split; [exact Hr' | exact Hc].
Qed.

Lemma new_reranker_registered (c : RerankerClass) (feats : list RerankingFeature)
    (param : option (list Q)) (ts : TransitionSystem) :
  NoDup (map feature_name feats) ->
  registered feats (new_reranker c feats param ts)
  /\ cls (new_reranker c feats param ts) = c.
Proof.
  intro Hnd. unfold new_reranker.
  set (self0 := {| cls := c; features := []; transition_system := ts;
                   feat_map := []; batched_features := []; parameter := [] |}).
  destruct (@fold_add_feature_registered feats [] self0) as [Hr Hc].
  - repeat split.
  - exact Hnd.
  - simpl in Hr. destruct param; (split; [exact Hr | exact Hc]).
Qed.

Lemma fold_scalar_keys (feats : list RerankingFeature) :
  forall ks,
    fold_left (fun ks kv => if is_batched (snd kv) then ks else key_add (fst kv) ks)
      (map feature_entry feats) ks
    = fold_left (fun ks k => key_add k ks) (map feature_name (filter is_scalar feats)) ks.
Proof.
  induction feats as [|f feats IH]; intro ks; simpl; [reflexivity|].
  unfold is_scalar at 1. destruct (is_batched f); simpl; apply IH.
Qed.

Lemma fold_entry_keys (feats : list RerankingFeature) :
  forall ks,
    fold_left (fun ks kv => key_add (fst kv) ks) (map feature_entry feats) ks
    = fold_left (fun ks k => key_add k ks) (map feature_name feats) ks.
Proof.
  induction feats as [|f feats IH]; intro ks; simpl; [reflexivity | apply IH].
Qed.

(** With distinct names the cache lists the batched features first, then the
    others, each group in registration order. *)
Lemma cache_keys_registered (feats : list RerankingFeature) (self : Reranker) :
  registered feats self ->
  NoDup (map feature_name feats) ->
  cache_keys self
  = map feature_name (filter is_batched feats) ++ map feature_name (filter is_scalar feats).
Proof.
  intros (_ & Hm & Hb) Hnd. unfold cache_keys. rewrite Hm, Hb.
  rewrite fold_scalar_keys, fold_entry_keys.
  assert (Hnd2 : NoDup (map feature_name (filter is_batched feats)
                        ++ map feature_name (filter is_scalar feats))).
  { rewrite <- map_app. eapply Permutation_NoDup; [|exact Hnd].
    symmetry. apply Permutation_map. apply filter_split_perm. }
  rewrite (fold_key_add_fresh _ []).
  - apply fold_key_add_fresh. exact Hnd2.
  - simpl. apply NoDup_app_remove_r in Hnd2. exact Hnd2.
Qed.

(** ** GridSearchReranker.get_rerank_score *)

Lemma grid_search_score_of_cache (self : Reranker) (hyp : Hyp) (d : OrderedDict Q)
    (param : list Q) :
  cls self = GridSearchReranker ->
  rerank_feature_values hyp = Some d ->
  length param = length d ->
  get_rerank_score self hyp param
  = Ok (score hyp
        + fold_left (fun acc pv => acc + fst pv * snd pv) (combine param (od_values d)) 0).
Proof.
  intros Hc Hd Hlen. unfold get_rerank_score. rewrite Hc.
  unfold GridSearchReranker_get_rerank_score, get_rerank_feature_values. rewrite Hd.
  cbn [rbind]. unfold np_dot, od_values. rewrite length_map, Hlen, Nat.eqb_refl.
  reflexivity.
Qed.

(** C4, as amended: for a grid search reranker built from features with
    distinct names, every hypothesis that feature initialization has reached
    carries a cache whose keys are the names of the batched features followed
    by the names of the other features, each group in registration order; and
    for every [param] with one weight per feature, [get_rerank_score] returns
    [hyp.score] plus the sum of the products of the weights with the cached
    values in that order of the cache. When no feature is batched this is the
    registration order. *)
Theorem grid_search_score_in_cache_order :
  forall (feats : list RerankingFeature) (param0 : option (list Q)) (ts : TransitionSystem)
         (examples : list Example) (decode_results decode_results' : Store),
    NoDup (map feature_name feats) ->
    initialize_rerank_features (new_reranker GridSearchReranker feats param0 ts)
      examples decode_results = (Ok tt, decode_results') ->
    Forall (Forall (fun hyp =>
      exists d,
        rerank_feature_values hyp = Some d
        /\ od_keys d = map feature_name (filter is_batched feats)
                       ++ map feature_name (filter is_scalar feats)
        /\ (forallb is_scalar feats = true -> od_keys d = map feature_name feats)
        /\ forall param,
             length param = length feats ->
             get_rerank_score (new_reranker GridSearchReranker feats param0 ts) hyp param
             = Ok (score hyp
                   + fold_left (fun acc pv => acc + fst pv * snd pv)
                       (combine param (od_values d)) 0)))
      (firstn (length examples) decode_results').
Proof.
  intros feats param0 ts examples decode_results decode_results' Hnd Hinit.
  destruct (@new_reranker_registered GridSearchReranker feats param0 ts Hnd) as [Hreg Hcls].
  pose proof (initialize_rerank_features_keys _ _ _ Hinit) as Hkeys.
  rewrite (cache_keys_registered Hreg Hnd) in Hkeys.
  eapply Forall_impl; [|exact Hkeys]. intros hyps Hh.
  eapply Forall_impl; [|exact Hh]. intros hyp (d & Hd & Hk).
  exists d. split; [exact Hd|]. split; [exact Hk|]. split.
  - intro Hall. rewrite Hk.
    assert (Hs : filter is_scalar feats = feats).
    { clear -Hall. induction feats as [|f feats IH]; simpl in *; [reflexivity|].
      apply andb_prop in Hall. destruct Hall as [Hf Hall]. rewrite Hf. f_equal. auto. }
    assert (Hb : filter is_batched feats = []).
    { clear -Hall. induction feats as [|f feats IH]; simpl in *; [reflexivity|].
      apply andb_prop in Hall. destruct Hall as [Hf Hall].
      unfold is_scalar in Hf. apply negb_true_iff in Hf. rewrite Hf. auto. }
    rewrite Hs, Hb. reflexivity.
  - intros param Hlen. apply grid_search_score_of_cache; [exact Hcls | exact Hd |].
    rewrite Hlen. transitivity (length (od_keys d)).
    + rewrite Hk, <- map_app, length_map. symmetry. apply Permutation_length.
      apply filter_split_perm.
    + unfold od_keys. apply length_map.
Qed.

Lemma sample_mixed_initialization :
  initialize_rerank_features sample_mixed_reranker [sample_example] sample_single_results
  = (Ok tt, sample_mixed_initialized).
Proof. vm_compute. reflexivity. Qed.

Lemma grid_search_score_in_cache_order_witness :
  NoDup (map feature_name [HypCodeTokensCount; sample_paraphrase_score])
  /\ Forall (Forall (fun hyp =>
       exists d,
         rerank_feature_values hyp = Some d
         /\ od_keys d = ["paraphrase_score"; "code_token_count"]
         /\ (false = true -> od_keys d = ["code_token_count"; "paraphrase_score"])
         /\ forall param,
              length param = 2%nat ->
              get_rerank_score sample_mixed_reranker hyp param
              = Ok (score hyp
                    + fold_left (fun acc pv => acc + fst pv * snd pv)
                        (combine param (od_values d)) 0)))
       sample_mixed_initialized.
Proof.
  assert (Hnd : NoDup (map feature_name [HypCodeTokensCount; sample_paraphrase_score])).
  { repeat constructor; simpl; intuition discriminate. }
  split; [exact Hnd|].
  exact (@grid_search_score_in_cache_order
           [HypCodeTokensCount; sample_paraphrase_score] None sample_transition_system
           [sample_example] sample_single_results sample_mixed_initialized
           Hnd sample_mixed_initialization).
Defined.

(** C4, as stated, fails when a batched feature is registered after one that
    is not: the cache lists the batched feature first, so the weights meet
    the cached values in another order than that of registration. With the
    weights [1; 0] the score is the parser score plus the paraphrase score 7,
    not plus the token count 3. *)
Lemma score_not_in_registration_order :
  exists hyp s dot,
    initialize_rerank_features sample_mixed_reranker [sample_example]
      sample_single_results = (Ok tt, [[hyp]])
    /\ map feature_name (features sample_mixed_reranker)
       = ["code_token_count"; "paraphrase_score"]
    /\ registration_order_values sample_mixed_reranker hyp = [3; 7]
    /\ get_rerank_score sample_mixed_reranker hyp [1; 0] = Ok s
    /\ np_dot [1; 0] (registration_order_values sample_mixed_reranker hyp) = Ok dot
    /\ ~ s == score hyp + dot.
Proof.
  eexists _, _, _. split; [vm_compute; reflexivity|].
  split; [reflexivity|]. split; [reflexivity|].
  split; [vm_compute; reflexivity|]. split; [vm_compute; reflexivity|].
  intro H. vm_compute in H. discriminate H.
Qed.

(** * Further properties of the module *)

(** ** The constructor: [feat_map], [batched_features] and [features] *)

Lemma key_add_In (k x : string) (ks : list string) :
  In x (key_add k ks) <-> x = k \/ In x ks.
Proof.
  induction ks as [|k' ks IH]; simpl.
  - intuition.
  - destruct (String.eqb_spec k k') as [->|Hne]; simpl.
    + intuition.
    + rewrite IH. intuition.
Qed.

Lemma key_add_NoDup (k : string) (ks : list string) :
  NoDup ks -> NoDup (key_add k ks).
Proof.
  induction 1 as [|k' ks Hk' Hnd IH]; simpl.
  - repeat constructor. intros [].
  - destruct (String.eqb_spec k k') as [->|Hne].
    + now constructor.
    + constructor; [|exact IH]. rewrite key_add_In. intros [->|H]; congruence.
Qed.

Lemma od_get_set_same {V} (k : string) (v : V) (d : OrderedDict V) :
  od_get k (od_set k v d) = Some v.
Proof.
  induction d as [|[k' v'] d IH]; simpl.
  - now rewrite String.eqb_refl.
  - destruct (String.eqb k k') eqn:E; simpl; rewrite E; [reflexivity | exact IH].
Qed.

Lemma od_get_set_other {V} (k k0 : string) (v : V) (d : OrderedDict V) :
  k0 <> k -> od_get k0 (od_set k v d) = od_get k0 d.
Proof.
  intro Hne. induction d as [|[k' v'] d IH]; simpl.
  - apply String.eqb_neq in Hne. now rewrite Hne.
  - destruct (String.eqb_spec k k') as [->|Hkk']; simpl.
    + apply String.eqb_neq in Hne. now rewrite Hne.
    + now rewrite IH.
Qed.

Lemma fold_add_feature_fields (fs : list RerankingFeature) :
  forall self,
    cls (fold_left _add_feature fs self) = cls self
    /\ features (fold_left _add_feature fs self) = features self ++ fs
    /\ feat_map (fold_left _add_feature fs self)
       = fold_left (fun m f => od_set (feature_name f) f m) fs (feat_map self)
    /\ batched_features (fold_left _add_feature fs self)
       = fold_left (fun m f => if is_batched f then od_set (feature_name f) f m else m)
           fs (batched_features self).
Proof.
  induction fs as [|f fs IH]; intro self; simpl.
  - now rewrite app_nil_r.
  - destruct (IH (_add_feature self f)) as (Hc & Hf & Hm & Hb).
    rewrite Hc, Hf, Hm, Hb. simpl. rewrite <- app_assoc. auto.
Qed.

Lemma new_reranker_fields (c : RerankerClass) (feats : list RerankingFeature)
    (param : option (list Q)) (ts : TransitionSystem) :
  cls (new_reranker c feats param ts) = c
  /\ features (new_reranker c feats param ts) = feats
  /\ transition_system (new_reranker c feats param ts) = ts
  /\ feat_map (new_reranker c feats param ts)
     = fold_left (fun m f => od_set (feature_name f) f m) feats []
  /\ batched_features (new_reranker c feats param ts)
     = fold_left (fun m f => if is_batched f then od_set (feature_name f) f m else m)
         feats []
  /\ parameter (new_reranker c feats param ts)
     = match param with
       | Some p => p
       | None => np_zeros (length feats)
       end.
Proof.
  unfold new_reranker.
  set (self0 := {| cls := c; features := []; transition_system := ts;
                   feat_map := []; batched_features := []; parameter := [] |}).
  destruct (fold_add_feature_fields feats self0) as (Hc & Hf & Hm & Hb).
  assert (Ht : forall fs self,
             transition_system (fold_left _add_feature fs self) = transition_system self).
  { induction fs as [|f fs IH]; intro self; simpl; [reflexivity | now rewrite IH]. }
  destruct param; simpl; rewrite ?Hc, ?Hf, ?Hm, ?Hb, ?Ht; unfold feature_num;
    rewrite ?Hf; simpl; auto 10.
Qed.

Lemma fold_od_set_keys (fs : list RerankingFeature) :
  forall m : OrderedDict RerankingFeature,
    NoDup (od_keys m) ->
    NoDup (od_keys (fold_left (fun m f => od_set (feature_name f) f m) fs m))
    /\ forall name,
         In name (od_keys (fold_left (fun m f => od_set (feature_name f) f m) fs m))
         <-> In name (od_keys m) \/ In name (map feature_name fs).
Proof.
  induction fs as [|f fs IH]; intros m Hnd; simpl.
  - split; [exact Hnd | intuition].
  - destruct (IH (od_set (feature_name f) f m)) as [H1 H2].
    { rewrite od_keys_set. now apply key_add_NoDup. }
    split; [exact H1|]. intro name. rewrite H2, od_keys_set, key_add_In. intuition.
Qed.

Lemma fold_batched_keys (fs : list RerankingFeature) :
  forall m : OrderedDict RerankingFeature,
    NoDup (od_keys m) ->
    NoDup (od_keys (fold_left (fun m f => if is_batched f
                                          then od_set (feature_name f) f m else m) fs m))
    /\ forall name,
         In name (od_keys (fold_left (fun m f => if is_batched f
                                                 then od_set (feature_name f) f m else m)
                             fs m))
         -> In name (od_keys m) \/ In name (map feature_name fs).
Proof.
  induction fs as [|f fs IH]; intros m Hnd; simpl.
  - split; [exact Hnd | intuition].
  - destruct (is_batched f).
    + destruct (IH (od_set (feature_name f) f m)) as [H1 H2].
      { rewrite od_keys_set. now apply key_add_NoDup. }
      split; [exact H1|]. intros name H. apply H2 in H.
      rewrite od_keys_set, key_add_In in H. intuition.
    + destruct (IH m Hnd) as [H1 H2]. split; [exact H1|].
      intros name H. apply H2 in H. intuition.
Qed.

(** X1: however the names of the features repeat, the reranker that the
    constructor builds has every name once in [feat_map], exactly the names
    of the features; [batched_features] has only names of [feat_map];
    [feature_num] counts the features as given, so [feat_map] has at most
    [feature_num] entries, and exactly as many if and only if the names are
    distinct; without a parameter the weights are [feature_num] zeros. *)
Theorem constructor_keeps_each_name_once :
  forall (c : RerankerClass) (feats : list RerankingFeature) (param : option (list Q))
         (ts : TransitionSystem),
    NoDup (od_keys (feat_map (new_reranker c feats param ts)))
    /\ (forall name, In name (od_keys (feat_map (new_reranker c feats param ts)))
                     <-> In name (map feature_name feats))
    /\ NoDup (od_keys (batched_features (new_reranker c feats param ts)))
    /\ (forall name, In name (od_keys (batched_features (new_reranker c feats param ts)))
                     -> In name (od_keys (feat_map (new_reranker c feats param ts))))
    /\ feature_num (new_reranker c feats param ts) = length feats
    /\ (length (feat_map (new_reranker c feats param ts)) <= length feats)%nat
    /\ (length (feat_map (new_reranker c feats param ts)) = length feats
        <-> NoDup (map feature_name feats))
    /\ parameter (new_reranker c feats None ts) = np_zeros (length feats).
Proof.
  intros c feats param ts.
  destruct (new_reranker_fields c feats param ts) as (_ & Hf & _ & Hm & Hb & _).
  destruct (@fold_od_set_keys feats [] (NoDup_nil _)) as [Hnd Hin].
  destruct (@fold_batched_keys feats [] (NoDup_nil _)) as [Hbnd Hbin].
  rewrite Hm, Hb. unfold feature_num. rewrite Hf.
  set (m := fold_left (fun m f => od_set (feature_name f) f m) feats []) in *.
  assert (Hkeys : forall name, In name (od_keys m) <-> In name (map feature_name feats)).
  { intro name. rewrite Hin. simpl. intuition. }
  assert (Hlen : length m = length (od_keys m)).
  { unfold od_keys. now rewrite length_map. }
  assert (Hle : (length m <= length feats)%nat).
  { rewrite Hlen, <- (length_map feature_name feats). apply NoDup_incl_length; [exact Hnd|].
    intros name H. now apply Hkeys. }
  split; [exact Hnd|]. split; [exact Hkeys|]. split; [exact Hbnd|]. split.
  { intros name H. apply Hbin in H. apply Hkeys. simpl in H. intuition. }
  split; [reflexivity|]. split; [exact Hle|]. split.
  - split.
    + intro E. apply (NoDup_incl_NoDup Hnd).
      * rewrite length_map, <- Hlen, E. apply Nat.le_refl.
      * intros name H. now apply Hkeys.
    + intro Hn. apply Nat.le_antisymm; [exact Hle|].
      rewrite Hlen, <- (length_map feature_name feats).
      apply NoDup_incl_length; [exact Hn|]. intros name H. now apply Hkeys.
  - now destruct (new_reranker_fields c feats None ts) as (_ & _ & _ & _ & _ & ->).
Qed.

Lemma od_get_fold_od_set (name : string) (fs : list RerankingFeature) :
  forall m : OrderedDict RerankingFeature,
    od_get name (fold_left (fun m f => od_set (feature_name f) f m) fs m)
    = match find (fun f => String.eqb name (feature_name f)) (rev fs) with
      | Some f => Some f
      | None => od_get name m
      end.
Proof.
  induction fs as [|f fs IH] using rev_ind; intro m; simpl; [reflexivity|].
  rewrite fold_left_app, rev_app_distr. simpl.
  destruct (String.eqb_spec name (feature_name f)) as [->|Hne].
  - apply od_get_set_same.
  - rewrite od_get_set_other by exact Hne. apply IH.
Qed.

(** X2: on a reranker built by the constructor, [__getattr__] gives for a
    name the last of the features passed under that name, and raises
    ValueError exactly when no feature has the name. *)
Theorem getattr_gives_last_registered :
  forall (c : RerankerClass) (feats : list RerankingFeature) (param : option (list Q))
         (ts : TransitionSystem) (item : string),
    Reranker___getattr__ (new_reranker c feats param ts) item
    = match find (fun f => String.eqb item (feature_name f)) (rev feats) with
      | Some feat => Ok feat
      | None => Raise ValueError
      end
    /\ (Reranker___getattr__ (new_reranker c feats param ts) item = Raise ValueError
        <-> ~ In item (map feature_name feats)).
Proof.
  intros c feats param ts item.
  destruct (new_reranker_fields c feats param ts) as (_ & _ & _ & Hm & _).
  assert (E : Reranker___getattr__ (new_reranker c feats param ts) item
              = match find (fun f => String.eqb item (feature_name f)) (rev feats) with
                | Some feat => Ok feat
                | None => Raise ValueError
                end).
  { unfold Reranker___getattr__. rewrite Hm, od_get_fold_od_set.
    destruct (find _ (rev feats)); reflexivity. }
  split; [exact E|]. rewrite E.
  destruct (find (fun f => String.eqb item (feature_name f)) (rev feats)) as [f|] eqn:Ef.
  - apply find_some in Ef. destruct Ef as [Hin Hn]. apply String.eqb_eq in Hn.
    split; [discriminate|]. intro H. exfalso. apply H. apply in_map_iff.
    exists f. split; [now symmetry | now apply in_rev].
  - split; [|reflexivity]. intros _ Hin. apply in_map_iff in Hin.
    destruct Hin as (f & Hn & Hin).
    pose proof (find_none _ _ Ef f (proj1 (in_rev _ _) Hin)) as H.
    simpl in H. rewrite <- Hn, String.eqb_refl in H. discriminate.
Qed.

(** ** Features registered under one name *)

Lemma fold_key_add_NoDup_incl {A} (name_of : A -> string) (l : list A) :
  forall ks,
    NoDup ks ->
    NoDup (fold_left (fun ks a => key_add (name_of a) ks) l ks)
    /\ incl (fold_left (fun ks a => key_add (name_of a) ks) l ks) (ks ++ map name_of l).
Proof.
  induction l as [|a l IH]; intros ks Hnd; simpl.
  - split; [exact Hnd|]. rewrite app_nil_r. apply incl_refl.
  - destruct (IH (key_add (name_of a) ks) (key_add_NoDup _ Hnd)) as [H1 H2].
    split; [exact H1|]. intros x Hx. apply H2 in Hx.
    apply in_app_or in Hx. apply in_or_app. destruct Hx as [Hx|Hx].
    + apply key_add_In in Hx. destruct Hx as [->|Hx]; [right; now left | now left].
    + right. now right.
Qed.

Lemma fold_scalar_key_add_NoDup_incl (feats : OrderedDict RerankingFeature) :
  forall ks,
    NoDup ks ->
    NoDup (fold_left (fun ks kv => if is_batched (snd kv) then ks
                                   else key_add (fst kv) ks) feats ks)
    /\ incl (fold_left (fun ks kv => if is_batched (snd kv) then ks
                                     else key_add (fst kv) ks) feats ks)
         (ks ++ od_keys feats).
Proof.
  induction feats as [|[k f] feats IH]; intros ks Hnd; simpl.
  - split; [exact Hnd|]. rewrite app_nil_r. apply incl_refl.
  - destruct (is_batched f).
    + destruct (IH ks Hnd) as [H1 H2]. split; [exact H1|].
      intros x Hx. apply H2 in Hx. apply in_app_or in Hx. apply in_or_app.
      destruct Hx; [now left | right; now right].
    + destruct (IH (key_add k ks) (key_add_NoDup _ Hnd)) as [H1 H2].
      split; [exact H1|]. intros x Hx. apply H2 in Hx.
      apply in_app_or in Hx. apply in_or_app. destruct Hx as [Hx|Hx].
      * apply key_add_In in Hx. destruct Hx as [->|Hx]; [right; now left | now left].
      * right. now right.
Qed.

(** The cache never lists a name twice, and lists only names of
    [batched_features] and [feat_map]. *)
Lemma cache_keys_NoDup_incl (self : Reranker) :
  NoDup (cache_keys self)
  /\ incl (cache_keys self)
       (od_keys (batched_features self) ++ od_keys (feat_map self)).
Proof.
  unfold cache_keys.
  destruct (@fold_key_add_NoDup_incl _ fst (batched_features self) [] (NoDup_nil _))
    as [H1 H2].
  destruct (@fold_scalar_key_add_NoDup_incl (feat_map self) _ H1) as [H3 H4].
  split; [exact H3|]. intros x Hx. apply H4 in Hx.
  apply in_app_or in Hx. apply in_or_app. destruct Hx as [Hx|Hx]; [|now right].
  left. apply H2 in Hx. exact Hx.
Qed.

Lemma np_dot_length_mismatch (a b : list Q) :
  length a <> length b -> np_dot a b = Raise ValueError.
Proof.
  intro H. unfold np_dot. apply Nat.eqb_neq in H. now rewrite H.
Qed.

Lemma constructor_fields_and_keys (c : RerankerClass) (feats : list RerankingFeature)
    (param : option (list Q)) (ts : TransitionSystem) :
  cls (new_reranker c feats param ts) = c
  /\ feature_num (new_reranker c feats param ts) = length feats
  /\ (forall name, In name (od_keys (feat_map (new_reranker c feats param ts)))
                   -> In name (map feature_name feats))
  /\ (forall name, In name (od_keys (batched_features (new_reranker c feats param ts)))
                   -> In name (od_keys (feat_map (new_reranker c feats param ts)))).
Proof.
  destruct (new_reranker_fields c feats param ts) as (Hc & Hf & _ & Hm & Hb & _).
  destruct (@fold_od_set_keys feats [] (NoDup_nil _)) as [_ Hin].
  destruct (@fold_batched_keys feats [] (NoDup_nil _)) as [_ Hbin].
  unfold feature_num. rewrite Hc, Hf, Hm, Hb.
  split; [reflexivity|]. split; [reflexivity|]. split.
  - intros name H. apply Hin in H. simpl in H. intuition.
  - intros name H. apply Hbin in H. apply Hin. exact H.
Qed.

(** X3: when two of the features passed to a grid search reranker have the
    same name, the cache of an initialized hypothesis has fewer entries than
    [feature_num], and scoring it with any parameter of [feature_num] weights
    (the default parameter is one) raises ValueError. *)
Theorem duplicate_name_makes_scoring_raise :
  forall (feats : list RerankingFeature) (param0 : option (list Q)) (ts : TransitionSystem)
         (examples : list Example) (decode_results decode_results' : Store),
    ~ NoDup (map feature_name feats) ->
    initialize_rerank_features (new_reranker GridSearchReranker feats param0 ts)
      examples decode_results = (Ok tt, decode_results') ->
    Forall (Forall (fun hyp =>
      (exists d, rerank_feature_values hyp = Some d /\ (length d < length feats)%nat)
      /\ forall param,
           length param = feature_num (new_reranker GridSearchReranker feats param0 ts) ->
           get_rerank_score (new_reranker GridSearchReranker feats param0 ts) hyp param
           = Raise ValueError))
      (firstn (length examples) decode_results').
Proof.
  intros feats param0 ts examples decode_results decode_results' Hdup Hinit.
  set (self := new_reranker GridSearchReranker feats param0 ts) in *.
  destruct (constructor_fields_and_keys GridSearchReranker feats param0 ts)
    as (Hcls & Hnum & Hkeys & Hbkeys).
  fold self in Hcls, Hnum, Hkeys, Hbkeys.
  destruct (cache_keys_NoDup_incl self) as [Hnd Hincl].
  assert (Hlt : (length (cache_keys self) < length feats)%nat).
  { destruct (Nat.lt_ge_cases (length (cache_keys self)) (length feats)) as [H|H];
      [exact H|].
    exfalso. apply Hdup. apply (NoDup_incl_NoDup Hnd).
    - now rewrite length_map.
    - intros x Hx. apply Hincl in Hx. apply in_app_or in Hx.
      destruct Hx as [Hx|Hx]; [apply Hkeys; now apply Hbkeys | now apply Hkeys]. }
  pose proof (initialize_rerank_features_keys _ _ _ Hinit) as Hall.
  eapply Forall_impl; [|exact Hall]. intros hyps Hh.
  eapply Forall_impl; [|exact Hh]. intros hyp (d & Hd & Hk).
  assert (Hlen : length d = length (cache_keys self)).
  { rewrite <- Hk. unfold od_keys. now rewrite length_map. }
  split.
  - exists d. split; [exact Hd|]. now rewrite Hlen.
  - intros param Hp. unfold get_rerank_score. rewrite Hcls.
    unfold GridSearchReranker_get_rerank_score, get_rerank_feature_values.
    rewrite Hd. cbn [rbind]. rewrite np_dot_length_mismatch; [reflexivity|].
    unfold od_values. rewrite length_map, Hp, Hnum, Hlen. lia.
Qed.

(** ** Feature initialization: what it keeps and what it sets *)

Lemma for_hyps_keeps {St A} (f : Hyp -> A)
    (body : St -> list Hyp -> Hyp -> list Hyp -> result St * Hyp) :
  (forall acc before hyp after, f (snd (body acc before hyp after)) = f hyp) ->
  forall todo acc before,
    map f (snd (for_hyps body acc before todo)) = map f (before ++ todo).
Proof.
  intros Hbody. induction todo as [|hyp after IH]; intros acc before; simpl.
  - now rewrite app_nil_r.
  - specialize (Hbody acc before hyp after).
    destruct (body acc before hyp after) as [[acc'|e] hyp']; simpl in *.
    + rewrite IH, <- app_assoc, !map_app. simpl. now rewrite Hbody.
    + rewrite !map_app. simpl. now rewrite Hbody.
Qed.

Lemma for_examples_keeps {St A} (f : Hyp -> A)
    (body : St -> Example -> list Hyp -> result St * list Hyp) :
  (forall acc example hyps, map f (snd (body acc example hyps)) = map f hyps) ->
  forall examples acc decode_results,
    map (map f) (snd (for_examples body acc examples decode_results))
    = map (map f) decode_results.
Proof.
  intros Hbody. induction examples as [|example es IH]; intros acc [|hyps rest];
    simpl; try reflexivity.
  specialize (Hbody acc example hyps).
  destruct (body acc example hyps) as [[acc'|e] hyps']; simpl in *.
  - specialize (IH acc' rest).
    destruct (for_examples body acc' es rest) as [r rest']. simpl in *.
    now rewrite Hbody, IH.
  - now rewrite Hbody.
Qed.

Lemma set_rerank_feature_core (feat_name : string) (v : Q) (hyp : Hyp) :
  core (snd (set_rerank_feature feat_name v hyp)) = core hyp.
Proof.
  unfold set_rerank_feature. destruct (rerank_feature_values hyp); reflexivity.
Qed.

Lemma copy_batched_core (batched : OrderedDict RerankingFeature)
    (hyp_examples : list HypExample) (e_ptr : nat) :
  forall hyp, core (snd (copy_batched batched hyp_examples e_ptr hyp)) = core hyp.
Proof.
  induction batched as [|[feat_name feat] fs IH]; intro hyp; simpl; [reflexivity|].
  destruct (e <- index hyp_examples e_ptr ;; getattr_score e feat_name) as [v|x];
    [|reflexivity].
  pose proof (set_rerank_feature_core feat_name v hyp) as Hc.
  destruct (set_rerank_feature feat_name v hyp) as [[[]|x] hyp']; simpl in *.
  - now rewrite IH.
  - exact Hc.
Qed.

Lemma copy_batched_hyp_core (self : Reranker) hyp_examples e_ptr before hyp after :
  core (snd (copy_batched_hyp self hyp_examples e_ptr before hyp after)) = core hyp.
Proof.
  unfold copy_batched_hyp.
  pose proof (copy_batched_core (batched_features self) hyp_examples e_ptr hyp) as Hc.
  destruct (copy_batched (batched_features self) hyp_examples e_ptr hyp)
    as [[[]|x] hyp']; exact Hc.
Qed.

Lemma scalar_features_core (feats : OrderedDict RerankingFeature) (example : Example)
    (before after : list Hyp) :
  forall hyp, core (snd (scalar_features feats example before hyp after)) = core hyp.
Proof.
  induction feats as [|[feat_name feat] fs IH]; intro hyp; simpl; [reflexivity|].
  destruct (is_batched feat); [apply IH|].
  destruct (get_feat_value feat example hyp (length before) (before ++ hyp :: after))
    as [v|x]; [|reflexivity].
  pose proof (set_rerank_feature_core feat_name v hyp) as Hc.
  destruct (set_rerank_feature feat_name v hyp) as [[[]|x] hyp']; simpl in *.
  - now rewrite IH.
  - exact Hc.
Qed.

Lemma core_parser_fields (hyp hyp' : Hyp) :
  core hyp' = core hyp ->
  (code hyp', score hyp', is_correct hyp') = (code hyp, score hyp, is_correct hyp).
Proof. unfold core. intro H. now inversion H. Qed.

(** X4: feature initialization, whether it returns or raises, leaves every
    list of the store with the same hypotheses in the same order as far as
    their code, parser score and correctness go: it adds, drops, moves and
    rewrites none. *)
Theorem initialization_keeps_hypotheses :
  forall (self : Reranker) (examples : list Example) (decode_results : Store),
    map (map (fun hyp => (code hyp, score hyp, is_correct hyp)))
      (snd (initialize_rerank_features self examples decode_results))
    = map (map (fun hyp => (code hyp, score hyp, is_correct hyp))) decode_results.
Proof.
  intros self examples decode_results.
  set (f := fun hyp => (code hyp, score hyp, is_correct hyp)).
  unfold initialize_rerank_features, mbind, mlift.
  assert (H1 : map (map f) (snd (for_examples (init_hyps self) [] examples decode_results))
               = map (map f) decode_results).
  { apply for_examples_keeps. intros acc example hyps. unfold init_hyps.
    rewrite for_hyps_keeps; [reflexivity|].
    intros a before hyp after. unfold init_hyp.
    destruct (tokenize_code (transition_system self) (code hyp)); reflexivity. }
  destruct (for_examples (init_hyps self) [] examples decode_results)
    as [[hyp_examples|e] dr1]; simpl in H1; [|exact H1].
  destruct (mapM (score_batch_examples (batched_features self))
              (batch_iter hyp_examples 128)) as [batches|e]; [|exact H1].
  cbv beta.
  assert (H2 : map (map f) (snd (for_examples (copy_batched_hyps self (concat batches))
                                   0%nat examples dr1)) = map (map f) dr1).
  { apply for_examples_keeps. intros acc example hyps. unfold copy_batched_hyps.
    rewrite for_hyps_keeps; [reflexivity|].
    intros a before hyp after. apply core_parser_fields. apply copy_batched_hyp_core. }
  destruct (for_examples (copy_batched_hyps self (concat batches)) 0%nat examples dr1)
    as [[e_ptr|e] dr2]; simpl in H2; [|simpl; congruence].
  rewrite for_examples_keeps; [congruence|].
  intros acc example hyps. unfold scalar_features_hyps.
  rewrite for_hyps_keeps; [reflexivity|].
  intros a before hyp after. apply core_parser_fields. apply scalar_features_core.
Qed.

Lemma token_counted_core (self : Reranker) (hyp hyp' : Hyp) :
  core hyp' = core hyp -> token_counted self hyp -> token_counted self hyp'.
Proof.
  unfold core, token_counted. intros H (tokens & Ht & Hc). inversion H as [[H1 H2 H3 H4]].
  exists tokens. rewrite H1, H4. auto.
Qed.

(** When feature initialization returns, every hypothesis that [zip] reaches
    has the number of tokens of its code as [code_token_count]. *)
Lemma initialize_token_counts (self : Reranker) (examples : list Example)
    (decode_results decode_results' : Store) :
  initialize_rerank_features self examples decode_results = (Ok tt, decode_results') ->
  Forall (Forall (token_counted self)) (firstn (length examples) decode_results').
Proof.
  unfold initialize_rerank_features, mbind, mlift. intro H.
  destruct (for_examples (init_hyps self) [] examples decode_results)
    as [[hyp_examples|e] dr1] eqn:E1; [|discriminate].
  destruct (mapM (score_batch_examples (batched_features self))
              (batch_iter hyp_examples 128)) as [batches|e]; [|discriminate].
  destruct (for_examples (copy_batched_hyps self (concat batches)) 0%nat examples dr1)
    as [[e_ptr|e] dr2] eqn:E3; [|discriminate].
  assert (H1 : Forall (Forall (token_counted self)) (firstn (length examples) dr1)).
  { eapply (for_examples_post (P := fun _ => True) (P' := token_counted self));
      [| |exact E1].
    - intros acc example hyps acc' hyps' _ Hb. unfold init_hyps in Hb.
      eapply (for_hyps_post (P := fun _ => True) (P' := token_counted self));
        [| | |exact Hb].
      + intros a before hyp after a' hyp' _ Hi. unfold init_hyp in Hi.
        destruct (tokenize_code (transition_system self) (code hyp)) as [tokens|x] eqn:Et;
          [|discriminate].
        inversion Hi; subst. exists tokens. split; [exact Et | reflexivity].
      + constructor.
      + apply Forall_forall. trivial.
    - apply Forall_forall. intros l _. apply Forall_forall. trivial. }
  assert (H3 : Forall (Forall (token_counted self)) (firstn (length examples) dr2)).
  { eapply for_examples_post; [|exact H1|exact E3].
    intros acc example hyps acc' hyps' Hpre Hb. unfold copy_batched_hyps in Hb.
    eapply for_hyps_post; [| |exact Hpre|exact Hb]; [|constructor].
    intros a before hyp after a' hyp' Hk Hc.
    pose proof (copy_batched_hyp_core self (concat batches) a before hyp after) as Hcore.
    rewrite Hc in Hcore. simpl in Hcore. eapply token_counted_core; eassumption. }
  eapply for_examples_post; [|exact H3|exact H].
  intros acc example hyps acc' hyps' Hpre Hb. unfold scalar_features_hyps in Hb.
  eapply for_hyps_post; [| |exact Hpre|exact Hb]; [|constructor].
  intros a before hyp after a' hyp' Hk Hc. unfold scalar_features_hyp in Hc.
  pose proof (scalar_features_core (feat_map self) example before after hyp) as Hcore.
  rewrite Hc in Hcore. simpl in Hcore. eapply token_counted_core; eassumption.
Qed.

Lemma Forall_code_transfer (P : string -> Prop) (n : nat) (a b : Store) :
  map (map code) a = map (map code) b ->
  Forall (Forall (fun hyp => P (code hyp))) (firstn n a) ->
  Forall (Forall (fun hyp => P (code hyp))) (firstn n b).
Proof.
  intros E H.
  assert (G : forall l : Store,
             Forall (Forall (fun hyp => P (code hyp))) l
             <-> Forall (Forall P) (map (map code) l)).
  { intro l. rewrite Forall_map.
    split; intro G; (eapply Forall_impl; [|exact G]); intros x Hx;
      now apply Forall_map. }
  apply G. rewrite <- firstn_map, <- E, firstn_map. apply G. exact H.
Qed.

(** X5: feature initialization called on its own does not filter: it returns
    only if the code of every hypothesis that [zip] reaches tokenizes, and
    then each of these hypotheses has the number of tokens of its code as
    [code_token_count]. *)
Theorem initialization_needs_tokenizable_code :
  forall (self : Reranker) (examples : list Example)
         (decode_results decode_results' : Store),
    initialize_rerank_features self examples decode_results = (Ok tt, decode_results') ->
    Forall (Forall (fun hyp =>
              exists tokens,
                tokenize_code (transition_system self) (code hyp) = Ok tokens))
      (firstn (length examples) decode_results)
    /\ Forall (Forall (fun hyp =>
                 exists tokens,
                   tokenize_code (transition_system self) (code hyp) = Ok tokens
                   /\ code_token_count hyp = Some (length tokens)))
         (firstn (length examples) decode_results').
Proof.
  intros self examples decode_results decode_results' Hinit.
  pose proof (initialize_token_counts _ _ _ Hinit) as Hc.
  split; [|exact Hc].
  apply (@Forall_code_transfer
           (fun c => exists tokens, tokenize_code (transition_system self) c = Ok tokens)
           (length examples) decode_results').
  - pose proof (initialize_rerank_features_codes self examples decode_results) as E.
    rewrite Hinit in E. exact E.
  - eapply Forall_impl; [|exact Hc]. intros hyps Hh.
    eapply Forall_impl; [|exact Hh]. intros hyp (tokens & Ht & _). eauto.
Qed.

(** ** Feature initialization: the values it caches *)

Lemma set_rerank_feature_ok (feat_name : string) (v : Q) (hyp hyp' : Hyp) :
  set_rerank_feature feat_name v hyp = (Ok tt, hyp') ->
  core hyp' = core hyp
  /\ hasattr_rerank_feature_values hyp = true
  /\ hasattr_rerank_feature_values hyp' = true
  /\ cached feat_name hyp' = Some v
  /\ forall k0, k0 <> feat_name -> cached k0 hyp' = cached k0 hyp.
Proof.
  unfold set_rerank_feature, cached, hasattr_rerank_feature_values.
  destruct (rerank_feature_values hyp) as [d|] eqn:Ed; [|discriminate].
  intro H. inversion H; subst. simpl. rewrite ?Ed.
  repeat split; auto using od_get_set_same.
  intros k0 Hne. now apply od_get_set_other.
Qed.

Lemma scalar_features_ok (feats : OrderedDict RerankingFeature) (example : Example)
    (before after : list Hyp) :
  forall hyp hyp',
    scalar_features feats example before hyp after = (Ok tt, hyp') ->
    core hyp' = core hyp
    /\ hasattr_rerank_feature_values hyp' = hasattr_rerank_feature_values hyp
    /\ forall k0, ~ In k0 (scalar_keys feats) -> cached k0 hyp' = cached k0 hyp.
Proof.
  induction feats as [|[feat_name feat] fs IH]; intros hyp hyp' H; simpl in H.
  - inversion H; subst. auto.
  - unfold scalar_keys in *. simpl.
    destruct (is_batched feat); simpl; [now apply IH|].
    destruct (get_feat_value feat example hyp (length before) (before ++ hyp :: after))
      as [v|x]; [|discriminate].
    destruct (set_rerank_feature feat_name v hyp) as [[[]|x] hyp1] eqn:E; [|discriminate].
    apply set_rerank_feature_ok in E. destruct E as (Hc & Ha & Ha1 & _ & Hother).
    destruct (IH _ _ H) as (Hc' & Ha' & Hother').
    split; [congruence|]. split; [congruence|].
    intros k0 Hk0. rewrite Hother', Hother; auto.
Qed.

Lemma view_eq (K : list string) (hyp hyp' : Hyp) :
  core hyp' = core hyp ->
  hasattr_rerank_feature_values hyp' = hasattr_rerank_feature_values hyp ->
  (forall k0, In k0 K -> cached k0 hyp' = cached k0 hyp) ->
  view K hyp' = view K hyp.
Proof.
  intros Hc Ha Hk. unfold view. rewrite Hc, Ha. f_equal.
  apply map_ext_in. exact Hk.
Qed.

Lemma scalar_features_view (K : list string) (feats : OrderedDict RerankingFeature)
    (example : Example) (before after : list Hyp) (hyp hyp' : Hyp) :
  (forall k0, In k0 K -> ~ In k0 (scalar_keys feats)) ->
  scalar_features feats example before hyp after = (Ok tt, hyp') ->
  view K hyp' = view K hyp.
Proof.
  intros HK H. destruct (scalar_features_ok _ _ _ _ _ H) as (Hc & Ha & Hother).
  apply view_eq; auto.
Qed.

Lemma map_view_replace (K : list string) (before after : list Hyp) (hyp hyp' : Hyp) :
  view K hyp' = view K hyp ->
  map (view K) (before ++ hyp' :: after) = map (view K) (before ++ hyp :: after).
Proof. intro H. rewrite !map_app. simpl. now rewrite H. Qed.

(** The fourth loop on one hypothesis: a feature that is not batched, sits in
    [feat_map] under the key [k] and reads of the caches only keys that this
    loop does not write, ends up cached under [k] with the value it has on
    the hypothesis and the list as the loop leaves them. *)
Lemma scalar_features_value (K : list string) (k : string) (feat : RerankingFeature)
    (example : Example) (before after : list Hyp) :
  reads_only K feat ->
  is_batched feat = false ->
  forall feats hyp hyp',
    NoDup (od_keys feats) ->
    In (k, feat) feats ->
    (forall k0, In k0 K -> ~ In k0 (scalar_keys feats)) ->
    scalar_features feats example before hyp after = (Ok tt, hyp') ->
    exists v,
      cached k hyp' = Some v
      /\ get_feat_value feat example hyp' (length before) (before ++ hyp' :: after) = Ok v.
Proof.
  intros Hread Hscalar.
  induction feats as [|[k1 f1] fs IH]; intros hyp hyp' Hnd Hin HK H; [contradiction|].
  simpl in Hnd. inversion Hnd as [|? ? Hk1 Hnd']; subst.
  simpl in H. unfold scalar_keys in HK. simpl in HK.
  destruct (is_batched f1) eqn:Eb.
  - destruct Hin as [Hin|Hin]; [inversion Hin; subst; congruence|].
    eapply IH; eauto.
  - simpl in HK.
    destruct (get_feat_value f1 example hyp (length before) (before ++ hyp :: after))
      as [v1|x] eqn:Ev; [|discriminate].
    destruct (set_rerank_feature k1 v1 hyp) as [[[]|x] hyp1] eqn:E; [|discriminate].
    assert (HK' : forall k0, In k0 K -> ~ In k0 (scalar_keys fs)).
    { intros k0 Hk0 Hs. apply (HK k0 Hk0). now right. }
    destruct Hin as [Hin|Hin].
    + inversion Hin; subst k1 f1. clear Hin.
      apply set_rerank_feature_ok in E.
      destruct E as (Hc & Ha & Ha1 & Hset & Hother).
      destruct (scalar_features_ok _ _ _ _ _ H) as (Hc' & Ha' & Hother').
      exists v1. split.
      * rewrite Hother'; [exact Hset|].
        intro Hs. apply Hk1. unfold scalar_keys in Hs. apply in_map_iff in Hs.
        destruct Hs as ([k0 f0] & Hk0 & Hf0). simpl in Hk0. subst k0.
        apply filter_In in Hf0. destruct Hf0 as [Hf0 _].
        apply in_map_iff. exists (k, f0). auto.
      * rewrite <- Ev. apply Hread.
        -- apply view_eq; [congruence | congruence |].
           intros k0 Hk0. rewrite Hother' by auto. apply Hother.
           intros ->. apply (HK k Hk0). now left.
        -- apply map_view_replace. apply view_eq; [congruence | congruence |].
           intros k0 Hk0. rewrite Hother' by auto. apply Hother.
           intros ->. apply (HK k Hk0). now left.
    + eapply IH; eauto.
Qed.

Lemma for_hyps_indexed {St} (I : list Hyp -> Prop) (P : nat -> Hyp -> Prop)
    (body : St -> list Hyp -> Hyp -> list Hyp -> result St * Hyp) :
  (forall acc before hyp after acc' hyp',
      I (before ++ hyp :: after) ->
      body acc before hyp after = (Ok acc', hyp') ->
      I (before ++ hyp' :: after) /\ P (length before) hyp') ->
  forall todo acc before acc' hyps',
    I (before ++ todo) ->
    (forall j h, nth_error before j = Some h -> P j h) ->
    for_hyps body acc before todo = (Ok acc', hyps') ->
    I hyps' /\ forall j h, nth_error hyps' j = Some h -> P j h.
Proof.
  intros Hbody. induction todo as [|hyp after IH]; intros acc before acc' hyps' HI HP H;
    simpl in H.
  - inversion H; subst. rewrite app_nil_r in HI. auto.
  - destruct (body acc before hyp after) as [[acc1|e] hyp1] eqn:E; [|discriminate].
    destruct (Hbody _ _ _ _ _ _ HI E) as [HI1 HP1].
    eapply IH; [| |exact H].
    + now rewrite <- app_assoc.
    + intros j h Hj. destruct (Nat.lt_ge_cases j (length before)) as [Hlt|Hge].
      * rewrite nth_error_app1 in Hj by exact Hlt. now apply HP.
      * rewrite nth_error_app2 in Hj by exact Hge.
        destruct (j - length before)%nat as [|m] eqn:Em; simpl in Hj.
        -- inversion Hj; subst. replace j with (length before) by lia. exact HP1.
        -- destruct m; discriminate.
Qed.

Lemma for_examples_rel {St} (R : Example -> list Hyp -> Prop)
    (body : St -> Example -> list Hyp -> result St * list Hyp) :
  (forall acc example hyps acc' hyps',
      body acc example hyps = (Ok acc', hyps') -> R example hyps') ->
  forall examples acc decode_results acc' decode_results',
    for_examples body acc examples decode_results = (Ok acc', decode_results') ->
    Forall (fun p => R (fst p) (snd p)) (combine examples decode_results').
Proof.
  intros Hbody. induction examples as [|example es IH];
    intros acc decode_results acc' decode_results' H; [constructor|].
  destruct decode_results as [|hyps rest]; simpl in H.
  - inversion H; subst. constructor.
  - destruct (body acc example hyps) as [[acc1|e] hyps1] eqn:E; [|discriminate].
    destruct (for_examples body acc1 es rest) as [r rest1] eqn:E1.
    inversion H; subst. simpl. constructor.
    + simpl. eapply Hbody; eassumption.
    + eapply IH; eassumption.
Qed.

(** The same for the whole initialization, when it returns: the value cached
    under [k] is the value of the feature on the hypotheses as the
    initialization leaves them. *)
Lemma initialize_cached_values (K : list string) (k : string) (feat : RerankingFeature)
    (self : Reranker) (examples : list Example) (decode_results decode_results' : Store) :
  reads_only K feat ->
  is_batched feat = false ->
  NoDup (od_keys (feat_map self)) ->
  In (k, feat) (feat_map self) ->
  (forall k0, In k0 K -> ~ In k0 (scalar_keys (feat_map self))) ->
  initialize_rerank_features self examples decode_results = (Ok tt, decode_results') ->
  Forall (fun p =>
            forall hyp_id hyp,
              nth_error (snd p) hyp_id = Some hyp ->
              exists v, cached k hyp = Some v
                        /\ get_feat_value feat (fst p) hyp hyp_id (snd p) = Ok v)
    (combine examples decode_results').
Proof.
  intros Hread Hscalar Hnd Hin HK.
  unfold initialize_rerank_features, mbind, mlift. intro H.
  destruct (for_examples (init_hyps self) [] examples decode_results)
    as [[hyp_examples|e] dr1]; [|discriminate].
  destruct (mapM (score_batch_examples (batched_features self))
              (batch_iter hyp_examples 128)) as [batches|e]; [|discriminate].
  destruct (for_examples (copy_batched_hyps self (concat batches)) 0%nat examples dr1)
    as [[e_ptr|e] dr2]; [|discriminate].
  eapply (for_examples_rel
            (fun example hyps' =>
                    forall hyp_id hyp,
                      nth_error hyps' hyp_id = Some hyp ->
                      exists v, cached k hyp = Some v
                                /\ get_feat_value feat example hyp hyp_id hyps' = Ok v));
    [|exact H].
  intros [] example hyps [] hyps' Hb. unfold scalar_features_hyps in Hb.
  set (I := fun l => map (view K) l = map (view K) hyps).
  set (P := fun (j : nat) (h : Hyp) =>
              exists v,
                cached k h = Some v
                /\ forall h0 l0,
                     view K h0 = view K h ->
                     map (view K) l0 = map (view K) hyps ->
                     get_feat_value feat example h0 j l0 = Ok v).
  assert (Hbody : forall acc before hyp after acc' hyp1,
             I (before ++ hyp :: after) ->
             scalar_features_hyp self example acc before hyp after = (Ok acc', hyp1) ->
             I (before ++ hyp1 :: after) /\ P (length before) hyp1).
  { intros a before hyp after a' hyp1 HI Hs. unfold scalar_features_hyp in Hs. destruct a'.
    pose proof (scalar_features_view K _ _ _ _ _ HK Hs) as Hv.
    unfold I, P in *. split.
    - rewrite <- HI. now apply map_view_replace.
    - destruct (@scalar_features_value K k feat example before after Hread Hscalar
                  (feat_map self) hyp hyp1 Hnd Hin HK Hs) as (v & Hc & Hval).
      exists v. split; [exact Hc|]. intros h0 l0 Hh0 Hl0. rewrite <- Hval.
      apply Hread; [exact Hh0|]. rewrite Hl0, <- HI. symmetry.
      now apply map_view_replace. }
  assert (Hnil : forall j h, nth_error (@nil Hyp) j = Some h -> P j h).
  { intros j h Hj. destruct j; discriminate. }
  destruct (for_hyps_indexed I P _ Hbody hyps tt [] (eq_refl : I ([] ++ hyps)) Hnil Hb)
    as [HI HP].
  intros hyp_id hyp Hn. destruct (HP _ _ Hn) as (v & Hc & Hval).
  exists v. split; [exact Hc|]. now apply Hval.
Qed.

Lemma od_get_In {V} (k : string) (v : V) (d : OrderedDict V) :
  od_get k d = Some v -> In (k, v) d.
Proof.
  induction d as [|[k' v'] d IH]; simpl; [discriminate|].
  destruct (String.eqb_spec k k') as [->|Hne].
  - intro H. inversion H. now left.
  - intro H. right. now apply IH.
Qed.

Lemma od_get_of_In {V} (k : string) (v : V) (d : OrderedDict V) :
  NoDup (od_keys d) -> In (k, v) d -> od_get k d = Some v.
Proof.
  induction d as [|[k' v'] d IH]; simpl; intros Hnd Hin; [contradiction|].
  inversion Hnd as [|? ? Hk' Hnd']; subst.
  destruct Hin as [Hin|Hin].
  - inversion Hin; subst. now rewrite String.eqb_refl.
  - destruct (String.eqb_spec k k') as [->|Hne].
    + exfalso. apply Hk'. apply in_map_iff. exists (k', v). auto.
    + now apply IH.
Qed.

Lemma od_get_None {V} (k : string) (d : OrderedDict V) :
  ~ In k (od_keys d) -> od_get k d = None.
Proof.
  induction d as [|[k' v'] d IH]; simpl; intro H; [reflexivity|].
  destruct (String.eqb_spec k k') as [->|Hne].
  - exfalso. apply H. now left.
  - apply IH. intro Hin. apply H. now right.
Qed.

Lemma combine_to_firstn {A B} (R : B -> Prop) (a : list A) (b : list B) :
  Forall (fun p => R (snd p)) (combine a b) -> Forall R (firstn (length a) b).
Proof.
  revert b. induction a as [|x a IH]; intros [|y b] H; simpl; try constructor.
  - simpl in H. inversion H; subst. assumption.
  - simpl in H. inversion H; subst. now apply IH.
Qed.

Lemma scalar_keys_entry (k : string) (feats : OrderedDict RerankingFeature) :
  In k (scalar_keys feats) -> exists feat, In (k, feat) feats /\ is_batched feat = false.
Proof.
  unfold scalar_keys. intro H. apply in_map_iff in H.
  destruct H as ([k0 f] & Hk & Hf). simpl in Hk. subst k0.
  apply filter_In in Hf. destruct Hf as [Hin Hb]. simpl in Hb.
  exists f. split; [exact Hin|]. now apply negb_true_iff.
Qed.

Lemma new_reranker_feat_map_NoDup (c : RerankerClass) (feats : list RerankingFeature)
    (param : option (list Q)) (ts : TransitionSystem) :
  NoDup (od_keys (feat_map (new_reranker c feats param ts))).
Proof.
  destruct (new_reranker_fields c feats param ts) as (_ & _ & _ & Hm & _).
  rewrite Hm. apply (@fold_od_set_keys feats [] (NoDup_nil _)).
Qed.

(** What the initialization leaves on every hypothesis that [zip] reaches,
    for a feature that does not look at the example and is the one that
    [__getattr__] finds under [k]. *)
Lemma initialize_leaves (K : list string) (k : string) (feat : RerankingFeature)
    (c : RerankerClass) (feats : list RerankingFeature) (param : option (list Q))
    (ts : TransitionSystem) (examples : list Example)
    (decode_results decode_results' : Store) (example0 : Example) :
  reads_only K feat ->
  is_batched feat = false ->
  (forall example example' hyp hyp_id all_hyps,
      get_feat_value feat example hyp hyp_id all_hyps
      = get_feat_value feat example' hyp hyp_id all_hyps) ->
  Reranker___getattr__ (new_reranker c feats param ts) k = Ok feat ->
  (forall k0 f, In k0 K ->
                Reranker___getattr__ (new_reranker c feats param ts) k0 = Ok f ->
                is_batched f = true) ->
  initialize_rerank_features (new_reranker c feats param ts) examples decode_results
    = (Ok tt, decode_results') ->
  Forall (fun hyps =>
            forall hyp_id hyp,
              nth_error hyps hyp_id = Some hyp ->
              (exists tokens, tokenize_code ts (code hyp) = Ok tokens
                              /\ code_token_count hyp = Some (length tokens))
              /\ has_keys (cache_keys (new_reranker c feats param ts)) hyp
              /\ exists v, cached k hyp = Some v
                           /\ get_feat_value feat example0 hyp hyp_id hyps = Ok v)
    (firstn (length examples) decode_results').
Proof.
  intros Hread Hscalar Hex Hget HK Hinit.
  set (self := new_reranker c feats param ts) in *.
  pose proof (new_reranker_feat_map_NoDup c feats param ts) as Hnd. fold self in Hnd.
  assert (Hts : transition_system self = ts).
  { exact (proj1 (proj2 (proj2 (new_reranker_fields c feats param ts)))). }
  assert (Hin : In (k, feat) (feat_map self)).
  { unfold Reranker___getattr__ in Hget.
    destruct (od_get k (feat_map self)) as [f|] eqn:E; [|discriminate].
    assert (Hf : f = feat) by congruence. rewrite <- Hf. now apply od_get_In. }
  assert (HK' : forall k0, In k0 K -> ~ In k0 (scalar_keys (feat_map self))).
  { intros k0 Hk0 Hs. apply scalar_keys_entry in Hs. destruct Hs as (f & Hf & Hb).
    assert (Hb' : is_batched f = true).
    { apply (HK k0 f Hk0). unfold Reranker___getattr__.
      now rewrite (@od_get_of_In _ k0 f (feat_map self) Hnd Hf). }
    congruence. }
  pose proof (@initialize_cached_values K k feat self examples decode_results
                decode_results' Hread Hscalar Hnd Hin HK' Hinit) as Hv.
  pose proof (initialize_token_counts _ _ _ Hinit) as Ht.
  pose proof (initialize_rerank_features_keys _ _ _ Hinit) as Hk.
  assert (Hv' : Forall (fun hyps =>
              forall hyp_id hyp,
                nth_error hyps hyp_id = Some hyp ->
                exists v, cached k hyp = Some v
                          /\ get_feat_value feat example0 hyp hyp_id hyps = Ok v)
            (firstn (length examples) decode_results')).
  { apply combine_to_firstn. eapply Forall_impl; [|exact Hv].
    intros [example hyps] H hyp_id hyp Hn. simpl in *.
    destruct (H _ _ Hn) as (v & Hc & Hval). exists v. split; [exact Hc|].
    rewrite <- Hval. apply Hex. }
  rewrite Forall_forall in *. intros hyps Hh hyp_id hyp Hn.
  pose proof (nth_error_In _ _ Hn) as Hhyp.
  specialize (Ht _ Hh). specialize (Hk _ Hh). rewrite Forall_forall in Ht, Hk.
  split; [|split].
  - destruct (Ht _ Hhyp) as (tokens & Htok & Hc). rewrite Hts in Htok. eauto.
  - now apply Hk.
  - now apply (Hv' _ Hh).
Qed.

Lemma view_inv (K : list string) (hyp hyp' : Hyp) :
  view K hyp = view K hyp' ->
  code hyp = code hyp' /\ score hyp = score hyp' /\ is_correct hyp = is_correct hyp'
  /\ code_token_count hyp = code_token_count hyp'
  /\ hasattr_rerank_feature_values hyp = hasattr_rerank_feature_values hyp'
  /\ map (fun k => cached k hyp) K = map (fun k => cached k hyp') K.
Proof.
  unfold view, core. intro H. injection H as H1 H2 H3 H4 H5 H6. auto 10.
Qed.

Lemma reads_only_HypCodeTokensCount : reads_only [] HypCodeTokensCount.
Proof.
  intros example hyp hyp' hyp_id all_hyps all_hyps' Hv _. simpl.
  apply view_inv in Hv. destruct Hv as (_ & _ & _ & Hc & _).
  unfold get_code_token_count. now rewrite Hc.
Qed.

Lemma reads_only_NormalizedParserScore : reads_only [] NormalizedParserScore.
Proof.
  intros example hyp hyp' hyp_id all_hyps all_hyps' Hv _. simpl.
  apply view_inv in Hv. destruct Hv as (_ & Hs & _ & Hc & _).
  unfold get_code_token_count. now rewrite Hc, Hs.
Qed.

Lemma view_head (K : list string) (l l' : list Hyp) :
  map (view K) l = map (view K) l' ->
  match nth_error l 0, nth_error l' 0 with
  | Some top, Some top' => view K top = view K top'
  | None, None => True
  | _, _ => False
  end.
Proof.
  destruct l as [|h l], l' as [|h' l']; simpl; intro H; try discriminate; [exact I|].
  exact (f_equal (fun vs => match vs with v :: _ => v | [] => view K h end) H).
Qed.

Lemma reads_only_IsSecondHypAndScoreMargin : reads_only [] IsSecondHypAndScoreMargin.
Proof.
  intros example hyp hyp' hyp_id all_hyps all_hyps' Hv Hl. simpl.
  destruct (Nat.eqb hyp_id 1); [|reflexivity].
  apply view_head in Hl. unfold index.
  destruct (nth_error all_hyps 0) as [top|], (nth_error all_hyps' 0) as [top'|];
    try contradiction; [|reflexivity].
  simpl. apply view_inv in Hv, Hl.
  destruct Hv as (_ & Hs & _). destruct Hl as (_ & Hs' & _). now rewrite Hs, Hs'.
Qed.

Lemma cached_item_view (k : string) (hyp hyp' : Hyp) :
  view [k] hyp = view [k] hyp' ->
  (d <- get_rerank_feature_values hyp ;; od_item k d)
  = (d <- get_rerank_feature_values hyp' ;; od_item k d).
Proof.
  intro Hv. apply view_inv in Hv. destruct Hv as (_ & _ & _ & _ & Ha & Hc).
  unfold get_rerank_feature_values, od_item, cached, hasattr_rerank_feature_values in *.
  simpl in Hc.
  destruct (rerank_feature_values hyp) as [d|], (rerank_feature_values hyp') as [d'|];
    simpl in *; try discriminate; [|reflexivity].
  injection Hc as Hc. now rewrite Hc.
Qed.

Lemma cached_item_bind {B} (k : string) (hyp : Hyp) (g : Q -> result B) :
  (d <- get_rerank_feature_values hyp ;; a <- od_item k d ;; g a)
  = rbind (d <- get_rerank_feature_values hyp ;; od_item k d) g.
Proof.
  destruct (get_rerank_feature_values hyp); reflexivity.
Qed.

Lemma reads_only_IsSecondHypAndParaphraseScoreMargin :
  reads_only ["paraphrase_score"] IsSecondHypAndParaphraseScoreMargin.
Proof.
  intros example hyp hyp' hyp_id all_hyps all_hyps' Hv Hl. simpl.
  destruct (Nat.eqb hyp_id 1); [|reflexivity].
  rewrite !cached_item_bind, (cached_item_view Hv).
  destruct (d <- get_rerank_feature_values hyp' ;; od_item "paraphrase_score" d)
    as [a|x]; [|reflexivity].
  cbn [rbind]. apply view_head in Hl. unfold index.
  destruct (nth_error all_hyps 0) as [top|], (nth_error all_hyps' 0) as [top'|];
    try contradiction; [|reflexivity].
  cbn [rbind]. now rewrite !cached_item_bind, (cached_item_view Hl).
Qed.

(** ** The four features of the module, as cached *)

(** X6: when the feature found under the name code_token_count is
    [HypCodeTokensCount] and feature initialization returns, every hypothesis
    that [zip] reaches has the number of tokens of its code cached under that
    name. *)
Theorem code_token_count_is_cached :
  forall (c : RerankerClass) (feats : list RerankingFeature) (param : option (list Q))
         (ts : TransitionSystem) (examples : list Example)
         (decode_results decode_results' : Store),
    Reranker___getattr__ (new_reranker c feats param ts) "code_token_count"
      = Ok HypCodeTokensCount ->
    initialize_rerank_features (new_reranker c feats param ts) examples decode_results
      = (Ok tt, decode_results') ->
    Forall (Forall (fun hyp =>
              exists tokens,
                tokenize_code ts (code hyp) = Ok tokens
                /\ cached "code_token_count" hyp = Some (Q_of_nat (length tokens))))
      (firstn (length examples) decode_results').
Proof.
  intros c feats param ts examples decode_results decode_results' Hget Hinit.
  pose proof (@initialize_leaves [] "code_token_count" HypCodeTokensCount c feats param ts
                examples decode_results decode_results' sample_example
                reads_only_HypCodeTokensCount eq_refl
                (fun _ _ _ _ _ => eq_refl) Hget
                (fun k0 f (H : In k0 []) => match H with end) Hinit) as H.
  eapply Forall_impl; [|exact H]. intros hyps Hh.
  apply Forall_forall. intros hyp Hin. apply In_nth_error in Hin. destruct Hin as [j Hj].
  destruct (Hh _ _ Hj) as ((tokens & Ht & Hc) & _ & v & Hv & Hval).
  exists tokens. split; [exact Ht|]. rewrite Hv. simpl in Hval.
  unfold get_code_token_count in Hval. rewrite Hc in Hval. simpl in Hval. congruence.
Qed.

(** X7: when the feature found under the name normalized_parser_score is
    [NormalizedParserScore] and feature initialization returns, every
    hypothesis that [zip] reaches has at least one token and has its parser
    score divided by its number of tokens cached under that name. So the
    initialization does not return when a hypothesis has no token. *)
Theorem normalized_parser_score_is_cached :
  forall (c : RerankerClass) (feats : list RerankingFeature) (param : option (list Q))
         (ts : TransitionSystem) (examples : list Example)
         (decode_results decode_results' : Store),
    Reranker___getattr__ (new_reranker c feats param ts) "normalized_parser_score"
      = Ok NormalizedParserScore ->
    initialize_rerank_features (new_reranker c feats param ts) examples decode_results
      = (Ok tt, decode_results') ->
    Forall (Forall (fun hyp =>
              exists tokens,
                tokenize_code ts (code hyp) = Ok tokens
                /\ tokens <> []
                /\ cached "normalized_parser_score" hyp
                   = Some (score hyp / Q_of_nat (length tokens))))
      (firstn (length examples) decode_results').
Proof.
  intros c feats param ts examples decode_results decode_results' Hget Hinit.
  pose proof (@initialize_leaves [] "normalized_parser_score" NormalizedParserScore
                c feats param ts examples decode_results decode_results' sample_example
                reads_only_NormalizedParserScore eq_refl
                (fun _ _ _ _ _ => eq_refl) Hget
                (fun k0 f (H : In k0 []) => match H with end) Hinit) as H.
  eapply Forall_impl; [|exact H]. intros hyps Hh.
  apply Forall_forall. intros hyp Hin. apply In_nth_error in Hin. destruct Hin as [j Hj].
  destruct (Hh _ _ Hj) as ((tokens & Ht & Hc) & _ & v & Hv & Hval).
  exists tokens. split; [exact Ht|]. rewrite Hv.
  change (get_feat_value NormalizedParserScore sample_example hyp j hyps)
    with (n <- get_code_token_count hyp ;;
          match n with
          | O => Raise ZeroDivisionError
          | S _ => Ok (score hyp / Q_of_nat n)
          end) in Hval.
  unfold get_code_token_count in Hval. rewrite Hc in Hval. cbn [rbind] in Hval.
  destruct (length tokens) as [|n] eqn:En; [discriminate|].
  split; [intros ->; discriminate En|]. congruence.
Qed.

(** X8: when the feature found under the name
    is_2nd_hyp_and_margin_with_top_hyp is [IsSecondHypAndScoreMargin] and
    feature initialization returns, then in every list that [zip] reaches
    the hypothesis at index 1 has cached under that name the parser score of
    the hypothesis at index 0 minus its own, and every other hypothesis has
    0. *)
Theorem score_margin_is_cached :
  forall (c : RerankerClass) (feats : list RerankingFeature) (param : option (list Q))
         (ts : TransitionSystem) (examples : list Example)
         (decode_results decode_results' : Store),
    Reranker___getattr__ (new_reranker c feats param ts)
      "is_2nd_hyp_and_margin_with_top_hyp" = Ok IsSecondHypAndScoreMargin ->
    initialize_rerank_features (new_reranker c feats param ts) examples decode_results
      = (Ok tt, decode_results') ->
    Forall (fun hyps =>
              forall hyp_id hyp,
                nth_error hyps hyp_id = Some hyp ->
                (hyp_id = 1%nat ->
                 exists top,
                   nth_error hyps 0 = Some top
                   /\ cached "is_2nd_hyp_and_margin_with_top_hyp" hyp
                      = Some (score top - score hyp))
                /\ (hyp_id <> 1%nat ->
                    cached "is_2nd_hyp_and_margin_with_top_hyp" hyp = Some 0))
      (firstn (length examples) decode_results').
Proof.
  intros c feats param ts examples decode_results decode_results' Hget Hinit.
  pose proof (@initialize_leaves [] "is_2nd_hyp_and_margin_with_top_hyp"
                IsSecondHypAndScoreMargin c feats param ts
                examples decode_results decode_results' sample_example
                reads_only_IsSecondHypAndScoreMargin eq_refl
                (fun _ _ _ _ _ => eq_refl) Hget
                (fun k0 f (H : In k0 []) => match H with end) Hinit) as H.
  eapply Forall_impl; [|exact H]. intros hyps Hh hyp_id hyp Hj.
  destruct (Hh _ _ Hj) as (_ & _ & v & Hv & Hval).
  rewrite Hv. simpl in Hval. split.
  - intros ->. simpl in Hval. unfold index in Hval.
    destruct (nth_error hyps 0) as [top|]; [|discriminate].
    simpl in Hval. exists top. split; [reflexivity | congruence].
  - intro Hne. apply Nat.eqb_neq in Hne. rewrite Hne in Hval. congruence.
Qed.

Lemma cached_item_ok (k : string) (hyp : Hyp) (a : Q) :
  (d <- get_rerank_feature_values hyp ;; od_item k d) = Ok a -> cached k hyp = Some a.
Proof.
  unfold get_rerank_feature_values, od_item, cached.
  destruct (rerank_feature_values hyp) as [d|]; simpl; [|discriminate].
  destruct (od_get k d); [congruence | discriminate].
Qed.

(** X9: when the feature found under the name
    is_2nd_hyp_and_paraphrase_score_margin_with_top_hyp is
    [IsSecondHypAndParaphraseScoreMargin], any feature found under the name
    paraphrase_score is batched, and feature initialization returns, then in
    every list that [zip] reaches the hypothesis at index 1 has cached under
    the first name its own cached paraphrase score minus that of the
    hypothesis at index 0, and every other hypothesis has 0. *)
Theorem paraphrase_margin_is_cached :
  forall (c : RerankerClass) (feats : list RerankingFeature) (param : option (list Q))
         (ts : TransitionSystem) (examples : list Example)
         (decode_results decode_results' : Store),
    Reranker___getattr__ (new_reranker c feats param ts)
      "is_2nd_hyp_and_paraphrase_score_margin_with_top_hyp"
      = Ok IsSecondHypAndParaphraseScoreMargin ->
    (forall f, Reranker___getattr__ (new_reranker c feats param ts) "paraphrase_score"
               = Ok f -> is_batched f = true) ->
    initialize_rerank_features (new_reranker c feats param ts) examples decode_results
      = (Ok tt, decode_results') ->
    Forall (fun hyps =>
              forall hyp_id hyp,
                nth_error hyps hyp_id = Some hyp ->
                (hyp_id = 1%nat ->
                 exists top a b,
                   nth_error hyps 0 = Some top
                   /\ cached "paraphrase_score" hyp = Some a
                   /\ cached "paraphrase_score" top = Some b
                   /\ cached "is_2nd_hyp_and_paraphrase_score_margin_with_top_hyp" hyp
                      = Some (a - b))
                /\ (hyp_id <> 1%nat ->
                    cached "is_2nd_hyp_and_paraphrase_score_margin_with_top_hyp" hyp
                    = Some 0))
      (firstn (length examples) decode_results').
Proof.
  intros c feats param ts examples decode_results decode_results' Hget Hpara Hinit.
  assert (HK : forall k0 f, In k0 ["paraphrase_score"] ->
                 Reranker___getattr__ (new_reranker c feats param ts) k0 = Ok f ->
                 is_batched f = true).
  { intros k0 f [<-|[]]. apply Hpara. }
  pose proof (@initialize_leaves ["paraphrase_score"]
                "is_2nd_hyp_and_paraphrase_score_margin_with_top_hyp"
                IsSecondHypAndParaphraseScoreMargin c feats param ts
                examples decode_results decode_results' sample_example
                reads_only_IsSecondHypAndParaphraseScoreMargin eq_refl
                (fun _ _ _ _ _ => eq_refl) Hget HK Hinit) as H.
  eapply Forall_impl; [|exact H]. intros hyps Hh hyp_id hyp Hj.
  destruct (Hh _ _ Hj) as (_ & _ & v & Hv & Hval).
  rewrite Hv. simpl in Hval. split.
  - intros ->. simpl in Hval. rewrite cached_item_bind in Hval.
    destruct (d <- get_rerank_feature_values hyp ;; od_item "paraphrase_score" d)
      as [a|x] eqn:Ea; [|discriminate].
    cbn [rbind] in Hval. unfold index in Hval.
    destruct (nth_error hyps 0) as [top|]; [|discriminate].
    cbn [rbind] in Hval. rewrite cached_item_bind in Hval.
    destruct (d <- get_rerank_feature_values top ;; od_item "paraphrase_score" d)
      as [b|x] eqn:Eb; [|discriminate].
    cbn [rbind] in Hval. exists top, a, b.
    split; [reflexivity|]. split; [now apply cached_item_ok|].
    split; [now apply cached_item_ok | congruence].
  - intro Hne. apply Nat.eqb_neq in Hne. rewrite Hne in Hval. congruence.
Qed.

(** X10: the paraphrase margin needs a paraphrase score. When the feature
    found under its name is [IsSecondHypAndParaphraseScoreMargin], no feature
    is called paraphrase_score, and some list that [zip] reaches has two
    hypotheses or more, feature initialization does not return. *)
Theorem paraphrase_margin_needs_paraphrase_score :
  forall (c : RerankerClass) (feats : list RerankingFeature) (param : option (list Q))
         (ts : TransitionSystem) (examples : list Example) (decode_results : Store)
         (hyps : list Hyp),
    Reranker___getattr__ (new_reranker c feats param ts)
      "is_2nd_hyp_and_paraphrase_score_margin_with_top_hyp"
      = Ok IsSecondHypAndParaphraseScoreMargin ->
    ~ In "paraphrase_score" (map feature_name feats) ->
    In hyps (firstn (length examples) decode_results) ->
    (2 <= length hyps)%nat ->
    fst (initialize_rerank_features (new_reranker c feats param ts) examples
           decode_results) <> Ok tt.
Proof.
  intros c feats param ts examples decode_results hyps Hget Hno Hin Hlen Hok.
  destruct (initialize_rerank_features (new_reranker c feats param ts) examples
              decode_results) as [r decode_results'] eqn:Hinit.
  simpl in Hok. subst r.
  set (self := new_reranker c feats param ts) in *.
  destruct (constructor_fields_and_keys c feats param ts) as (_ & _ & Hkeys & Hbkeys).
  fold self in Hkeys, Hbkeys.
  assert (Hnokey : ~ In "paraphrase_score" (od_keys (feat_map self))).
  { intro H. apply Hno. now apply Hkeys. }
  assert (HK : forall k0 f, In k0 ["paraphrase_score"] ->
                 Reranker___getattr__ self k0 = Ok f -> is_batched f = true).
  { intros k0 f [<-|[]] H. unfold Reranker___getattr__ in H.
    rewrite (od_get_None _ _ Hnokey) in H. discriminate. }
  pose proof (@initialize_leaves ["paraphrase_score"]
                "is_2nd_hyp_and_paraphrase_score_margin_with_top_hyp"
                IsSecondHypAndParaphraseScoreMargin c feats param ts
                examples decode_results decode_results' sample_example
                reads_only_IsSecondHypAndParaphraseScoreMargin eq_refl
                (fun _ _ _ _ _ => eq_refl) Hget HK Hinit) as H.
  fold self in H.
  (* the list of [decode_results'] that stands where [hyps] stood *)
  assert (Hhyps' : exists hyps', In hyps' (firstn (length examples) decode_results')
                                 /\ map code hyps' = map code hyps).
  { pose proof (initialize_rerank_features_codes self examples decode_results) as E.
    rewrite Hinit in E. simpl in E.
    assert (Hm : In (map code hyps)
                   (map (map code) (firstn (length examples) decode_results'))).
    { rewrite <- firstn_map, E, firstn_map. now apply in_map. }
    apply in_map_iff in Hm. destruct Hm as (hyps' & Hc & Hin'). eauto. }
  destruct Hhyps' as (hyps' & Hin' & Hc).
  assert (Hlen' : (2 <= length hyps')%nat).
  { rewrite <- (length_map code hyps'), Hc, length_map. exact Hlen. }
  rewrite Forall_forall in H. specialize (H _ Hin').
  destruct (nth_error hyps' 1) as [hyp|] eqn:E1; [|apply nth_error_None in E1; lia].
  destruct (H _ _ E1) as (_ & (d & Hd & Hk) & v & _ & Hval).
  simpl in Hval. unfold get_rerank_feature_values in Hval. rewrite Hd in Hval.
  cbn [rbind] in Hval. unfold od_item in Hval. rewrite od_get_None in Hval; [discriminate|].
  rewrite Hk. intro Hc'. destruct (cache_keys_NoDup_incl self) as [_ Hincl].
  apply Hincl in Hc'. apply in_app_or in Hc'.
  destruct Hc' as [Hc'|Hc']; [apply Hnokey; now apply Hbkeys | now apply Hnokey].
Qed.

(** ** The sample reranker with all features *)

Lemma sample_feature_initialization :
  initialize_rerank_features sample_feature_reranker [sample_example] sample_valid_results
  = (Ok tt, sample_feature_initialized).
Proof. vm_compute. reflexivity. Qed.

Lemma code_token_count_is_cached_witness :
  Reranker___getattr__ sample_feature_reranker "code_token_count" = Ok HypCodeTokensCount
  /\ Forall (Forall (fun hyp =>
               exists tokens,
                 tokenize_code sample_transition_system (code hyp) = Ok tokens
                 /\ cached "code_token_count" hyp = Some (Q_of_nat (length tokens))))
       (firstn (length [sample_example]) sample_feature_initialized).
Proof.
  split; [reflexivity|].
  exact (@code_token_count_is_cached GridSearchReranker sample_features None sample_transition_system
           [sample_example] sample_valid_results sample_feature_initialized
           eq_refl sample_feature_initialization).
Defined.

Lemma normalized_parser_score_is_cached_witness :
  Reranker___getattr__ sample_feature_reranker "normalized_parser_score"
    = Ok NormalizedParserScore
  /\ Forall (Forall (fun hyp =>
               exists tokens,
                 tokenize_code sample_transition_system (code hyp) = Ok tokens
                 /\ tokens <> []
                 /\ cached "normalized_parser_score" hyp
                    = Some (score hyp / Q_of_nat (length tokens))))
       (firstn (length [sample_example]) sample_feature_initialized).
Proof.
  split; [reflexivity|].
  exact (@normalized_parser_score_is_cached GridSearchReranker sample_features None
           sample_transition_system [sample_example] sample_valid_results
           sample_feature_initialized eq_refl sample_feature_initialization).
Defined.

Lemma score_margin_is_cached_witness :
  Reranker___getattr__ sample_feature_reranker "is_2nd_hyp_and_margin_with_top_hyp"
    = Ok IsSecondHypAndScoreMargin
  /\ Forall (fun hyps =>
               forall hyp_id hyp,
                 nth_error hyps hyp_id = Some hyp ->
                 (hyp_id = 1%nat ->
                  exists top,
                    nth_error hyps 0 = Some top
                    /\ cached "is_2nd_hyp_and_margin_with_top_hyp" hyp
                       = Some (score top - score hyp))
                 /\ (hyp_id <> 1%nat ->
                     cached "is_2nd_hyp_and_margin_with_top_hyp" hyp = Some 0))
       (firstn (length [sample_example]) sample_feature_initialized).
Proof.
  split; [reflexivity|].
  exact (@score_margin_is_cached GridSearchReranker sample_features None sample_transition_system
           [sample_example] sample_valid_results sample_feature_initialized
           eq_refl sample_feature_initialization).
Defined.

Lemma sample_paraphrase_score_is_batched :
  forall f, Reranker___getattr__ sample_feature_reranker "paraphrase_score" = Ok f ->
            is_batched f = true.
Proof. intros f H. vm_compute in H. injection H as <-. reflexivity. Qed.

Lemma paraphrase_margin_is_cached_witness :
  Reranker___getattr__ sample_feature_reranker
    "is_2nd_hyp_and_paraphrase_score_margin_with_top_hyp"
    = Ok IsSecondHypAndParaphraseScoreMargin
  /\ Forall (fun hyps =>
               forall hyp_id hyp,
                 nth_error hyps hyp_id = Some hyp ->
                 (hyp_id = 1%nat ->
                  exists top a b,
                    nth_error hyps 0 = Some top
                    /\ cached "paraphrase_score" hyp = Some a
                    /\ cached "paraphrase_score" top = Some b
                    /\ cached "is_2nd_hyp_and_paraphrase_score_margin_with_top_hyp" hyp
                       = Some (a - b))
                 /\ (hyp_id <> 1%nat ->
                     cached "is_2nd_hyp_and_paraphrase_score_margin_with_top_hyp" hyp
                     = Some 0))
       (firstn (length [sample_example]) sample_feature_initialized).
Proof.
  split; [reflexivity|].
  exact (@paraphrase_margin_is_cached GridSearchReranker sample_features None sample_transition_system
           [sample_example] sample_valid_results sample_feature_initialized
           eq_refl sample_paraphrase_score_is_batched sample_feature_initialization).
Defined.

Lemma paraphrase_margin_needs_paraphrase_score_witness :
  (2 <= length (nth 0 sample_valid_results []))%nat
  /\ fst (initialize_rerank_features sample_margin_only_reranker [sample_example]
            sample_valid_results) <> Ok tt.
Proof.
  split; [simpl; lia|].
  refine (@paraphrase_margin_needs_paraphrase_score GridSearchReranker
            [IsSecondHypAndParaphraseScoreMargin] None sample_transition_system
            [sample_example] sample_valid_results (nth 0 sample_valid_results [])
            eq_refl _ _ _).
  - simpl. intros [H|[]]. discriminate H.
  - simpl. now left.
  - simpl. lia.
Defined.

Lemma initialization_needs_tokenizable_code_witness :
  initialize_rerank_features sample_feature_reranker [sample_example] sample_valid_results
    = (Ok tt, sample_feature_initialized)
  /\ Forall (Forall (fun hyp =>
               exists tokens,
                 tokenize_code (transition_system sample_feature_reranker) (code hyp)
                 = Ok tokens))
       (firstn (length [sample_example]) sample_valid_results).
Proof.
  split; [exact sample_feature_initialization|].
  exact (proj1 (@initialization_needs_tokenizable_code sample_feature_reranker
                  [sample_example] sample_valid_results sample_feature_initialized
                  sample_feature_initialization)).
Defined.

Lemma sample_duplicate_initialization :
  initialize_rerank_features sample_duplicate_reranker [sample_example]
    sample_single_results
  = (Ok tt, [[set_rerank_feature_values [("code_token_count", 3)]
                (set_code_token_count 3 (new_hyp "x=1" (-1 # 2) false))]]).
Proof. vm_compute. reflexivity. Qed.

Lemma duplicate_name_makes_scoring_raise_witness :
  ~ NoDup (map feature_name [HypCodeTokensCount; HypCodeTokensCount])
  /\ get_rerank_score sample_duplicate_reranker
       (set_rerank_feature_values [("code_token_count", 3)]
          (set_code_token_count 3 (new_hyp "x=1" (-1 # 2) false)))
       (parameter sample_duplicate_reranker)
     = Raise ValueError.
Proof.
  assert (Hdup : ~ NoDup (map feature_name [HypCodeTokensCount; HypCodeTokensCount])).
  { intro H. inversion H as [|? ? Hn _]; subst. apply Hn. now left. }
  split; [exact Hdup|].
  pose proof (@duplicate_name_makes_scoring_raise
                [HypCodeTokensCount; HypCodeTokensCount] None sample_transition_system
                [sample_example] sample_single_results _ Hdup
                sample_duplicate_initialization) as H.
  simpl in H. inversion H as [|? ? Hl _]; subst. inversion Hl as [|? ? Hh _]; subst.
  destruct Hh as [_ Hh]. apply Hh. reflexivity.
Defined.

(** ** XGBoostReranker.get_feature_matrix and train *)

Lemma feature_rows_inv (hyps : list Hyp) :
  forall x y x' y',
    feature_rows hyps x y = Ok (x', y') ->
    Forall (fun hyp => hasattr_rerank_feature_values hyp = true) hyps
    /\ x' = x ++ map feature_row hyps.
Proof.
  induction hyps as [|hyp hyps IH]; intros x y x' y' H; simpl in H.
  - inversion H; subst. split; [constructor | now rewrite app_nil_r].
  - unfold get_rerank_feature_values in H.
    destruct (rerank_feature_values hyp) as [d|] eqn:Ed; [|discriminate].
    cbn [rbind] in H. apply IH in H. destruct H as [Hall ->]. split.
    + constructor; [|exact Hall]. unfold hasattr_rerank_feature_values. now rewrite Ed.
    + rewrite <- app_assoc. cbn [map app]. do 2 f_equal.
      unfold feature_row, cached_values. now rewrite Ed.
Qed.

Lemma feature_groups_inv (decode_results : list (list Hyp)) :
  forall x y group x' y' group',
    feature_groups decode_results x y group = Ok (x', y', group') ->
    Forall (Forall (fun hyp => hasattr_rerank_feature_values hyp = true)) decode_results
    /\ x' = x ++ map feature_row (concat decode_results).
Proof.
  induction decode_results as [|hyps rest IH]; intros x y group x' y' group' H;
    simpl in H.
  - inversion H; subst. split; [constructor | now rewrite app_nil_r].
  - destruct hyps as [|hyp hyps].
    + apply IH in H. destruct H as [Hall ->]. split; [|reflexivity].
      constructor; [constructor | exact Hall].
    + destruct (feature_rows (hyp :: hyps) x y) as [[x1 y1]|e] eqn:E; [|discriminate].
      cbn [rbind fst snd] in H. apply IH in H. destruct H as [Hall ->].
      apply feature_rows_inv in E. destruct E as [Hh ->]. split.
      * constructor; assumption.
      * cbn [concat]. now rewrite map_app, app_assoc.
Qed.

Lemma np_stack_inv (x x' : list (list Q)) :
  np_stack x = Ok x' ->
  x' = x /\ x <> [] /\ exists n, Forall (fun row => length row = n) x.
Proof.
  unfold np_stack. destruct x as [|row t]; [discriminate|].
  destruct (forallb (fun row' => Nat.eqb (length row') (length row)) t) eqn:E;
    [|discriminate].
  intro H. inversion H; subst. split; [reflexivity|]. split; [discriminate|].
  exists (length row). constructor; [reflexivity|].
  apply Forall_forall. intros row' Hin. rewrite forallb_forall in E.
  apply Nat.eqb_eq. now apply E.
Qed.

(** What [get_feature_matrix] has seen when it returns, and what it returns. *)
Lemma get_feature_matrix_inv (decode_results : list (list Hyp))
    (r : list (list Q) * list Z * list nat) :
  get_feature_matrix decode_results = Ok r ->
  (exists n, Forall (Forall (has_features n)) decode_results)
  /\ concat decode_results <> []
  /\ r = (map feature_row (concat decode_results),
          map label_of (concat decode_results),
          map (@length Hyp) (filter nonempty decode_results)).
Proof.
  intro H. unfold get_feature_matrix in H.
  destruct (feature_groups decode_results [] [] []) as [[[x1 y1] g1]|e] eqn:E;
    [|discriminate].
  cbn [rbind fst snd] in H.
  destruct (np_stack x1) as [x2|e] eqn:Es; [|discriminate].
  pose proof (feature_groups_inv _ _ _ _ E) as [Hall Hx]. simpl in Hx. subst x1.
  apply np_stack_inv in Es. destruct Es as (-> & Hne & n & Hrows).
  assert (Hfeat : Forall (Forall (has_features (pred n))) decode_results).
  { apply Forall_forall. intros hyps Hhyps. apply Forall_forall. intros hyp Hin.
    rewrite Forall_forall in Hall. pose proof (Hall _ Hhyps) as Hh.
    rewrite Forall_forall in Hh. specialize (Hh _ Hin).
    unfold hasattr_rerank_feature_values in Hh.
    destruct (rerank_feature_values hyp) as [d|] eqn:Ed; [|discriminate].
    exists d. split; [exact Ed|].
    rewrite Forall_forall in Hrows.
    assert (Hr : length (feature_row hyp) = n).
    { apply Hrows. apply in_map. apply in_concat. eauto. }
    unfold feature_row, cached_values, od_values in Hr. rewrite Ed in Hr.
    simpl in Hr. rewrite length_map in Hr. now rewrite <- Hr. }
  split; [eauto|]. split.
  - intro Hc. apply Hne. now rewrite Hc.
  - rewrite (feature_groups_ok Hfeat) in E. cbn [app] in E. inversion E; subst.
    now inversion H.
Qed.

(** X11: [get_feature_matrix] returns exactly when every hypothesis has a
    cache, all caches have the same number of values, and some example has a
    hypothesis; a hypothesis without cache, caches of different sizes or a
    dataset without any hypothesis make it raise. *)
Theorem get_feature_matrix_returns_iff :
  forall decode_results : list (list Hyp),
    (exists r, get_feature_matrix decode_results = Ok r)
    <-> (exists n, Forall (Forall (has_features n)) decode_results)
        /\ (exists hyps, In hyps decode_results /\ hyps <> []).
Proof.
  intro decode_results. split.
  - intros [r H]. apply get_feature_matrix_inv in H. destruct H as (Hall & Hne & _).
    split; [exact Hall|].
    destruct (concat decode_results) as [|hyp l] eqn:Ec; [now elim Hne|].
    assert (Hin : In hyp (concat decode_results)) by (rewrite Ec; now left).
    apply in_concat in Hin. destruct Hin as (hyps & Hh & Hin).
    exists hyps. split; [exact Hh|]. intros ->. exact Hin.
  - intros [[n Hall] (hyps & Hin & Hne)].
    unfold get_feature_matrix. rewrite (feature_groups_ok Hall).
    cbn [rbind fst snd app].
    rewrite (@np_stack_uniform (S n)); [cbn [rbind]; eexists; reflexivity| |].
    + intro H. apply map_eq_nil in H.
      destruct hyps as [|hyp hyps]; [congruence|].
      assert (Hc : In hyp (concat decode_results)).
      { apply in_concat. exists (hyp :: hyps). split; [exact Hin | now left]. }
      rewrite H in Hc. exact Hc.
    + apply Forall_map. apply Forall_concat.
      eapply Forall_impl; [|exact Hall]. intros l Hl.
      eapply Forall_impl; [|exact Hl]. intros h. apply feature_row_length.
Qed.

(** X12: when [XGBoostReranker.train] returns, feature initialization has
    returned on the store as given, without filtering; the booster has been
    fitted on one row and one label per hypothesis of the whole store, in
    order, grouped by example; that fitted booster is the one the reranker
    holds; and the first example has at least one hypothesis (the concluding
    evaluation raises IndexError otherwise). *)
Theorem xgboost_train_fits_on_all_hypotheses :
  forall (fit : XGBRanker -> list (list Q) -> list Z -> list nat -> result XGBRanker)
         (self self' : Reranker) (examples : list Example) (evaluator : Evaluator)
         (decode_results decode_results' : Store),
    XGBoostReranker_train fit self examples evaluator decode_results
      = (Ok self', decode_results') ->
    exists ranker ranker',
      cls self = XGBoostReranker ranker
      /\ initialize_rerank_features self examples decode_results = (Ok tt, decode_results')
      /\ fit ranker (map feature_row (concat decode_results'))
           (map label_of (concat decode_results'))
           (map (@length Hyp) (filter nonempty decode_results')) = Ok ranker'
      /\ self' = set_cls self (XGBoostReranker ranker')
      /\ map (map code) decode_results' = map (map code) decode_results
      /\ exists hyp0 hyps rest, decode_results' = (hyp0 :: hyps) :: rest.
Proof.
  intros fit self self' examples evaluator decode_results decode_results' H.
  unfold XGBoostReranker_train, mbind in H.
  pose proof (initialize_rerank_features_codes self examples decode_results) as Hcodes.
  destruct (initialize_rerank_features self examples decode_results) as [[[]|e] dr1]
    eqn:Hinit; [|discriminate].
  simpl in Hcodes.
  destruct (get_feature_matrix dr1) as [xyg|e] eqn:Hm; [|discriminate].
  cbn [rbind] in H.
  destruct (get_feature_matrix_inv _ Hm) as ([n Hall] & Hne & ->).
  cbn [fst snd] in H.
  unfold get_ranker in H. destruct (cls self) as [| |ranker] eqn:Hcls; try discriminate.
  cbn [rbind] in H.
  destruct (fit ranker (map feature_row (concat dr1)) (map label_of (concat dr1))
              (map (@length Hyp) (filter nonempty dr1))) as [ranker'|e] eqn:Hfit;
    [|discriminate].
  unfold compute_rerank_performance, mbind, filter_hyps_and_initialize_features in H.
  destruct dr1 as [|[|hyp0 hyps] rest]; try discriminate.
  assert (Ha : hasattr_rerank_feature_values hyp0 = true).
  { inversion Hall as [|? ? Hl _]; subst. inversion Hl as [|? ? (d & Hd & _) _]; subst.
    unfold hasattr_rerank_feature_values. now rewrite Hd. }
  rewrite Ha in H.
  destruct (rerank_examples (set_cls self (XGBoostReranker ranker'))
              (parameter (set_cls self (XGBoostReranker ranker'))) true examples
              ((hyp0 :: hyps) :: rest)) as [sorted|e]; [|discriminate].
  inversion H; subst. exists ranker, ranker'. repeat split; eauto.
Qed.

Lemma xgboost_train_fits_on_all_hypotheses_witness :
  XGBoostReranker_train sample_fit sample_xgb_reranker [sample_example] sample_evaluator
    sample_valid_results
    = (Ok (set_cls sample_xgb_reranker (XGBoostReranker sample_xgb_ranker)),
       sample_initialized_results)
  /\ sample_fit sample_xgb_ranker (map feature_row (concat sample_initialized_results))
       (map label_of (concat sample_initialized_results))
       (map (@length Hyp) (filter nonempty sample_initialized_results))
     = Ok sample_xgb_ranker.
Proof.
  assert (H : XGBoostReranker_train sample_fit sample_xgb_reranker [sample_example]
                sample_evaluator sample_valid_results
              = (Ok (set_cls sample_xgb_reranker (XGBoostReranker sample_xgb_ranker)),
                 sample_initialized_results))
    by (vm_compute; reflexivity).
  split; [exact H|].
  destruct (xgboost_train_fits_on_all_hypotheses _ _ _ _ _ H)
    as (ranker & ranker' & Hcls & _ & Hfit & _).
  reflexivity.
Defined.

(** ** Reranker.load *)


Lemma load_features_inv (registry : OrderedDict FeatureClass) (model_path : string)
    (cuda : bool) (feature_names : list string) :
  forall features loaded,
    load_features registry model_path cuda feature_names features = Ok loaded ->
    exists new,
      loaded = features ++ new
      /\ Forall2 (fun name feat =>
                    exists feat_cls,
                      od_get name registry = Some feat_cls
                      /\ builds feat_cls (model_path ++ "." ++ name)%string cuda feat)
           feature_names new.
Proof.
  induction feature_names as [|name rest IH]; intros features loaded H;
    cbn [load_features] in H.
  - inversion H; subst. exists []. split; [now rewrite app_nil_r | constructor].
  - unfold od_item in H. destruct (od_get name registry) as [feat_cls|] eqn:Ec;
      [|simpl in H; discriminate].
    cbn [rbind] in H.
    assert (Hb : exists feat_inst,
               builds feat_cls (model_path ++ "." ++ name)%string cuda feat_inst
               /\ load_features registry model_path cuda rest (features ++ [feat_inst])
                  = Ok loaded).
    { destruct feat_cls as [new|load_from]; cbn [builds].
      - destruct new as [feat_inst|e]; [|simpl in H; discriminate].
        exists feat_inst. split; [reflexivity | exact H].
      - destruct (load_from (model_path ++ "." ++ name)%string cuda)
          as [feat_inst|e]; [|simpl in H; discriminate].
        exists feat_inst. split; [reflexivity | exact H]. }
    destruct Hb as (feat_inst & Hb & H'). apply IH in H'.
    destruct H' as (new & -> & Hall).
    exists (feat_inst :: new). split; [now rewrite <- app_assoc|].
    constructor; [|exact Hall]. exists feat_cls. split; [exact Ec | exact Hb].
Qed.

Lemma Forall2_names (registry : OrderedDict FeatureClass) (path_of : string -> string)
    (cuda : bool) (names : list string) (feats : list RerankingFeature) :
  name_consistent registry ->
  Forall2 (fun name feat =>
             exists feat_cls,
               od_get name registry = Some feat_cls
               /\ builds feat_cls (path_of name) cuda feat) names feats ->
  map feature_name feats = names.
Proof.
  intros Hc. induction 1 as [|name feat names feats (feat_cls & Hg & Hb) _ IH];
    simpl; [reflexivity|].
  f_equal; [|exact IH]. eapply Hc; eassumption.
Qed.

(** X14: when [load], called on the base class or on the grid search class
    with a registry whose classes build features carrying their registered
    names, returns a reranker, then [torch.load] has delivered a bundle; the
    reranker is of the class asked for; its features carry the saved names in
    the saved order; it holds the saved transition system and the saved
    parameter (zeros if none was saved); and [__getattr__] finds under each
    saved name a feature of that name. *)
Theorem load_restores_by_name :
  forall (c : RerankerClass) (torch_load : string -> result SavedParams)
         (registry : OrderedDict FeatureClass) (model_path : string) (cuda : bool)
         (reranker : Reranker),
    name_consistent registry ->
    load c torch_load registry model_path cuda = Ok reranker ->
    exists params,
      torch_load model_path = Ok params
      /\ cls reranker = c
      /\ map feature_name (features reranker) = saved_feature_names params
      /\ feature_num reranker = length (saved_feature_names params)
      /\ transition_system reranker = saved_transition_system params
      /\ parameter reranker
         = match saved_parameter params with
           | Some p => p
           | None => np_zeros (length (saved_feature_names params))
           end
      /\ forall name,
           In name (saved_feature_names params) ->
           exists feat,
             Reranker___getattr__ reranker name = Ok feat /\ feature_name feat = name.
Proof.
  intros c torch_load registry model_path cuda reranker Hc H. unfold load in H.
  destruct (torch_load model_path) as [params|e]; [|discriminate]. cbn [rbind] in H.
  destruct (load_features registry model_path cuda (saved_feature_names params) [])
    as [feats|e] eqn:El; [|discriminate].
  cbn [rbind] in H. apply load_features_inv in El. destruct El as (new & -> & Hall).
  simpl in H.
  pose proof (@Forall2_names registry (fun name => (model_path ++ "." ++ name)%string)
                cuda _ _ Hc Hall) as Hnames.
  assert (Hr : reranker = new_reranker c new (saved_parameter params)
                            (saved_transition_system params) /\ cls reranker = c).
  { destruct c; try discriminate; inversion H; subst;
      (split; [reflexivity | apply new_reranker_fields]). }
  destruct Hr as [-> Hcls].
  destruct (new_reranker_fields c new (saved_parameter params)
              (saved_transition_system params)) as (_ & Hf & Ht & Hm & _ & Hp).
  exists params. split; [reflexivity|]. split; [exact Hcls|].
  split; [now rewrite Hf|]. split.
  { unfold feature_num. now rewrite Hf, <- Hnames, length_map. }
  split; [exact Ht|]. split.
  { rewrite Hp, <- Hnames, length_map. reflexivity. }
  intros name Hin. unfold Reranker___getattr__. rewrite Hm, od_get_fold_od_set.
  destruct (find (fun f => String.eqb name (feature_name f)) (rev new)) as [f|] eqn:Ef.
  - exists f. split; [reflexivity|]. apply find_some in Ef. destruct Ef as [_ Ef].
    apply String.eqb_eq in Ef. now symmetry.
  - exfalso. rewrite <- Hnames in Hin. apply in_map_iff in Hin.
    destruct Hin as (f & Hn & Hin).
    pose proof (find_none _ _ Ef f (proj1 (in_rev _ _) Hin)) as Hx.
    simpl in Hx. rewrite <- Hn, String.eqb_refl in Hx. discriminate.
Qed.

Lemma module_feature_classes_name_consistent : name_consistent module_feature_classes.
Proof.
  intros name feat_cls path cuda feat Hg Hb. unfold module_feature_classes in Hg.
  simpl in Hg.
  repeat match type of Hg with
         | (if String.eqb ?a ?b then _ else _) = _ =>
             destruct (String.eqb_spec a b) as [->|?]
         end;
    try discriminate; inversion Hg; subst; simpl in Hb; inversion Hb; reflexivity.
Qed.

Lemma load_restores_by_name_witness :
  name_consistent module_feature_classes
  /\ exists reranker,
       load GridSearchReranker sample_torch_load module_feature_classes "model.bin" false
       = Ok reranker
       /\ map feature_name (features reranker)
          = ["code_token_count"; "normalized_parser_score"]
       /\ parameter reranker = [1 # 2; 1 # 4].
Proof.
  split; [exact module_feature_classes_name_consistent|].
  eexists. split; [reflexivity|].
  destruct (@load_restores_by_name GridSearchReranker sample_torch_load
              module_feature_classes "model.bin" false _
              module_feature_classes_name_consistent eq_refl)
    as (params & Hp & _ & Hn & _ & _ & Hparam & _).
  inversion Hp; subst params. split; [exact Hn | exact Hparam].
Defined.

(** X15: a bundle that names a feature absent from the registry cannot be
    loaded: [load] does not return a reranker. *)
Theorem load_needs_registered_names :
  forall (c : RerankerClass) (torch_load : string -> result SavedParams)
         (registry : OrderedDict FeatureClass) (model_path : string) (cuda : bool)
         (params : SavedParams) (name : string) (reranker : Reranker),
    torch_load model_path = Ok params ->
    In name (saved_feature_names params) ->
    od_get name registry = None ->
    load c torch_load registry model_path cuda <> Ok reranker.
Proof.
  intros c torch_load registry model_path cuda params name reranker Ht Hin Hnone H.
  unfold load in H. rewrite Ht in H. cbn [rbind] in H.
  destruct (load_features registry model_path cuda (saved_feature_names params) [])
    as [feats|e] eqn:El; [|discriminate].
  apply load_features_inv in El. destruct El as (new & _ & Hall).
  clear -Hall Hin Hnone. induction Hall as [|n f names feats (feat_cls & Hg & _) _ IH].
  - contradiction.
  - destruct Hin as [->|Hin]; [congruence | auto].
Qed.

Lemma load_needs_registered_names_witness :
  od_get "paraphrase_score" module_feature_classes = None
  /\ load GridSearchReranker
       (fun _ => Ok {| saved_parameter := None;
                       saved_feature_names := ["code_token_count"; "paraphrase_score"];
                       saved_transition_system := sample_transition_system |})
       module_feature_classes "model.bin" false
     <> Ok sample_reranker.
Proof.
  split; [reflexivity|].
  apply (@load_needs_registered_names GridSearchReranker _ module_feature_classes
           "model.bin" false
           {| saved_parameter := None;
              saved_feature_names := ["code_token_count"; "paraphrase_score"];
              saved_transition_system := sample_transition_system |}
           "paraphrase_score" sample_reranker eq_refl).
  - simpl. auto.
  - reflexivity.
Defined.

(** ** The parameter grid of train_multiprocess and its segments *)

Lemma combinations_length {A} (l : list A) :
  forall r c, In c (combinations l r) -> length c = r.
Proof.
  induction l as [|a t IH]; intros [|r] c H; simpl in H.
  - destruct H as [<-|[]]; reflexivity.
  - contradiction.
  - destruct H as [<-|[]]; reflexivity.
  - apply in_app_or in H. destruct H as [H|H].
    + apply in_map_iff in H. destruct H as (c' & <- & H). simpl. f_equal. eauto.
    + eauto.
Qed.

Lemma combinations_incl {A} (l : list A) :
  forall r c, In c (combinations l r) -> incl c l.
Proof.
  induction l as [|a t IH]; intros [|r] c H; simpl in H.
  - destruct H as [<-|[]]. intros x [].
  - contradiction.
  - destruct H as [<-|[]]. intros x [].
  - apply in_app_or in H. destruct H as [H|H].
    + apply in_map_iff in H. destruct H as (c' & <- & H).
      intros x [<-|Hx]; [now left | right; eapply IH; eauto].
    + intros x Hx. right. eapply IH; eauto.
Qed.

Lemma np_arange_hundredths_range (n : nat) (x : Q) :
  (n <= 100)%nat -> In x (np_arange_hundredths n) -> 0 <= x /\ x < 1.
Proof.
  unfold np_arange_hundredths. intros Hn H. apply in_map_iff in H.
  destruct H as (i & <- & H). apply in_seq in H. unfold Qle, Qlt; simpl. lia.
Qed.

Lemma batch_iter_from_concat {A} (size : nat) :
  forall n (l : list A),
    (length l <= n * size)%nat -> concat (batch_iter_from n size l) = l.
Proof.
  induction n as [|n IH]; intros l H; simpl.
  - destruct l; [reflexivity | simpl in H; lia].
  - rewrite IH; [apply firstn_skipn|]. rewrite length_skipn. simpl in H. lia.
Qed.

Lemma batch_iter_from_segments {A} (size : nat) :
  (0 < size)%nat ->
  forall n (l : list A),
    (n * size < length l + size)%nat ->
    Forall (fun seg => seg <> [] /\ (length seg <= size)%nat) (batch_iter_from n size l).
Proof.
  intros Hs. induction n as [|n IH]; intros l H; simpl; constructor.
  - simpl in H. split.
    + destruct l as [|a t]; [simpl in H; lia|]. destruct size; [lia | discriminate].
    + rewrite length_firstn. lia.
  - apply IH. rewrite length_skipn. simpl in H. lia.
Qed.

Lemma batch_iter_from_incl {A} (size : nat) :
  forall n (l seg : list A), In seg (batch_iter_from n size l) -> incl seg l.
Proof.
  induction n as [|n IH]; intros l seg H; simpl in H; [contradiction|].
  destruct H as [<-|H].
  - intros x Hx. rewrite <- (firstn_skipn size l). apply in_or_app. now left.
  - intros x Hx. rewrite <- (firstn_skipn size l). apply in_or_app. right.
    eapply IH; eauto.
Qed.

Lemma ceil_div_bounds (len size : nat) :
  (0 < size)%nat ->
  (len <= (len + size - 1) / size * size
   /\ (len + size - 1) / size * size < len + size)%nat.
Proof.
  intros Hs.
  pose proof (Nat.div_mod_eq (len + size - 1) size) as E.
  pose proof (Nat.mod_upper_bound (len + size - 1) size ltac:(lia)) as Hr.
  rewrite (Nat.mul_comm size) in E. lia.
Qed.

(** X16: with a positive segment size the segmentation loop of
    [train_multiprocess] returns, and its segments are a partition of the
    parameter list in order: joined together they give the list back, none
    is empty and none is longer than the segment size. *)
Theorem param_space_segments_partition :
  forall (A : Type) (param_space : list A) (segment_size : nat),
    (0 < segment_size)%nat ->
    exists segments,
      param_space_segments param_space segment_size = Ok segments
      /\ concat segments = param_space
      /\ Forall (fun seg => seg <> [] /\ (length seg <= segment_size)%nat) segments.
Proof.
  intros A param_space segment_size Hs.
  destruct (ceil_div_bounds (length param_space) Hs) as [Hlo Hhi].
  destruct segment_size as [|s]; [lia|].
  eexists. split; [reflexivity|]. split.
  - now apply batch_iter_from_concat.
  - now apply batch_iter_from_segments.
Qed.

Lemma param_space_segments_partition_witness :
  param_space_segments [[0]; [1 # 100]; [2 # 100]; [3 # 100]; [4 # 100]] 2
  = Ok [[[0]; [1 # 100]]; [[2 # 100]; [3 # 100]]; [[4 # 100]]].
Proof.
  destruct (@param_space_segments_partition (list Q)
              [[0]; [1 # 100]; [2 # 100]; [3 # 100]; [4 # 100]] 2 ltac:(lia))
    as (segments & H & _).
  reflexivity.
Defined.

Lemma param_space_segments_zero {A} (param_space : list A) :
  param_space <> [] -> param_space_segments param_space 0 = Raise NonTermination.
Proof. destruct param_space; [congruence | reflexivity]. Qed.

Lemma param_space_of_nonempty (self : Reranker) :
  (feature_num self <= 100)%nat -> param_space_of self <> [].
Proof.
  intros Hn. apply combinations_nonempty.
  change (feature_num self <= length (map (fun i => Z.of_nat i # 100) (seq 0 100)))%nat.
  now rewrite length_map, length_seq.
Qed.

Lemma train_multiprocess_unfold (self : Reranker) (examples : list Example)
    (evaluator : Evaluator) (initial_performance : Q) (num_workers : nat)
    (arrival : list nat) (decode_results : Store) :
  train_multiprocess self examples evaluator initial_performance num_workers arrival
    decode_results
  = match initialize_rerank_features self examples decode_results with
    | (Raise e, dr) => (Raise e, dr)
    | (Ok _, dr) =>
        match num_workers with
        | O => (Raise ValueError, dr)
        | S _ =>
            match param_space_segments (param_space_of self)
                    (length (param_space_of self) / (num_workers * 5))%nat with
            | Raise e => (Raise e, dr)
            | Ok segments =>
                match merge_results
                        (map (fun i => _rank_segment_worker self examples evaluator dr
                                         (nth i segments [])) arrival)
                        (Some (np_zeros (feature_num self))) initial_performance with
                | Raise e => (Raise e, dr)
                | Ok best => (Ok (fst best), dr)
                end
            end
        end
    end.
Proof.
  unfold train_multiprocess, mbind.
  destruct (initialize_rerank_features self examples decode_results) as [[[]|e] dr1];
    reflexivity.
Qed.

(** X17: when the parameter list of [train_multiprocess] is not empty (at
    most 100 features) but has fewer than five entries per worker, as with a
    single feature and more than 20 workers, or with no feature at all, the
    call does not hand back a parameter: the segment size is 0 and the
    segmentation loop never advances. *)
Theorem train_multiprocess_small_space_never_returns :
  forall (self : Reranker) (examples : list Example) (evaluator : Evaluator)
         (initial_performance : Q) (num_workers : nat) (arrival : list nat)
         (decode_results decode_results' : Store) (p : option (list Q)),
    (feature_num self <= 100)%nat ->
    (length (param_space_of self) < num_workers * 5)%nat ->
    train_multiprocess self examples evaluator initial_performance num_workers arrival
      decode_results
    <> (Ok p, decode_results').
Proof.
  intros self examples evaluator ip num_workers arrival dr dr' p Hn Hlen.
  rewrite train_multiprocess_unfold.
  destruct (initialize_rerank_features self examples dr) as [[[]|e] dr1];
    [|discriminate].
  destruct num_workers as [|w]; [discriminate|].
  rewrite (Nat.div_small _ _ Hlen),
    (param_space_segments_zero (@param_space_of_nonempty self Hn)).
  discriminate.
Qed.

Lemma train_multiprocess_small_space_never_returns_witness :
  (feature_num sample_reranker <= 100)%nat
  /\ (length (param_space_of sample_reranker) < 21 * 5)%nat
  /\ train_multiprocess sample_reranker [sample_example] sample_evaluator 0 21 (seq 0 100)
       sample_valid_results
     <> (Ok (Some (np_zeros 1)), sample_initialized_results).
Proof.
  assert (H1 : (feature_num sample_reranker <= 100)%nat) by (vm_compute; lia).
  assert (H2 : (length (param_space_of sample_reranker) < 21 * 5)%nat)
    by (vm_compute; lia).
  split; [exact H1|]. split; [exact H2|].
  exact (@train_multiprocess_small_space_never_returns sample_reranker [sample_example]
           sample_evaluator 0 21 (seq 0 100) sample_valid_results
           sample_initialized_results (Some (np_zeros 1)) H1 H2).
Defined.

(** ** The workers and the coordinator of train_multiprocess *)

Lemma segment_search_inv (self : Reranker) (examples : list Example)
    (evaluator : Evaluator) (param_space : list (list Q)) :
  forall best_param best_score decode_results best_param' best_score' decode_results',
    segment_search self examples evaluator param_space best_param best_score
      decode_results
    = (Ok (best_param', best_score'), decode_results') ->
    (best_param' = best_param /\ best_score' = best_score)
    \/ (exists p, best_param' = Some p /\ In p param_space /\ best_score < best_score').
Proof.
  induction param_space as [|param rest IH]; intros bp bs dr bp' bs' dr' H.
  - inversion H; subst. now left.
  - cbn [segment_search] in H. unfold mbind at 1 in H.
    destruct (compute_rerank_performance self examples evaluator (Some param) true dr)
      as [[sc|e] dr1]; [|discriminate].
    destruct (Qltb bs sc) eqn:Elt.
    + apply Qltb_lt in Elt. apply IH in H. right.
      destruct H as [[-> ->]|(p & -> & Hin & Hlt)].
      * exists param. split; [reflexivity|]. split; [now left | exact Elt].
      * exists p. split; [reflexivity|]. split; [now right|].
        eapply Qlt_trans; eassumption.
    + apply IH in H. destruct H as [H|(p & -> & Hin & Hlt)]; [now left|].
      right. exists p. split; [reflexivity|]. split; [now right | exact Hlt].
Qed.

Lemma rank_segment_worker_inv (self : Reranker) (examples : list Example)
    (evaluator : Evaluator) (decode_results : Store) (param_space : list (list Q))
    (best_param : option (list Q)) (best_score : Q) :
  _rank_segment_worker self examples evaluator decode_results param_space
  = Ok (best_param, best_score) ->
  (best_param = None /\ best_score = 0)
  \/ (exists p, best_param = Some p /\ In p param_space /\ 0 < best_score).
Proof.
  unfold _rank_segment_worker. destruct param_space as [|q qs]; [discriminate|].
  intros H.
  destruct (segment_search self examples evaluator (q :: qs) None 0 decode_results)
    as [r dr'] eqn:Es.
  simpl in H. subst r. eapply segment_search_inv. exact Es.
Qed.

Lemma merge_results_inv (P : list Q -> Prop)
    (results : list (result (option (list Q) * Q))) :
  Forall (fun r => forall bp s, r = Ok (bp, s) ->
                     (bp = None /\ s = 0) \/ (exists p, bp = Some p /\ P p /\ 0 < s))
    results ->
  forall b bs best_param best_score,
    0 <= bs -> P b ->
    merge_results results (Some b) bs = Ok (best_param, best_score) ->
    exists q, best_param = Some q /\ P q /\ 0 <= best_score.
Proof.
  induction 1 as [|r rest Hr _ IH]; intros b bs bp' bs' Hbs Hb H.
  - inversion H; subst. eauto.
  - cbn [merge_results] in H. destruct r as [[bp s]|e]; [|discriminate].
    cbn [rbind fst snd] in H.
    destruct (improves bp s (Some b) bs) as [[|]|e] eqn:Ei; cbn [rbind] in H;
      [| eapply IH; eassumption | discriminate].
    destruct (Hr bp s eq_refl) as [[-> ->]|(p & -> & Hp & Hs)].
    + exfalso. unfold improves in Ei. destruct (Qltb bs 0) eqn:Elt.
      * apply Qltb_lt in Elt. apply (Qlt_not_le _ _ Elt Hbs).
      * destruct (Qeq_bool 0 bs); simpl in Ei; discriminate.
    + eapply IH; [apply Qlt_le_weak; exact Hs | exact Hp | exact H].
Qed.

Lemma param_space_segments_incl {A} (param_space : list A) (segment_size : nat)
    (segments : list (list A)) (i : nat) :
  param_space_segments param_space segment_size = Ok segments ->
  incl (nth i segments []) param_space.
Proof.
  intros Eseg. destruct (nth_in_or_default i segments []) as [Hin | ->];
    [|intros x []].
  unfold param_space_segments in Eseg. destruct segment_size as [|size].
  - destruct param_space; inversion Eseg; subst. contradiction.
  - inversion Eseg; subst. eapply batch_iter_from_incl; eassumption.
Qed.

(** X18: when [train_multiprocess], started with a non-negative initial
    performance, hands back a value for [self.parameter], that value is a
    vector and not [None]; it is the vector of zeros the call started from or
    one of the combinations of the grid; it has one weight per feature, each
    at least 0 and below 1; and the store is the one that feature
    initialization left. *)
Theorem train_multiprocess_returns_grid_point :
  forall (self : Reranker) (examples : list Example) (evaluator : Evaluator)
         (initial_performance : Q) (num_workers : nat) (arrival : list nat)
         (decode_results decode_results' : Store) (p : option (list Q)),
    0 <= initial_performance ->
    train_multiprocess self examples evaluator initial_performance num_workers arrival
      decode_results
    = (Ok p, decode_results') ->
    initialize_rerank_features self examples decode_results = (Ok tt, decode_results')
    /\ exists q,
         p = Some q
         /\ (q = np_zeros (feature_num self) \/ In q (param_space_of self))
         /\ length q = feature_num self
         /\ Forall (fun w => 0 <= w /\ w < 1) q.
Proof.
  intros self examples evaluator ip num_workers arrival dr dr' p Hip H.
  rewrite train_multiprocess_unfold in H.
  destruct (initialize_rerank_features self examples dr) as [[[]|e] dr1];
    [|discriminate H].
  destruct num_workers as [|w]; [discriminate H|].
  destruct (param_space_segments (param_space_of self)
              (length (param_space_of self) / (S w * 5))) as [segments|e] eqn:Eseg;
    [|discriminate H].
  pose proof (fun i => @param_space_segments_incl _ _ _ _ i Eseg) as Hincl.
  destruct (merge_results _ _ ip) as [[bp bs]|e] eqn:Em; [|discriminate H].
  inversion H; subst. split; [reflexivity|].
  set (P := fun q => q = np_zeros (feature_num self) \/ In q (param_space_of self)).
  assert (HF : Forall (fun r => forall bp s, r = Ok (bp, s) ->
                         (bp = None /\ s = 0)
                         \/ (exists p, bp = Some p /\ P p /\ 0 < s))
                 (map (fun i => _rank_segment_worker self examples evaluator dr'
                                  (nth i segments [])) arrival)).
  { apply Forall_forall. intros r Hr bp' s ->. apply in_map_iff in Hr.
    destruct Hr as (i & Hw & _). apply rank_segment_worker_inv in Hw.
    destruct Hw as [Hw | (q & -> & Hin & Hs)]; [now left|].
    right. exists q. split; [reflexivity|]. split; [|exact Hs].
    right. eapply Hincl; eassumption. }
  destruct (@merge_results_inv P _ HF _ _ _ _ Hip (or_introl eq_refl) Em)
    as (q & -> & Hq & _).
  exists q. split; [reflexivity|]. split; [exact Hq|].
  destruct Hq as [->|Hin].
  - split; [apply repeat_length|]. unfold np_zeros. apply Forall_forall.
    intros x Hx. apply repeat_spec in Hx. subst. split; [apply Qle_refl | reflexivity].
  - split; [eapply combinations_length; eassumption|].
    apply Forall_forall. intros x Hx.
    apply (@np_arange_hundredths_range 100 x (le_n _)).
    eapply combinations_incl; eassumption.
Qed.

Lemma train_multiprocess_returns_grid_point_witness :
  0 <= 0
  /\ train_multiprocess sample_reranker [sample_example] sample_evaluator 0 8
       (26%nat :: seq 0 26 ++ seq 27 23) sample_valid_results
     = (Ok (Some [51 # 100]), sample_initialized_results)
  /\ In [51 # 100] (param_space_of sample_reranker).
Proof.
  assert (H0 : 0 <= 0) by apply Qle_refl.
  assert (H : train_multiprocess sample_reranker [sample_example] sample_evaluator 0 8
                (26%nat :: seq 0 26 ++ seq 27 23) sample_valid_results
              = (Ok (Some [51 # 100]), sample_initialized_results))
    by (vm_compute; reflexivity).
  split; [exact H0|]. split; [exact H|].
  destruct (@train_multiprocess_returns_grid_point sample_reranker [sample_example]
              sample_evaluator 0 8 (26%nat :: seq 0 26 ++ seq 27 23)
              sample_valid_results sample_initialized_results (Some [51 # 100]) H0 H)
    as (_ & q & Hq & [Hz|Hin] & _); injection Hq as <-.
  - vm_compute in Hz. discriminate Hz.
  - exact Hin.
Defined.

Lemma segment_search_first_best (self : Reranker) (examples : list Example)
    (evaluator : Evaluator) (I : Store -> Prop) (perf : list Q -> Q)
    (segment : list (list Q)) :
  (forall p dr0, In p segment -> I dr0 ->
     exists dr1,
       compute_rerank_performance self examples evaluator (Some p) true dr0
       = (Ok (perf p), dr1) /\ I dr1) ->
  forall best_param best_score decode_results,
    I decode_results ->
    exists best_param' best_score' decode_results',
      segment_search self examples evaluator segment best_param best_score decode_results
      = (Ok (best_param', best_score'), decode_results')
      /\ I decode_results'
      /\ ((best_param' = best_param /\ best_score' = best_score
           /\ forall q, In q segment -> perf q <= best_score)
          \/ exists l1 p l2,
               segment = l1 ++ p :: l2
               /\ best_param' = Some p /\ best_score' = perf p
               /\ best_score < perf p
               /\ (forall q, In q l1 -> perf q < perf p)
               /\ (forall q, In q l2 -> perf q <= perf p)).
Proof.
  induction segment as [|param rest IH]; intros Hperf bp bs dr HI.
  - exists bp, bs, dr. split; [reflexivity|]. split; [exact HI|]. left.
    split; [reflexivity|]. split; [reflexivity|]. intros q [].
  - destruct (Hperf param dr (or_introl eq_refl) HI) as (dr1 & Hc & HI1).
    assert (Hrest : forall p dr0, In p rest -> I dr0 ->
              exists dr2,
                compute_rerank_performance self examples evaluator (Some p) true dr0
                = (Ok (perf p), dr2) /\ I dr2)
      by (intros p dr0 Hp; apply Hperf; now right).
    cbn [segment_search]. unfold mbind at 1. rewrite Hc.
    destruct (Qltb bs (perf param)) eqn:Elt.
    + apply Qltb_lt in Elt.
      destruct (IH Hrest (Some param) (perf param) dr1 HI1)
        as (bp' & bs' & dr' & Hs & HI' & Hcase).
      exists bp', bs', dr'. split; [exact Hs|]. split; [exact HI'|]. right.
      destruct Hcase as [(-> & -> & Hall)|(l1 & p & l2 & -> & -> & -> & Hlt & H1 & H2)].
      * exists [], param, rest. split; [reflexivity|]. split; [reflexivity|].
        split; [reflexivity|]. split; [exact Elt|]. split; [intros q []| exact Hall].
      * exists (param :: l1), p, l2. split; [reflexivity|]. split; [reflexivity|].
        split; [reflexivity|]. split; [eapply Qlt_trans; eassumption|].
        split; [|exact H2]. intros q [<-|Hq]; [exact Hlt | now apply H1].
    + apply Qltb_ge in Elt.
      destruct (IH Hrest bp bs dr1 HI1) as (bp' & bs' & dr' & Hs & HI' & Hcase).
      exists bp', bs', dr'. split; [exact Hs|]. split; [exact HI'|].
      destruct Hcase as [(-> & -> & Hall)|(l1 & p & l2 & -> & -> & -> & Hlt & H1 & H2)].
      * left. split; [reflexivity|]. split; [reflexivity|].
        intros q [<-|Hq]; [exact Elt | now apply Hall].
      * right. exists (param :: l1), p, l2. split; [reflexivity|]. split; [reflexivity|].
        split; [reflexivity|]. split; [exact Hlt|]. split; [|exact H2].
        intros q [<-|Hq]; [eapply Qle_lt_trans; eassumption | now apply H1].
Qed.

(** X19: a worker whose every call of [compute_rerank_performance] returns
    (the accuracy [perf p] for the parameter [p], on stores that stay within
    [I]) returns the first parameter of its segment with the greatest
    accuracy, together with that accuracy, provided the accuracy is positive:
    every earlier parameter scores strictly less and every later one no
    more. When no parameter of the segment scores above 0 it returns
    [(None, 0.)]. *)
Theorem rank_segment_worker_returns_first_best :
  forall (self : Reranker) (examples : list Example) (evaluator : Evaluator)
         (I : Store -> Prop) (perf : list Q -> Q) (decode_results : Store)
         (segment : list (list Q)),
    segment <> [] ->
    I decode_results ->
    (forall p dr0, In p segment -> I dr0 ->
       exists dr1,
         compute_rerank_performance self examples evaluator (Some p) true dr0
         = (Ok (perf p), dr1) /\ I dr1) ->
    (_rank_segment_worker self examples evaluator decode_results segment = Ok (None, 0)
     /\ forall q, In q segment -> perf q <= 0)
    \/ exists l1 p l2,
         segment = l1 ++ p :: l2
         /\ _rank_segment_worker self examples evaluator decode_results segment
            = Ok (Some p, perf p)
         /\ 0 < perf p
         /\ (forall q, In q l1 -> perf q < perf p)
         /\ (forall q, In q l2 -> perf q <= perf p).
Proof.
  intros self examples evaluator I perf dr segment Hne HI Hperf.
  destruct (@segment_search_first_best self examples evaluator I perf segment Hperf
              None 0 dr HI) as (bp' & bs' & dr' & Hs & _ & Hcase).
  assert (Hw : _rank_segment_worker self examples evaluator dr segment = Ok (bp', bs')).
  { unfold _rank_segment_worker. destruct segment as [|q qs]; [congruence|].
    now rewrite Hs. }
  destruct Hcase as [(-> & -> & Hall)|(l1 & p & l2 & Hseg & -> & -> & Hlt & H1 & H2)].
  - left. split; [exact Hw | exact Hall].
  - right. exists l1, p, l2. split; [exact Hseg|]. split; [exact Hw|].
    split; [exact Hlt|]. split; [exact H1 | exact H2].
Qed.

Lemma rank_segment_worker_returns_first_best_witness :
  _rank_segment_worker sample_reranker [sample_example] sample_evaluator
    sample_initialized_results sample_segment
  = Ok (Some [51 # 100], 1)
  /\ sample_perf [1 # 2] < sample_perf [51 # 100].
Proof.
  assert (Hne : sample_segment <> []) by discriminate.
  assert (Hperf : forall p dr0, In p sample_segment -> dr0 = sample_initialized_results ->
            exists dr1,
              compute_rerank_performance sample_reranker [sample_example]
                sample_evaluator (Some p) true dr0
              = (Ok (sample_perf p), dr1) /\ dr1 = sample_initialized_results).
  { intros p dr0 Hp ->. exists sample_initialized_results. split; [|reflexivity].
    destruct Hp as [<-|[<-|[<-|[]]]]; vm_compute; reflexivity. }
  destruct (@rank_segment_worker_returns_first_best sample_reranker [sample_example]
              sample_evaluator (fun dr => dr = sample_initialized_results) sample_perf
              sample_initialized_results sample_segment Hne eq_refl Hperf)
    as [[Hw _]|(l1 & p & l2 & Hseg & Hw & _ & H1 & _)].
  - vm_compute in Hw. discriminate Hw.
  - split; [vm_compute; reflexivity|].
    destruct l1 as [|q l1].
    + injection Hseg as <- _. vm_compute in Hw. discriminate Hw.
    + injection Hseg as <- Hseg. destruct l1 as [|q' l1].
      * injection Hseg as <- _. apply H1. now left.
      * injection Hseg as _ Hseg. destruct l1 as [|q'' l1].
        -- injection Hseg as <- _. vm_compute in Hw. discriminate Hw.
        -- injection Hseg as _ Hseg. destruct l1; discriminate Hseg.
Defined.

Lemma dominates_antisym (a b : list Q * Q) :
  dominates a b -> dominates b a ->
  snd a == snd b /\ sq_norm (fst a) == sq_norm (fst b).
Proof.
  unfold dominates. intros [H1|[H1 H1']] [H2|[H2 H2']].
  - exfalso. apply (Qlt_irrefl (snd a)). eapply Qlt_trans; eassumption.
  - exfalso. rewrite H2 in H1. apply (Qlt_irrefl _ H1).
  - exfalso. rewrite H1 in H2. apply (Qlt_irrefl _ H2).
  - split; [exact H2 | now apply Qle_antisym].
Qed.

(** X20: when every worker returns a parameter vector, the order in which
    the results arrive does not change the outcome of the coordinator's loop
    up to ties: for two arrival orders of the same results the loop returns
    in both, with equal scores and with parameters of equal squared norm. *)
Theorem merge_outcome_independent_of_arrival :
  forall (results results' : list (list Q * Q)) (best : list Q * Q),
    Permutation results results' ->
    exists ps ps',
      merge_results (map vector_result results) (Some (fst best)) (snd best)
      = Ok (Some (fst ps), snd ps)
      /\ merge_results (map vector_result results') (Some (fst best)) (snd best)
         = Ok (Some (fst ps'), snd ps')
      /\ snd ps == snd ps'
      /\ sq_norm (fst ps) == sq_norm (fst ps').
Proof.
  intros results results' best Hperm.
  destruct (merge_results_vectors results best) as (ps & Hm & Hin & Hdom).
  destruct (merge_results_vectors results' best) as (ps' & Hm' & Hin' & Hdom').
  exists ps, ps'. split; [exact Hm|]. split; [exact Hm'|].
  apply dominates_antisym.
  - rewrite Forall_forall in Hdom. apply Hdom.
    eapply Permutation_in; [|exact Hin']. constructor. now apply Permutation_sym.
  - rewrite Forall_forall in Hdom'. apply Hdom'.
    eapply Permutation_in; [|exact Hin]. now constructor.
Qed.

Lemma merge_outcome_independent_of_arrival_witness :
  Permutation [([1 # 2], 4 # 5); ([1 # 5], 4 # 5)] [([1 # 5], 4 # 5); ([1 # 2], 4 # 5)]
  /\ merge_results (map vector_result [([1 # 2], 4 # 5); ([1 # 5], 4 # 5)])
       (Some (np_zeros 1)) 0
     = merge_results (map vector_result [([1 # 5], 4 # 5); ([1 # 2], 4 # 5)])
         (Some (np_zeros 1)) 0.
Proof.
  assert (Hp : Permutation [([1 # 2], 4 # 5); ([1 # 5], 4 # 5)]
                 [([1 # 5], 4 # 5); ([1 # 2], 4 # 5)]) by apply perm_swap.
  split; [exact Hp|].
  destruct (@merge_outcome_independent_of_arrival _ _ (np_zeros 1, 0) Hp)
    as (ps & ps' & _).
  reflexivity.
Defined.

(** ** Fast mode and full mode; the untrained reranker *)

(** X21: the two modes of reranking agree on the best score. For a list of
    hypotheses that is not empty and whose rerank scores can all be computed,
    both modes return; the single hypothesis of the fast mode and the first
    hypothesis of the full mode both come from the list and have the same
    rerank score, which no hypothesis of the list exceeds. *)
Theorem full_mode_top_scores_as_fast_mode :
  forall (self : Reranker) (param : list Q) (hyps : list Hyp),
    hyps <> [] ->
    (forall hyp, In hyp hyps -> exists s, get_rerank_score self hyp param = Ok s) ->
    exists best top rest sb st,
      rerank_hyps self param true hyps = Ok [best]
      /\ rerank_hyps self param false hyps = Ok (top :: rest)
      /\ In best hyps /\ In top hyps
      /\ get_rerank_score self best param = Ok sb
      /\ get_rerank_score self top param = Ok st
      /\ st == sb
      /\ forall hyp s, In hyp hyps -> get_rerank_score self hyp param = Ok s -> s <= sb.
Proof.
  intros self param hyps Hne Hall.
  destruct (@mapM_total _ _ (fun hyp => get_rerank_score self hyp param) hyps Hall)
    as (scores & Hs).
  destruct (@rerank_hyps_fast self param hyps scores Hne Hs)
    as (k & best & Hk & Hbest & Hfast).
  destruct (@rerank_hyps_full self param hyps scores Hne Hs)
    as (sorted & Hfull & Hsorted).
  destruct (@sorted_desc_perm_descending gt self param hyps sorted scores Hs Hsorted)
    as (Hperm & ss & Hss & Hdesc).
  destruct Hk as (m & Hm & Hmax & _).
  destruct (@mapM_nth_error _ _ _ hyps scores k best Hs Hbest) as (sb & Hsb & Hsb').
  assert (Esb : sb = m) by congruence. subst sb.
  assert (Hle : forall hyp s, In hyp hyps -> get_rerank_score self hyp param = Ok s ->
                              s <= m).
  { intros hyp s Hin Hsc. apply In_nth_error in Hin. destruct Hin as [j Hj].
    destruct (@mapM_nth_error _ _ _ hyps scores j hyp Hs Hj) as (b & Hb & Hb').
    assert (Eb : b = s) by congruence. subst b. eapply Hmax; eassumption. }
  assert (Hbin : In best hyps) by (eapply nth_error_In; eassumption).
  destruct sorted as [|top rest].
  { exfalso. apply Hne. apply Permutation_nil. exact Hperm. }
  assert (Htin : In top hyps) by (eapply Permutation_in; [exact Hperm | now left]).
  destruct (@mapM_nth_error _ _ _ (top :: rest) ss 0%nat top Hss eq_refl)
    as (st & Hst & Hst0).
  destruct ss as [|st' ss']; [discriminate Hst0|].
  simpl in Hst0. injection Hst0 as ->.
  exists best, top, rest, m, st.
  split; [exact Hfast|]. split; [exact Hfull|]. split; [exact Hbin|].
  split; [exact Htin|]. split; [exact Hsb|]. split; [exact Hst|].
  split; [|exact Hle].
  apply Qle_antisym; [eapply Hle; eassumption|].
  assert (Hbs : In best (top :: rest))
    by (eapply Permutation_in; [apply Permutation_sym; exact Hperm | exact Hbin]).
  apply In_nth_error in Hbs. destruct Hbs as [j Hj].
  destruct (@mapM_nth_error _ _ _ (top :: rest) (st :: ss') j best Hss Hj)
    as (b & Hb & Hb').
  assert (Eb : b = m) by congruence. subst b.
  destruct j as [|j]; simpl in Hb'.
  - injection Hb' as ->. apply Qle_refl.
  - apply nth_error_In in Hb'. inversion Hdesc as [|? ? _ Hfa]; subst.
    rewrite Forall_forall in Hfa. now apply Hfa.
Qed.

Lemma full_mode_top_scores_as_fast_mode_witness :
  exists best top rest,
    rerank_hyps sample_reranker sample_tie_param true
      (concat sample_initialized_results) = Ok [best]
    /\ rerank_hyps sample_reranker sample_tie_param false
         (concat sample_initialized_results) = Ok (top :: rest)
    /\ best <> top.
Proof.
  assert (Hne : concat sample_initialized_results <> []) by discriminate.
  assert (Hall : forall hyp, In hyp (concat sample_initialized_results) ->
                   exists s, get_rerank_score sample_reranker hyp sample_tie_param = Ok s).
  { intros hyp [<-|[<-|[]]]; eexists; vm_compute; reflexivity. }
  destruct (@full_mode_top_scores_as_fast_mode sample_reranker sample_tie_param
              (concat sample_initialized_results) Hne Hall)
    as (best & top & rest & sb & st & Hfast & Hfull & _).
  exists best, top, rest. split; [exact Hfast|]. split; [exact Hfull|].
  vm_compute in Hfast, Hfull. injection Hfast as <-. injection Hfull as <- _.
  discriminate.
Defined.

Lemma dot_zeros (n : nat) :
  forall (v : list Q) (acc : Q),
    fold_left (fun acc pv => acc + fst pv * snd pv) (combine (repeat 0 n) v) acc == acc.
Proof.
  induction n as [|n IH]; intros v acc; simpl; [reflexivity|].
  destruct v as [|x v]; simpl; [reflexivity|]. rewrite IH. ring.
Qed.

(** X22: a reranker built by [GridSearchReranker(features)] without a
    parameter, from features with distinct names, scores every hypothesis it
    has initialized with the parser's score alone: the call returns, and the
    weighted sum it adds is zero. *)
Theorem untrained_reranker_scores_by_parser_score :
  forall (feats : list RerankingFeature) (ts : TransitionSystem)
         (examples : list Example) (decode_results decode_results' : Store),
    NoDup (map feature_name feats) ->
    initialize_rerank_features (new_reranker GridSearchReranker feats None ts)
      examples decode_results = (Ok tt, decode_results') ->
    Forall (Forall (fun hyp =>
      exists s,
        get_rerank_score (new_reranker GridSearchReranker feats None ts) hyp
          (parameter (new_reranker GridSearchReranker feats None ts)) = Ok s
        /\ s == score hyp))
      (firstn (length examples) decode_results').
Proof.
  intros feats ts examples dr dr' Hnd H.
  destruct (@new_reranker_registered GridSearchReranker feats None ts Hnd)
    as [Hreg Hcls].
  destruct (new_reranker_fields GridSearchReranker feats None ts)
    as (_ & _ & _ & _ & _ & Hp).
  pose proof (@initialize_rerank_features_keys _ _ _ _ H) as Hk.
  eapply Forall_impl; [|exact Hk]. intros hyps. apply Forall_impl.
  intros hyp (d & Hd & Hkeys).
  assert (Hlen : length d = length feats).
  { rewrite <- (length_map fst d). unfold od_keys in Hkeys. rewrite Hkeys.
    rewrite (cache_keys_registered Hreg Hnd), length_app, !length_map.
    pose proof (Permutation_length (filter_split_perm is_batched feats)) as Hl.
    rewrite length_app in Hl. exact Hl. }
  rewrite Hp.
  rewrite (@grid_search_score_of_cache _ hyp d (np_zeros (length feats)) Hcls Hd);
    [|unfold np_zeros; now rewrite repeat_length].
  eexists. split; [reflexivity|]. unfold np_zeros. rewrite dot_zeros. ring.
Qed.

Lemma untrained_reranker_scores_by_parser_score_witness :
  NoDup (map feature_name [HypCodeTokensCount])
  /\ Forall (Forall (fun hyp =>
        exists s,
          get_rerank_score sample_reranker hyp (parameter sample_reranker) = Ok s
          /\ s == score hyp))
       sample_initialized_results.
Proof.
  assert (Hnd : NoDup (map feature_name [HypCodeTokensCount]))
    by (repeat constructor; intros []).
  assert (Hi : initialize_rerank_features
                 (new_reranker GridSearchReranker [HypCodeTokensCount] None
                    sample_transition_system)
                 [sample_example] sample_valid_results
               = (Ok tt, sample_initialized_results)) by (vm_compute; reflexivity).
  split; [exact Hnd|].
  exact (@untrained_reranker_scores_by_parser_score [HypCodeTokensCount]
           sample_transition_system [sample_example] sample_valid_results
           sample_initialized_results Hnd Hi).
Defined.
